(** * Prinsp: region selection, annotation history, rendering and panel layout

    A shallow embedding of the TypeScript/Vue sources of the Prinsp screenshot
    tool, with the properties of its specification proved about it.

    Conventions.
    - Pixel coordinates, window sizes and list indices are JavaScript numbers
      holding integers (mouse-event client coordinates, [window.innerWidth],
      image sizes); they are modelled as [Z], where number arithmetic,
      comparison, [Math.min], [Math.max] and [Math.abs] are exact.
    - Trigonometry ([Math.atan2], [Math.cos], [Math.sin], [Math.PI]) is
      modelled over the real numbers [R] of the standard library.
    - [Math.random()] is an oracle handing out rationals; the painting
      routines thread the number of draws made so far.
    - A canvas 2D context is modelled by the sequence of calls made on it. *)

From Stdlib Require Import ZArith List String Bool Lia.
From Stdlib Require Import QArith Qround Reals Lra.
Import ListNotations.

Local Open Scope Z_scope.

(* ================================================================== *)
(** ** Data model ([src/types/index.ts]) *)

Inductive ToolType : Type := select | arrow | rect | text | mosaic.

Definition ToolType_eqb (a b : ToolType) : bool :=
  match a, b with
  | select, select | arrow, arrow | rect, rect | text, text | mosaic, mosaic => true
  | _, _ => false
  end.

Module Point.
Record t : Type := mk { x : Z; y : Z }.
End Point.

Module Style.
Record t : Type := mk { color : string; lineWidth : Z; fontSize : option Z }.
End Style.

Module Annotation.
Record t : Type := mk {
  id : string;
  type : ToolType;
  points : list Point.t;
  style : Style.t;
  text : option string
}.
End Annotation.

Module Selection.
Record t : Type := mk { x : Z; y : Z; width : Z; height : Z }.
End Selection.

(* ================================================================== *)
(** ** JavaScript array primitives used by the sources *)

(** [arr.slice(0, e)]: a negative [e] counts from the end, and the bound is
    clamped to the array. *)
Definition js_slice0 {A : Type} (arr : list A) (e : Z) : list A :=
  let len := Z.of_nat (List.length arr) in
  let k := if e <? 0 then Z.max (len + e) 0 else Z.min e len in
  firstn (Z.to_nat k) arr.

(** [arr[i]]: [undefined] (here [None]) outside the array. *)
Definition js_index {A : Type} (arr : list A) (i : Z) : option A :=
  if i <? 0 then None else nth_error arr (Z.to_nat i).

(** [arr.length] *)
Definition js_length {A : Type} (arr : list A) : Z := Z.of_nat (List.length arr).

(* ================================================================== *)
(** ** Annotation history ([composables/useAnnotation.ts]) *)

Module History.

(** The three refs the composable closes over.  Every array stored in
    [history] is a fresh copy ([[...annotations.value]]) and [undo]/[redo]
    copy on the way out, so [annotations] never aliases a snapshot and
    value semantics is exact. *)
Record State : Type := mkState {
  annotations : list Annotation.t;
  history : list (list Annotation.t);
  historyIndex : Z
}.

(** [useAnnotation()]: refs as initialised. *)
Definition init : State :=
  {| annotations := []; history := [[]]; historyIndex := 0 |}.

Definition saveHistory (s : State) : State :=
  let h1 := js_slice0 (history s) (historyIndex s + 1) in
  let h2 := h1 ++ [annotations s] in
  {| annotations := annotations s;
     history := h2;
     historyIndex := js_length h2 - 1 |}.

Definition addAnnotation (a : Annotation.t) (s : State) : State :=
  saveHistory {| annotations := annotations s ++ [a];
                 history := history s;
                 historyIndex := historyIndex s |}.

(** [undo] and [redo] spread [history.value[historyIndex.value]]; spreading
    [undefined] throws a TypeError, modelled by [None]. *)
Definition undo (s : State) : option State :=
  if 0 <? historyIndex s then
    let i := historyIndex s - 1 in
    match js_index (history s) i with
    | Some snap =>
        Some {| annotations := snap; history := history s; historyIndex := i |}
    | None => None
    end
  else Some s.

Definition redo (s : State) : option State :=
  if historyIndex s <? js_length (history s) - 1 then
    let i := historyIndex s + 1 in
    match js_index (history s) i with
    | Some snap =>
        Some {| annotations := snap; history := history s; historyIndex := i |}
    | None => None
    end
  else Some s.

Definition clear (s : State) : State :=
  saveHistory {| annotations := [];
                 history := history s;
                 historyIndex := historyIndex s |}.

Definition canUndo (s : State) : bool := 0 <? historyIndex s.
Definition canRedo (s : State) : bool :=
  historyIndex s <? js_length (history s) - 1.

(** The operations the composable exports, and their sequencing. *)
Inductive Op : Type :=
| OpAdd (a : Annotation.t)
| OpUndo
| OpRedo
| OpClear.

Definition step (o : Op) (s : State) : option State :=
  match o with
  | OpAdd a => Some (addAnnotation a s)
  | OpUndo => undo s
  | OpRedo => redo s
  | OpClear => Some (clear s)
  end.

Fixpoint run (ops : list Op) (s : State) : option State :=
  match ops with
  | [] => Some s
  | o :: rest =>
      match step o s with
      | Some s' => run rest s'
      | None => None
      end
  end.

(** The history invariant of the data model. *)
Definition Inv (s : State) : Prop :=
  0 <= historyIndex s < js_length (history s) /\
  js_index (history s) (historyIndex s) = Some (annotations s).

End History.

(* ================================================================== *)
(** ** Region selector ([components/RegionSelector.vue]) *)

Module RegionSelector.

(** What the handlers read of a [MouseEvent]: the client coordinates and
    whether [e.target.closest('.capture-toolbar')] finds an element. *)
Record MouseEvent : Type := mkMouseEvent {
  clientX : Z;
  clientY : Z;
  inCaptureToolbar : bool
}.

Record State : Type := mkState {
  isSelecting : bool;
  startPoint : Point.t;
  endPoint : Point.t
}.

Definition init : State :=
  {| isSelecting := false;
     startPoint := Point.mk 0 0;
     endPoint := Point.mk 0 0 |}.

Inductive Emit : Type :=
| EmitSelect (sel : Selection.t)
| EmitFullscreen
| EmitCancel.

(** The computed [selection]. *)
Definition selection (s : State) : Selection.t :=
  {| Selection.x := Z.min (Point.x (startPoint s)) (Point.x (endPoint s));
     Selection.y := Z.min (Point.y (startPoint s)) (Point.y (endPoint s));
     Selection.width := Z.abs (Point.x (endPoint s) - Point.x (startPoint s));
     Selection.height := Z.abs (Point.y (endPoint s) - Point.y (startPoint s)) |}.

(** The computed [hasSelection]. *)
Definition hasSelection (s : State) : bool :=
  (10 <? Selection.width (selection s)) && (10 <? Selection.height (selection s)).

Definition onMouseDown (e : MouseEvent) (s : State) : State :=
  if inCaptureToolbar e then s
  else {| isSelecting := true;
          startPoint := Point.mk (clientX e) (clientY e);
          endPoint := Point.mk (clientX e) (clientY e) |}.

Definition onMouseMove (e : MouseEvent) (s : State) : State :=
  if isSelecting s
  then {| isSelecting := isSelecting s;
          startPoint := startPoint s;
          endPoint := Point.mk (clientX e) (clientY e) |}
  else s.

Definition onMouseUp (s : State) : State * list Emit :=
  ({| isSelecting := false;
      startPoint := startPoint s;
      endPoint := endPoint s |},
   if isSelecting s && hasSelection s then [EmitSelect (selection s)] else []).

Definition onKeyDown (key : string) (s : State) : State * list Emit :=
  (s, if String.eqb key "Escape" then [EmitCancel] else []).

Definition captureFullscreen (s : State) : State * list Emit :=
  (s, [EmitFullscreen]).

(** A drag: a pointer-down outside the toolbar, then pointer moves. *)
Definition drag (down : MouseEvent) (moves : list MouseEvent) (s : State) : State :=
  fold_left (fun st e => onMouseMove e st) moves (onMouseDown down s).

(** The position the pointer is at after a drag. *)
Definition lastPos (down : MouseEvent) (moves : list MouseEvent) : Point.t :=
  let e := last moves down in Point.mk (clientX e) (clientY e).

End RegionSelector.

(* ================================================================== *)
(** ** Panel layout ([App.vue], [toolbarPosition]) *)

Module Layout.

Definition TOOLBAR_WIDTH : Z := 580.
Definition TOOLBAR_HEIGHT : Z := 48.
Definition TOOLBAR_GAP : Z := 10.

(** A CSS length as the style object holds it: [`${n}px`] or ['auto']. *)
Inductive CssLength : Type :=
| px (n : Z)
| auto.

Record Position : Type := mkPosition {
  left : CssLength;
  right : CssLength;
  top : CssLength
}.

(** The [top] computed in the first half of [toolbarPosition]. *)
Definition toolbarTop (screenH : Z) (sel : Selection.t) : Z :=
  let bottomSpace := screenH - (Selection.y sel + Selection.height sel) in
  let topSpace := Selection.y sel in
  if TOOLBAR_HEIGHT + TOOLBAR_GAP <=? bottomSpace then
    Selection.y sel + Selection.height sel + TOOLBAR_GAP
  else if TOOLBAR_HEIGHT + TOOLBAR_GAP <=? topSpace then
    Selection.y sel - TOOLBAR_HEIGHT - TOOLBAR_GAP
  else
    Z.max 0 (Z.min (Selection.y sel + Selection.height sel + TOOLBAR_GAP)
                   (screenH - TOOLBAR_HEIGHT)).

Definition toolbarPosition (screenW screenH : Z) (sel : Selection.t) : Position :=
  let top := toolbarTop screenH sel in
  let margin := 8 in
  if screenW - Selection.x sel <? TOOLBAR_WIDTH + margin then
    {| right := px margin; left := auto; top := px top |}
  else
    let left := Selection.x sel in
    let left := if left <? margin then margin else left in
    {| left := px left; right := auto; top := px top |}.

End Layout.

(* ================================================================== *)
(** ** The canvas 2D context as a sequence of calls *)

Inductive FillStyle : Type :=
| CssColor (c : string)            (* a colour string taken from the style *)
| Rgb (r g b : Z).                 (* the template [`rgb(${r},${g},${b})`] *)

Inductive Cmd : Type :=
| SetStrokeStyle (c : string)
| SetFillStyle (f : FillStyle)
| SetLineWidth (w : Z)
| SetFont (sizePx : Z)             (* [`${sizePx}px sans-serif`] *)
| ClearRect (x y w h : Z)
| DrawImage (base64 : string) (dx dy : Z)
| StrokeRect (x y w h : Z)
| FillRect (x y w h : Z)
| FillText (t : string) (x y : Z)
| BeginPath
| MoveTo (x y : R)
| LineTo (x y : R)
| ClosePath
| Stroke
| Fill.

(** [Math.atan2(y, x)] on real numbers. *)
Definition atan2 (y x : R) : R :=
  if Rlt_dec 0 x then atan (y / x)
  else if Rlt_dec x 0 then
    if Rle_dec 0 y then (atan (y / x) + PI)%R else (atan (y / x) - PI)%R
  else if Rlt_dec 0 y then (PI / 2)%R
  else if Rlt_dec y 0 then (- (PI / 2))%R
  else 0%R.

(** Painting code: reads the [Math.random] oracle [rnd] at the number of
    draws made so far, appends calls to the context, and may throw. *)
Definition Paint (A : Type) : Type :=
  (nat -> Q) -> nat -> option (A * list Cmd * nat).

Definition ret {A : Type} (a : A) : Paint A :=
  fun _ k => Some (a, [], k).

Definition bind {A B : Type} (m : Paint A) (f : A -> Paint B) : Paint B :=
  fun rnd k =>
    match m rnd k with
    | Some (a, out1, k1) =>
        match f a rnd k1 with
        | Some (b, out2, k2) => Some (b, out1 ++ out2, k2)
        | None => None
        end
    | None => None
    end.

Definition emit (c : Cmd) : Paint unit := fun _ k => Some (tt, [c], k).
Definition random : Paint Q := fun rnd k => Some (rnd k, [], S k).
Definition throw {A : Type} : Paint A := fun _ _ => None.

Notation "x <- m1 ;; m2" := (bind m1 (fun x => m2))
  (at level 61, m1 at next level, right associativity).
Notation "m1 ;; m2" := (bind m1 (fun _ => m2))
  (at level 61, right associativity).

(** [arr.forEach(body)] *)
Fixpoint forEach {A : Type} (arr : list A) (body : A -> Paint unit) : Paint unit :=
  match arr with
  | [] => ret tt
  | a :: rest => body a ;; forEach rest body
  end.

(** [for (let i = i0; i < bound; i += step) body(i)], cut after [fuel] turns. *)
Fixpoint forStep (fuel : nat) (i bound step : Z) (body : Z -> Paint unit) : Paint unit :=
  match fuel with
  | O => ret tt
  | S fuel' =>
      if i <? bound then body i ;; forStep fuel' (i + step) bound step body
      else ret tt
  end.

(** The calls a painting routine makes, when it does not throw. *)
Definition calls (m : Paint unit) (rnd : nat -> Q) : option (list Cmd) :=
  match m rnd O with
  | Some (_, out, _) => Some out
  | None => None
  end.

(** JavaScript truthiness of an optional string, and [fontSize || 16]. *)
Definition truthy (t : option string) : bool :=
  match t with
  | Some s => negb (String.eqb s "")
  | None => false
  end.

Definition fontSizeOr16 (f : option Z) : Z :=
  match f with
  | Some n => if n =? 0 then 16 else n
  | None => 16
  end.

(** [Math.floor(Math.random() * 100) + 100] for the random number [r]. *)
Definition grayOf (r : Q) : Z := Qfloor (r * 100) + 100.

(* ================================================================== *)
(** ** Annotation renderer ([components/AnnotationEditor.vue]) *)

Module Renderer.

Definition drawArrow (from to : Point.t) : Paint unit :=
  let headLen := 15%R in
  let angle := atan2 (IZR (Point.y to - Point.y from))
                     (IZR (Point.x to - Point.x from)) in
  emit BeginPath ;;
  emit (MoveTo (IZR (Point.x from)) (IZR (Point.y from))) ;;
  emit (LineTo (IZR (Point.x to)) (IZR (Point.y to))) ;;
  emit Stroke ;;
  emit BeginPath ;;
  emit (MoveTo (IZR (Point.x to)) (IZR (Point.y to))) ;;
  emit (LineTo (IZR (Point.x to) - headLen * cos (angle - PI / 6))
               (IZR (Point.y to) - headLen * sin (angle - PI / 6))) ;;
  emit (LineTo (IZR (Point.x to) - headLen * cos (angle + PI / 6))
               (IZR (Point.y to) - headLen * sin (angle + PI / 6))) ;;
  emit ClosePath ;;
  emit Fill.

(** The body of the two nested loops of [drawMosaic]. *)
Definition mosaicBlock (x y blockSize i j : Z) : Paint unit :=
  r <- random ;;
  let gray := grayOf r in
  emit (SetFillStyle (Rgb gray gray gray)) ;;
  emit (FillRect (x + i) (y + j) blockSize blockSize).

Definition drawMosaic (from to : Point.t) : Paint unit :=
  let blockSize := 10 in
  let x := Z.min (Point.x from) (Point.x to) in
  let y := Z.min (Point.y from) (Point.y to) in
  let w := Z.abs (Point.x to - Point.x from) in
  let h := Z.abs (Point.y to - Point.y from) in
  forStep (Z.to_nat w) 0 w blockSize (fun i =>
    forStep (Z.to_nat h) 0 h blockSize (fun j =>
      mosaicBlock x y blockSize i j)).

(** [drawAnnotation], with the context present. *)
Definition drawAnnotation (a : Annotation.t) : Paint unit :=
  emit (SetStrokeStyle (Style.color (Annotation.style a))) ;;
  emit (SetFillStyle (CssColor (Style.color (Annotation.style a)))) ;;
  emit (SetLineWidth (Style.lineWidth (Annotation.style a))) ;;
  match Annotation.type a with
  | rect =>
      match Annotation.points a with
      | p1 :: p2 :: _ =>
          emit (StrokeRect (Point.x p1) (Point.y p1)
                           (Point.x p2 - Point.x p1) (Point.y p2 - Point.y p1))
      | _ => ret tt
      end
  | arrow =>
      match Annotation.points a with
      | p0 :: p1 :: _ => drawArrow p0 p1
      | _ => ret tt
      end
  | text =>
      match Annotation.points a, Annotation.text a with
      | p0 :: _, Some t =>
          if truthy (Some t) then
            emit (SetFont (fontSizeOr16 (Style.fontSize (Annotation.style a)))) ;;
            emit (FillText t (Point.x p0) (Point.y p0))
          else ret tt
      | _, _ => ret tt
      end
  | mosaic =>
      match Annotation.points a with
      | p0 :: p1 :: _ => drawMosaic p0 p1
      | _ => ret tt
      end
  | select => ret tt
  end.

(** [redraw], for a canvas of the given size. *)
Definition redraw (canvasW canvasH : Z) (annotations : list Annotation.t) : Paint unit :=
  emit (ClearRect 0 0 canvasW canvasH) ;;
  forEach annotations drawAnnotation.

End Renderer.

(* ================================================================== *)
(** ** Compositor ([App.vue], the painting part of [confirm]) *)

Module Compositor.

(** The body of [annotations.value.forEach(a => ...)] in [confirm].  The
    chain of [else if] tests the type first, so it is written as a match on
    the type.  The text branch reads [a.points[0].x] without testing the
    length: on no point it throws. *)
Definition paintAnnotation (a : Annotation.t) : Paint unit :=
  emit (SetStrokeStyle (Style.color (Annotation.style a))) ;;
  emit (SetFillStyle (CssColor (Style.color (Annotation.style a)))) ;;
  emit (SetLineWidth (Style.lineWidth (Annotation.style a))) ;;
  match Annotation.type a with
  | rect =>
      match Annotation.points a with
      | p1 :: p2 :: _ =>
          emit (StrokeRect (Point.x p1) (Point.y p1)
                           (Point.x p2 - Point.x p1) (Point.y p2 - Point.y p1))
      | _ => ret tt
      end
  | arrow =>
      match Annotation.points a with
      | from :: to :: _ =>
          let headLen := 15%R in
          let angle := atan2 (IZR (Point.y to - Point.y from))
                             (IZR (Point.x to - Point.x from)) in
          emit BeginPath ;;
          emit (MoveTo (IZR (Point.x from)) (IZR (Point.y from))) ;;
          emit (LineTo (IZR (Point.x to)) (IZR (Point.y to))) ;;
          emit Stroke ;;
          emit BeginPath ;;
          emit (MoveTo (IZR (Point.x to)) (IZR (Point.y to))) ;;
          emit (LineTo (IZR (Point.x to) - headLen * cos (angle - PI / 6))
                       (IZR (Point.y to) - headLen * sin (angle - PI / 6))) ;;
          emit (LineTo (IZR (Point.x to) - headLen * cos (angle + PI / 6))
                       (IZR (Point.y to) - headLen * sin (angle + PI / 6))) ;;
          emit ClosePath ;;
          emit Fill
      | _ => ret tt
      end
  | text =>
      match Annotation.text a with
      | Some t =>
          if truthy (Some t) then
            match Annotation.points a with
            | p0 :: _ =>
                emit (SetFont (fontSizeOr16 (Style.fontSize (Annotation.style a)))) ;;
                emit (FillText t (Point.x p0) (Point.y p0))
            | [] => throw
            end
          else ret tt
      | None => ret tt
      end
  | mosaic =>
      match Annotation.points a with
      | from :: to :: _ =>
          let blockSize := 10 in
          let x := Z.min (Point.x from) (Point.x to) in
          let y := Z.min (Point.y from) (Point.y to) in
          let w := Z.abs (Point.x to - Point.x from) in
          let h := Z.abs (Point.y to - Point.y from) in
          forStep (Z.to_nat w) 0 w blockSize (fun i =>
            forStep (Z.to_nat h) 0 h blockSize (fun j =>
              r <- random ;;
              let gray := grayOf r in
              emit (SetFillStyle (Rgb gray gray gray)) ;;
              emit (FillRect (x + i) (y + j) blockSize blockSize)))
      | _ => ret tt
      end
  | select => ret tt
  end.

(** Everything [confirm] paints on its fresh canvas: the cropped image,
    then the annotations in list order. *)
Definition paint (croppedImage : string) (annotations : list Annotation.t) : Paint unit :=
  emit (DrawImage croppedImage 0 0) ;;
  forEach annotations paintAnnotation.

End Compositor.

(* ================================================================== *)
(** ** Pixels of a canvas

    What the browser does with the calls.  Filling an axis-aligned rectangle
    of whole pixels with an opaque [rgb(...)] colour is modelled exactly;
    every other painting call (image decoding, strokes, path fills, text) is
    left to a rasteriser the development is parametric in. *)

Module Canvas.

Inductive Pixel : Type := RGBA (r g b a : Z).

Definition Raster : Type := Z -> Z -> Pixel.

Inductive PathOp : Type :=
| PMove (x y : R)
| PLine (x y : R)
| PClose.

Record Ctx : Type := mkCtx {
  width : Z;
  height : Z;
  pixels : Raster;
  strokeStyle : string;
  fillStyle : FillStyle;
  lineWidth : Z;
  font : Z;
  path : list PathOp
}.

(** [document.createElement('canvas')] sized [w] by [h], and its context. *)
Definition create (w h : Z) : Ctx :=
  {| width := w; height := h;
     pixels := fun _ _ => RGBA 0 0 0 0;
     strokeStyle := "#000000";
     fillStyle := CssColor "#000000";
     lineWidth := 1;
     font := 10;
     path := [] |}.

Definition clamp255 (v : Z) : Z := Z.max 0 (Z.min 255 v).

Definition inRect (x y w h px py : Z) : bool :=
  (x <=? px) && (px <? x + w) && (y <=? py) && (py <? y + h).

Definition setPixels (ctx : Ctx) (p : Raster) : Ctx :=
  {| width := width ctx; height := height ctx; pixels := p;
     strokeStyle := strokeStyle ctx; fillStyle := fillStyle ctx;
     lineWidth := lineWidth ctx; font := font ctx; path := path ctx |}.

Definition setPath (ctx : Ctx) (p : list PathOp) : Ctx :=
  {| width := width ctx; height := height ctx; pixels := pixels ctx;
     strokeStyle := strokeStyle ctx; fillStyle := fillStyle ctx;
     lineWidth := lineWidth ctx; font := font ctx; path := p |}.

Section Exec.

Variable rasterise : Ctx -> Cmd -> Raster.

Definition exec (ctx : Ctx) (c : Cmd) : Ctx :=
  match c with
  | SetStrokeStyle s =>
      {| width := width ctx; height := height ctx; pixels := pixels ctx;
         strokeStyle := s; fillStyle := fillStyle ctx;
         lineWidth := lineWidth ctx; font := font ctx; path := path ctx |}
  | SetFillStyle f =>
      {| width := width ctx; height := height ctx; pixels := pixels ctx;
         strokeStyle := strokeStyle ctx; fillStyle := f;
         lineWidth := lineWidth ctx; font := font ctx; path := path ctx |}
  | SetLineWidth w =>
      {| width := width ctx; height := height ctx; pixels := pixels ctx;
         strokeStyle := strokeStyle ctx; fillStyle := fillStyle ctx;
         lineWidth := w; font := font ctx; path := path ctx |}
  | SetFont f =>
      {| width := width ctx; height := height ctx; pixels := pixels ctx;
         strokeStyle := strokeStyle ctx; fillStyle := fillStyle ctx;
         lineWidth := lineWidth ctx; font := f; path := path ctx |}
  | BeginPath => setPath ctx []
  | MoveTo x y => setPath ctx (path ctx ++ [PMove x y])
  | LineTo x y => setPath ctx (path ctx ++ [PLine x y])
  | ClosePath => setPath ctx (path ctx ++ [PClose])
  | FillRect x y w h =>
      match fillStyle ctx with
      | Rgb r g b =>
          if (0 <=? w) && (0 <=? h) then
            setPixels ctx (fun px py =>
              if inRect 0 0 (width ctx) (height ctx) px py && inRect x y w h px py
              then RGBA (clamp255 r) (clamp255 g) (clamp255 b) 255
              else pixels ctx px py)
          else setPixels ctx (rasterise ctx c)
      | CssColor _ => setPixels ctx (rasterise ctx c)
      end
  | ClearRect _ _ _ _ | DrawImage _ _ _ | StrokeRect _ _ _ _
  | FillText _ _ _ | Stroke | Fill =>
      setPixels ctx (rasterise ctx c)
  end.

Definition execAll (ctx : Ctx) (cs : list Cmd) : Ctx := fold_left exec cs ctx.

(** The output raster of [confirm]: a canvas of the size of the
    selection, painted by [Compositor.paint]; [None] when painting
    throws and no raster is produced. *)
Definition composite (sel : Selection.t) (croppedImage : string)
    (annotations : list Annotation.t) (rnd : nat -> Q) : option Raster :=
  match calls (Compositor.paint croppedImage annotations) rnd with
  | Some cs =>
      Some (pixels (execAll (create (Selection.width sel) (Selection.height sel)) cs))
  | None => None
  end.

End Exec.

End Canvas.

(* ================================================================== *)
(** ** Annotation editor: pointer and text handlers
       ([components/AnnotationEditor.vue]) *)

Module Editor.

(** What a handler reads from outside the component when it runs: the
    props (the parent may change them between two events), the canvas
    (whether its context exists, its bounding rectangle) and the clock
    ([Date.now().toString()]). *)
Record Env : Type := mkEnv {
  selection : Selection.t;
  annotations : list Annotation.t;
  currentTool : ToolType;
  currentColor : string;
  lineWidth : Z;
  ctxReady : bool;
  rectLeft : Z;
  rectTop : Z;
  now : string
}.

Record State : Type := mkState {
  isDrawing : bool;
  startPoint : Point.t;
  currentPoints : list Point.t;
  textInput : string;
  textPosition : option Point.t
}.

Definition init : State :=
  {| isDrawing := false;
     startPoint := Point.mk 0 0;
     currentPoints := [];
     textInput := "";
     textPosition := None |}.

Definition getPos (env : Env) (clientX clientY : Z) : Point.t :=
  Point.mk (clientX - rectLeft env) (clientY - rectTop env).

Definition onMouseDown (env : Env) (clientX clientY : Z) (s : State) : State :=
  match currentTool env with
  | select => s
  | text =>
      {| isDrawing := isDrawing s; startPoint := startPoint s;
         currentPoints := currentPoints s; textInput := textInput s;
         textPosition := Some (getPos env clientX clientY) |}
  | _ =>
      let start := getPos env clientX clientY in
      {| isDrawing := true; startPoint := start;
         currentPoints := [start]; textInput := textInput s;
         textPosition := textPosition s |}
  end.

(** The state change of [onMouseMove]. *)
Definition onMouseMove (env : Env) (clientX clientY : Z) (s : State) : State :=
  if negb (isDrawing s) || negb (ctxReady env) then s
  else
    let pos := getPos env clientX clientY in
    {| isDrawing := isDrawing s; startPoint := startPoint s;
       currentPoints := [startPoint s; pos]; textInput := textInput s;
       textPosition := textPosition s |}.

(** What [onMouseMove] paints after that state change: the committed
    annotations, then the one being drawn. *)
Definition onMouseMove_paint (env : Env) (clientX clientY : Z) (s : State) : Paint unit :=
  if negb (isDrawing s) || negb (ctxReady env) then ret tt
  else
    let s' := onMouseMove env clientX clientY s in
    Renderer.redraw (Selection.width (selection env)) (Selection.height (selection env))
                    (annotations env) ;;
    Renderer.drawAnnotation
      {| Annotation.id := "temp";
         Annotation.type := currentTool env;
         Annotation.points := currentPoints s';
         Annotation.style := Style.mk (currentColor env) (lineWidth env) None;
         Annotation.text := None |}.

(** Handlers that can emit return the ['add-annotation'] payloads. *)
Definition onMouseUp (env : Env) (s : State) : State * list Annotation.t :=
  if negb (isDrawing s) then (s, [])
  else
    ({| isDrawing := false; startPoint := startPoint s;
        currentPoints := []; textInput := textInput s;
        textPosition := textPosition s |},
     if (2 <=? List.length (currentPoints s))%nat then
       [ {| Annotation.id := now env;
            Annotation.type := currentTool env;
            Annotation.points := currentPoints s;
            Annotation.style := Style.mk (currentColor env) (lineWidth env) None;
            Annotation.text := None |} ]
     else []).

Definition submitText (env : Env) (s : State) : State * list Annotation.t :=
  match textPosition s with
  | Some pos =>
      if negb (String.eqb (textInput s) "") then
        ({| isDrawing := isDrawing s; startPoint := startPoint s;
            currentPoints := currentPoints s; textInput := "";
            textPosition := None |},
         [ {| Annotation.id := now env;
              Annotation.type := text;
              Annotation.points := [pos];
              Annotation.style := Style.mk (currentColor env) (lineWidth env) (Some 16);
              Annotation.text := Some (textInput s) |} ])
      else (s, [])
  | None => (s, [])
  end.

(** The listeners of the template. *)
Inductive Event : Type :=
| MouseDown (clientX clientY : Z)
| MouseMove (clientX clientY : Z)
| MouseUp
| MouseLeave
| Input (value : string)           (* [v-model="textInput"] *)
| KeyupEnter                       (* [@keyup.enter="submitText"] *)
| KeyupEsc.                        (* [@keyup.esc="textPosition = null"] *)

Definition handle (env : Env) (ev : Event) (s : State) : State * list Annotation.t :=
  match ev with
  | MouseDown cx cy => (onMouseDown env cx cy s, [])
  | MouseMove cx cy => (onMouseMove env cx cy s, [])
  | MouseUp | MouseLeave => onMouseUp env s
  | Input v =>
      ({| isDrawing := isDrawing s; startPoint := startPoint s;
          currentPoints := currentPoints s; textInput := v;
          textPosition := textPosition s |}, [])
  | KeyupEnter => submitText env s
  | KeyupEsc =>
      ({| isDrawing := isDrawing s; startPoint := startPoint s;
          currentPoints := currentPoints s; textInput := textInput s;
          textPosition := None |}, [])
  end.

(** A session: events, each with the environment it is handled in; the
    result is the final state and everything emitted, in order. *)
Fixpoint run (tr : list (Env * Event)) (s : State) : State * list Annotation.t :=
  match tr with
  | [] => (s, [])
  | (env, ev) :: rest =>
      let (s1, out1) := handle env ev s in
      let (s2, out2) := run rest s1 in
      (s2, out1 ++ out2)
  end.

(** Every mouse-up or mouse-leave that ends a drawing is handled with a
    tool that [onMouseDown] starts a drawing for (arrow, rect or mosaic)
    current. *)
Fixpoint releasedWithDrawingTool (tr : list (Env * Event)) (s : State) : Prop :=
  match tr with
  | [] => True
  | (env, ev) :: rest =>
      match ev with
      | MouseUp | MouseLeave =>
          isDrawing s = true ->
          currentTool env = arrow \/ currentTool env = rect \/ currentTool env = mosaic
      | _ => True
      end /\
      releasedWithDrawingTool rest (fst (handle env ev s))
  end.

(** The point-count invariant of the data model, for one annotation. *)
Definition wellFormed (a : Annotation.t) : Prop :=
  match Annotation.type a with
  | rect | arrow | mosaic => List.length (Annotation.points a) = 2%nat
  | text =>
      List.length (Annotation.points a) = 1%nat /\
      exists t, Annotation.text a = Some t /\ t <> ""%string
  | select => True
  end.

End Editor.

(* ================================================================== *)
(** ** Sample data used in the examples *)

Definition redStyle : Style.t := Style.mk "#ff0000" 3 None.

Definition annA : Annotation.t :=
  Annotation.mk "1" rect [Point.mk 0 0; Point.mk 30 20] redStyle None.

Definition annB : Annotation.t :=
  Annotation.mk "2" arrow [Point.mk 0 0; Point.mk 100 0] redStyle None.

Definition annText : Annotation.t :=
  Annotation.mk "3" text [Point.mk 5 5] (Style.mk "#ff0000" 3 (Some 16)) (Some "note"%string).

Definition annMosaic : Annotation.t :=
  Annotation.mk "4" mosaic [Point.mk 0 0; Point.mk 10 10] redStyle None.

(** Three [Math.random] oracles: always 0, always 1/2, and 0, 1/10, 2/10,
    ... for the successive draws. *)
Definition rndZero : nat -> Q := fun _ => 0%Q.
Definition rndHalf : nat -> Q := fun _ => (1 # 2)%Q.
Definition rndTenths : nat -> Q := fun n => (Z.of_nat n # 10)%Q.

(** An editor environment with the given tool selected. *)
Definition envOf (tool : ToolType) : Editor.Env :=
  {| Editor.selection := Selection.mk 0 0 200 100;
     Editor.annotations := [];
     Editor.currentTool := tool;
     Editor.currentColor := "#ff0000";
     Editor.lineWidth := 3;
     Editor.ctxReady := true;
     Editor.rectLeft := 0;
     Editor.rectTop := 0;
     Editor.now := "1700000000000" |}.

(** A rectangle is dragged out, then a text is placed and submitted. *)
Definition sessionRectThenText : list (Editor.Env * Editor.Event) :=
  [ (envOf rect, Editor.MouseDown 10 10);
    (envOf rect, Editor.MouseMove 50 40);
    (envOf rect, Editor.MouseUp);
    (envOf text, Editor.MouseDown 5 5);
    (envOf text, Editor.Input "hi");
    (envOf text, Editor.KeyupEnter) ].

(** A rectangle is being dragged out when the parent switches the tool to
    text (a toolbar button activated from the keyboard); then the mouse
    button is released. *)
Definition sessionToolSwitched : list (Editor.Env * Editor.Event) :=
  [ (envOf rect, Editor.MouseDown 10 10);
    (envOf rect, Editor.MouseMove 50 40);
    (envOf text, Editor.MouseUp) ].

(** A rectangle is being dragged out when the parent switches the tool to
    arrow; then the mouse button is released. *)
Definition sessionRectToArrow : list (Editor.Env * Editor.Event) :=
  [ (envOf rect, Editor.MouseDown 10 10);
    (envOf rect, Editor.MouseMove 50 40);
    (envOf arrow, Editor.MouseUp) ].

(** The tools [onMouseDown] starts a drawing for. *)
Definition drawTool (t : ToolType) : Prop := t = arrow \/ t = rect \/ t = mosaic.

(** What the editor state satisfies between two events. *)
Definition editorInv (s : Editor.State) : Prop :=
  (Editor.isDrawing s = false -> Editor.currentPoints s = []) /\
  (Editor.isDrawing s = true ->
     Editor.currentPoints s = [Editor.startPoint s] \/
     exists q, Editor.currentPoints s = [Editor.startPoint s; q]).

(** The state after adding [annA] then [annB] to a fresh history. *)
Definition stateAB : History.State :=
  History.addAnnotation annB (History.addAnnotation annA History.init).

(** The three style assignments both painters start an annotation with. *)
Definition styleCalls (a : Annotation.t) : list Cmd :=
  [ SetStrokeStyle (Style.color (Annotation.style a));
    SetFillStyle (CssColor (Style.color (Annotation.style a)));
    SetLineWidth (Style.lineWidth (Annotation.style a)) ].

(** The arrow of the specification, in its words: the shaft from [p0] to the
    tip [p1], then a filled closed triangle on the tip and the two wings
    [tip - 15 (cos (theta -/+ 30 deg), sin (theta -/+ 30 deg))]. *)
Definition specWing (tip : R * R) (theta delta : R) : R * R :=
  ((fst tip - 15 * cos (theta + delta))%R, (snd tip - 15 * sin (theta + delta))%R).

Definition specArrow (p0 p1 : R * R) : list Cmd :=
  let theta := atan2 (snd p1 - snd p0) (fst p1 - fst p0) in
  let w1 := specWing p1 theta (- (PI / 6)) in
  let w2 := specWing p1 theta (PI / 6) in
  [ BeginPath; MoveTo (fst p0) (snd p0); LineTo (fst p1) (snd p1); Stroke;
    BeginPath; MoveTo (fst p1) (snd p1);
    LineTo (fst w1) (snd w1); LineTo (fst w2) (snd w2); ClosePath; Fill ].

(** A point of the data model as a point of the plane. *)
Definition toR (p : Point.t) : R * R := (IZR (Point.x p), IZR (Point.y p)).

(* ================================================================== *)
(** ** History sessions, and [reset] of [App.vue] *)

(** The number of committed edits ([addAnnotation], [clear]) in a sequence
    of operations. *)
Fixpoint countCommits (ops : list History.Op) : nat :=
  match ops with
  | [] => O
  | History.OpAdd _ :: rest => S (countCommits rest)
  | History.OpClear :: rest => S (countCommits rest)
  | _ :: rest => countCommits rest
  end.

(** [n] times the same operation. *)
Definition repeatOp (o : History.Op) (n : nat) : list History.Op := repeat o n.

(** One [addAnnotation] per element. *)
Definition addAll (l : list Annotation.t) : list History.Op := map History.OpAdd l.

Module App.

Inductive Mode : Type := idle | selecting | editing.

(** The refs of [App.vue] that [reset] and the layout read or write, with
    the state of the [useAnnotation] composable. *)
Record State : Type := mkState {
  mode : Mode;
  selection : Selection.t;
  croppedImage : string;
  ocrResult : string;
  showOcrResult : bool;
  ocrLoading : bool;
  screenshotData : string;
  annotation : History.State
}.

Definition reset (s : State) : State :=
  {| mode := idle;
     selection := selection s;
     croppedImage := "";
     ocrResult := "";
     showOcrResult := false;
     ocrLoading := ocrLoading s;
     screenshotData := "";
     annotation := History.clear (annotation s) |}.

End App.

(** The snapshots a run of [addAnnotation] over [l] leaves: the prefixes of
    [l], shortest first. *)
Definition prefixes (l : list Annotation.t) : list (list Annotation.t) :=
  map (fun n => firstn n l) (seq 0 (S (List.length l))).

(** The history holding the prefixes of [l], looking at the [i]-th. *)
Definition linear (l : list Annotation.t) (i : nat) : History.State :=
  {| History.annotations := firstn i l;
     History.history := prefixes l;
     History.historyIndex := Z.of_nat i |}.

(** An application state around a state of the annotation composable. *)
Definition appWith (h : History.State) : App.State :=
  {| App.mode := App.editing;
     App.selection := Selection.mk 40 30 80 50;
     App.croppedImage := "iVBORw0KGgo=";
     App.ocrResult := "";
     App.showOcrResult := false;
     App.ocrLoading := false;
     App.screenshotData := "iVBORw0KGgo=";
     App.annotation := h |}.

(* ================================================================== *)
(** ** Region selector: the listeners of the template, and sessions *)

Module SelectorSession.

(** [@mousedown], [@mousemove], [@mouseup] and [@keydown] on the root
    element, and the two buttons of the capture toolbar. *)
Inductive Event : Type :=
| MouseDown (e : RegionSelector.MouseEvent)
| MouseMove (e : RegionSelector.MouseEvent)
| MouseUp
| KeyDown (key : string)
| ClickFullscreen
| ClickCancel.

Definition handle (ev : Event) (s : RegionSelector.State)
  : RegionSelector.State * list RegionSelector.Emit :=
  match ev with
  | MouseDown e => (RegionSelector.onMouseDown e s, [])
  | MouseMove e => (RegionSelector.onMouseMove e s, [])
  | MouseUp => RegionSelector.onMouseUp s
  | KeyDown key => RegionSelector.onKeyDown key s
  | ClickFullscreen => RegionSelector.captureFullscreen s
  | ClickCancel => (s, [RegionSelector.EmitCancel])
  end.

Fixpoint run (tr : list Event) (s : RegionSelector.State)
  : RegionSelector.State * list RegionSelector.Emit :=
  match tr with
  | [] => (s, [])
  | ev :: rest =>
      let (s1, out1) := handle ev s in
      let (s2, out2) := run rest s1 in
      (s2, out1 ++ out2)
  end.

(** The pointer of a mouse event is within the [w] by [h] viewport. *)
Definition inside (w h : Z) (ev : Event) : Prop :=
  match ev with
  | MouseDown e | MouseMove e =>
      0 <= RegionSelector.clientX e <= w /\ 0 <= RegionSelector.clientY e <= h
  | _ => True
  end.

(** A mouse-down, if the event is one, is on the capture toolbar. *)
Definition downOnToolbar (ev : Event) : Prop :=
  match ev with
  | MouseDown e => RegionSelector.inCaptureToolbar e = true
  | _ => True
  end.

Definition pointInside (w h : Z) (p : Point.t) : Prop :=
  0 <= Point.x p <= w /\ 0 <= Point.y p <= h.

End SelectorSession.

(** A drag from (120,80) to (40,30), released. *)
Definition sessionDrag : list SelectorSession.Event :=
  [ SelectorSession.MouseDown (RegionSelector.mkMouseEvent 120 80 false);
    SelectorSession.MouseMove (RegionSelector.mkMouseEvent 40 30 false);
    SelectorSession.MouseUp ].

(** A press on the capture toolbar, a move across the screen, a release. *)
Definition sessionToolbarClick : list SelectorSession.Event :=
  [ SelectorSession.MouseDown (RegionSelector.mkMouseEvent 600 700 true);
    SelectorSession.MouseMove (RegionSelector.mkMouseEvent 900 100 false);
    SelectorSession.MouseUp ].

(* ================================================================== *)
(** ** Result panel layout ([App.vue], [ocrPosition]) *)

Module OcrLayout.

Definition OCR_WIDTH : Z := 400.
Definition OCR_HEIGHT : Z := 200.
Definition OCR_GAP : Z := 10.

(** [parseFloat] of a style value: the number of [`${n}px`], [NaN] (here
    [None]) for ['auto']. *)
Definition parseFloat (l : Layout.CssLength) : option Z :=
  match l with
  | Layout.px n => Some n
  | Layout.auto => None
  end.

(** [toolbarTop > sel.y], false when [toolbarTop] is [NaN]. *)
Definition isToolbarBelow (toolbarTop : option Z) (sel : Selection.t) : bool :=
  match toolbarTop with
  | Some t => Selection.y sel <? t
  | None => false
  end.

(** The [top] computed in the first half of [ocrPosition].  In the branch
    taken when [isToolbarBelow] holds, [toolbarTop] is a number. *)
Definition ocrTop (screenW screenH : Z) (sel : Selection.t) : Z :=
  let toolbarTop := parseFloat (Layout.top (Layout.toolbarPosition screenW screenH sel)) in
  let top :=
    match toolbarTop with
    | Some t =>
        if isToolbarBelow toolbarTop sel
        then t + Layout.TOOLBAR_HEIGHT + OCR_GAP
        else Selection.y sel + Selection.height sel + Layout.TOOLBAR_GAP
    | None => Selection.y sel + Selection.height sel + Layout.TOOLBAR_GAP
    end in
  if screenH <? top + OCR_HEIGHT then Z.max 0 (screenH - OCR_HEIGHT) else top.

Definition ocrPosition (screenW screenH : Z) (sel : Selection.t) : Layout.Position :=
  let top := ocrTop screenW screenH sel in
  let margin := 8 in
  if screenW - Selection.x sel <? OCR_WIDTH + margin then
    {| Layout.right := Layout.px margin; Layout.left := Layout.auto;
       Layout.top := Layout.px top |}
  else
    let left := Selection.x sel in
    let left := if left <? margin then margin else left in
    {| Layout.left := Layout.px left; Layout.right := Layout.auto;
       Layout.top := Layout.px top |}.

(** Where the left edge of a panel [panelW] wide ends up in a viewport
    [screenW] wide: at [left] when it is a length, else [panelW] and [right]
    away from the right edge. *)
Definition leftEdge (screenW panelW : Z) (pos : Layout.Position) : option Z :=
  match Layout.left pos, Layout.right pos with
  | Layout.px l, _ => Some l
  | Layout.auto, Layout.px r => Some (screenW - r - panelW)
  | Layout.auto, Layout.auto => None
  end.

(** The selection lies in the viewport. *)
Definition selectionInside (screenW screenH : Z) (sel : Selection.t) : Prop :=
  0 <= Selection.x sel /\ 0 <= Selection.y sel /\
  0 <= Selection.width sel /\ 0 <= Selection.height sel /\
  Selection.x sel + Selection.width sel <= screenW /\
  Selection.y sel + Selection.height sel <= screenH.

End OcrLayout.

(* ================================================================== *)
(** ** The blocks of a mosaic *)

(** The values [i] takes in [for (let i = i0; i < bound; i += step)], cut
    after [fuel] turns like [forStep]. *)
Fixpoint steps (fuel : nat) (i bound step : Z) : list Z :=
  match fuel with
  | O => []
  | S fuel' => if i <? bound then i :: steps fuel' (i + step) bound step else []
  end.

(** One painted block: its gray value and its top-left corner. *)
Record Block : Type := mkBlock { gray : Z; bx : Z; by_ : Z }.

(** The two calls [drawMosaic] makes per block. *)
Definition blockCmds (bs : list Block) : list Cmd :=
  flat_map (fun b => [SetFillStyle (Rgb (gray b) (gray b) (gray b));
                      FillRect (bx b) (by_ b) 10 10]) bs.

(** The blocks of one column ([i] fixed, [j] running), the first one taking
    draw number [k]; and of the whole grid, column after column. *)
Fixpoint colBlocks (rnd : nat -> Q) (k : nat) (x y i : Z) (rows : list Z) : list Block :=
  match rows with
  | [] => []
  | j :: rows' => mkBlock (grayOf (rnd k)) (x + i) (y + j) :: colBlocks rnd (S k) x y i rows'
  end.

Fixpoint gridBlocks (rnd : nat -> Q) (k : nat) (x y : Z) (cols rows : list Z) : list Block :=
  match cols with
  | [] => []
  | i :: cols' =>
      colBlocks rnd k x y i rows ++ gridBlocks rnd (k + List.length rows) x y cols' rows
  end.

(** The blocks of the mosaic dragged from [from] to [to]. *)
Definition mosaicBlocks (rnd : nat -> Q) (from to : Point.t) : list Block :=
  let w := Z.abs (Point.x to - Point.x from) in
  let h := Z.abs (Point.y to - Point.y from) in
  gridBlocks rnd O (Z.min (Point.x from) (Point.x to)) (Z.min (Point.y from) (Point.y to))
             (steps (Z.to_nat w) 0 w 10) (steps (Z.to_nat h) 0 h 10).

(** [ceil (a / 10)] for [a >= 0]. *)
Definition ceil10 (a : Z) : Z := (a + 9) / 10.

(** The pixel is on the canvas of the context. *)
Definition onCanvas (ctx : Canvas.Ctx) (px py : Z) : Prop :=
  0 <= px < Canvas.width ctx /\ 0 <= py < Canvas.height ctx.

(** The block covers the pixel. *)
Definition covers (b : Block) (px py : Z) : Prop :=
  bx b <= px < bx b + 10 /\ by_ b <= py < by_ b + 10.

(** The bounding box of a drag, as [drawMosaic] computes it. *)
Definition boxX (from to : Point.t) : Z := Z.min (Point.x from) (Point.x to).
Definition boxY (from to : Point.t) : Z := Z.min (Point.y from) (Point.y to).
Definition boxW (from to : Point.t) : Z := Z.abs (Point.x to - Point.x from).
Definition boxH (from to : Point.t) : Z := Z.abs (Point.y to - Point.y from).

(** The pixel is in the area the blocks of the mosaic tile: the box, widened
    and heightened to whole blocks. *)
Definition inTiledBox (from to : Point.t) (px py : Z) : Prop :=
  boxX from to <= px < boxX from to + 10 * ceil10 (boxW from to) /\
  boxY from to <= py < boxY from to + 10 * ceil10 (boxH from to).

(** A text annotation with a text to paint and no point to paint it at. *)
Definition textWithoutPoint (a : Annotation.t) : Prop :=
  Annotation.type a = text /\ truthy (Annotation.text a) = true /\
  Annotation.points a = [].

(** The calls of an arrow whose head has the wings [w1] and [w2]. *)
Definition arrowCalls (p0 p1 w1 w2 : R * R) : list Cmd :=
  [ BeginPath; MoveTo (fst p0) (snd p0); LineTo (fst p1) (snd p1); Stroke;
    BeginPath; MoveTo (fst p1) (snd p1);
    LineTo (fst w1) (snd w1); LineTo (fst w2) (snd w2); ClosePath; Fill ].

(* ================================================================== *)
(** ** Shortcut strings ([Settings.vue], [applyGlobalShortcut] of [App.vue])

    A JavaScript string is its sequence of UTF-16 code units. *)

Module Shortcut.

Definition JsString : Type := list N.

(** A literal of the sources (ASCII only). *)
Definition lit (s : string) : JsString :=
  map Ascii.N_of_ascii (list_ascii_of_string s).

Definition jsEqb (a b : JsString) : bool :=
  if list_eq_dec N.eq_dec a b then true else false.

(** The code unit of ['+']. *)
Definition plus : N := 43%N.

(** White space and line terminators, as [String.prototype.trim] strips
    them. *)
Definition isWhiteSpace (c : N) : bool :=
  ((9 <=? c) && (c <=? 13) || (c =? 32) || (c =? 160) || (c =? 5760)
   || (8192 <=? c) && (c <=? 8202) || (c =? 8232) || (c =? 8233)
   || (c =? 8239) || (c =? 8287) || (c =? 12288) || (c =? 65279))%N.

Fixpoint trimStart (s : JsString) : JsString :=
  match s with
  | [] => []
  | c :: rest => if isWhiteSpace c then trimStart rest else s
  end.

Definition trimEnd (s : JsString) : JsString := rev (trimStart (rev s)).

(** [s.trim()] *)
Definition trim (s : JsString) : JsString := trimEnd (trimStart s).

(** [s.split(sep)] for a separator of one code unit. *)
Fixpoint split (sep : N) (s : JsString) : list JsString :=
  match s with
  | [] => [[]]
  | c :: rest =>
      if (c =? sep)%N then [] :: split sep rest
      else match split sep rest with
           | t :: ts => (c :: t) :: ts
           | [] => [[c]]
           end
  end.

(** [parts.join(sep)] *)
Fixpoint join (sep : N) (parts : list JsString) : JsString :=
  match parts with
  | [] => []
  | [t] => t
  | t :: rest => t ++ sep :: join sep rest
  end.

(** [Boolean(s)] for a string: not empty. *)
Definition nonEmpty (s : JsString) : bool :=
  match s with [] => false | _ => true end.

(** The string [applyGlobalShortcut] registers:
    [shortcut.split('+').map(p => p.trim()).filter(Boolean).join('+')]. *)
Definition normalized (shortcut : JsString) : JsString :=
  join plus (filter nonEmpty (map trim (split plus shortcut))).

(** What [onKeyDown] of the settings panel reads of a [KeyboardEvent]. *)
Record KeyboardEvent : Type := mkKeyboardEvent {
  ctrlKey : bool;
  shiftKey : bool;
  altKey : bool;
  metaKey : bool;
  key : JsString
}.

(** The refs of the settings panel. *)
Record State : Type := mkState {
  shortcut : JsString;
  recording : bool;
  keys : list JsString
}.

Definition startRecording (s : State) : State :=
  {| shortcut := shortcut s; recording := true; keys := [] |}.

(** The array [key] that [onKeyDown] builds. *)
Definition chord (toUpperCase : JsString -> JsString) (e : KeyboardEvent)
  : list JsString :=
  (if ctrlKey e then [lit "Ctrl"] else []) ++
  (if shiftKey e then [lit "Shift"] else []) ++
  (if altKey e then [lit "Alt"] else []) ++
  (if metaKey e then [lit "Super"] else []) ++
  (if negb (jsEqb (key e) (lit "Control")) && negb (jsEqb (key e) (lit "Shift"))
      && negb (jsEqb (key e) (lit "Alt")) && negb (jsEqb (key e) (lit "Meta"))
   then [toUpperCase (key e)] else []).

(** [onKeyDown]; [String.prototype.toUpperCase] is a parameter. *)
Definition onKeyDown (toUpperCase : JsString -> JsString) (e : KeyboardEvent)
    (s : State) : State :=
  if negb (recording s) then s
  else
    let key := chord toUpperCase e in
    if (1 <? List.length key)%nat then
      {| shortcut := join plus key; recording := false; keys := keys s |}
    else s.

(** The four modifier tokens. *)
Definition modifiers : list JsString :=
  [lit "Ctrl"; lit "Shift"; lit "Alt"; lit "Super"].

(** A token that [normalized] leaves alone: not empty, without ['+'], and
    without white space at either end. *)
Definition clean (t : JsString) : Prop :=
  t <> [] /\ ~ In plus t /\ trim t = t.

End Shortcut.

(** Upper-casing of ASCII letters, other code units kept: what
    [toUpperCase] does on ASCII strings. *)
Definition asciiUpper (s : Shortcut.JsString) : Shortcut.JsString :=
  map (fun c => if ((97 <=? c) && (c <=? 122))%N then (c - 32)%N else c) s.

(** The modifier tokens [onKeyDown] pushes for an event, in its order. *)
Definition modifierTokens (e : Shortcut.KeyboardEvent) : list Shortcut.JsString :=
  (if Shortcut.ctrlKey e then [Shortcut.lit "Ctrl"] else []) ++
  (if Shortcut.shiftKey e then [Shortcut.lit "Shift"] else []) ++
  (if Shortcut.altKey e then [Shortcut.lit "Alt"] else []) ++
  (if Shortcut.metaKey e then [Shortcut.lit "Super"] else []).

(** The settings panel just after a click on its input: recording. *)
Definition settingsRecording : Shortcut.State :=
  Shortcut.startRecording
    {| Shortcut.shortcut := Shortcut.lit "Ctrl+Shift+A";
       Shortcut.recording := false;
       Shortcut.keys := [] |}.

(** The key [a] pressed while Ctrl and Alt are down. *)
Definition ctrlAltA : Shortcut.KeyboardEvent :=
  Shortcut.mkKeyboardEvent true false true false (Shortcut.lit "a").

(** The key [+] pressed while Ctrl is down. *)
Definition ctrlPlus : Shortcut.KeyboardEvent :=
  Shortcut.mkKeyboardEvent true false false false (Shortcut.lit "+").

(* ================================================================== *)
(** * Properties *)

(** ** Annotation history *)

Section HistoryFacts.

Import History.

Lemma js_length_app_one {A : Type} (l : list A) (a : A) :
  js_length (l ++ [a]) = js_length l + 1.
Proof. unfold js_length. rewrite length_app. simpl. lia. Qed.

Lemma js_index_app_last {A : Type} (l : list A) (a : A) :
  js_index (l ++ [a]) (js_length l) = Some a.
Proof.
  unfold js_index, js_length.
  destruct (Z.ltb_spec (Z.of_nat (List.length l)) 0) as [Hneg | _]; [lia |].
  rewrite Nat2Z.id, nth_error_app2 by lia.
  now rewrite Nat.sub_diag.
Qed.

Lemma js_slice0_length {A : Type} (l : list A) (e : Z) :
  0 <= e <= js_length l -> js_length (js_slice0 l e) = e.
Proof.
  unfold js_slice0, js_length. intros He.
  destruct (Z.ltb_spec e 0) as [Hneg | _]; [lia |].
  rewrite length_firstn. lia.
Qed.

Lemma js_index_slice0 {A : Type} (l : list A) (e i : Z) :
  0 <= i < e -> js_index (js_slice0 l e) i = js_index l i.
Proof.
  unfold js_index, js_slice0. intros Hi.
  destruct (Z.ltb_spec i 0) as [Hneg | _]; [lia |].
  destruct (Z.ltb_spec e 0) as [Hneg | _]; [lia |].
  destruct (Z.le_ge_cases e (Z.of_nat (List.length l))) as [Hle | Hge].
  - rewrite Z.min_l by lia. rewrite nth_error_firstn.
    destruct (Nat.ltb_spec (Z.to_nat i) (Z.to_nat e)); [reflexivity | lia].
  - rewrite Z.min_r by lia. rewrite Nat2Z.id. now rewrite firstn_all.
Qed.

(** Whatever the state, [saveHistory] leaves the index on the last
    snapshot, which is the current list. *)
Lemma saveHistory_last (s : State) :
  historyIndex (saveHistory s) = js_length (history (saveHistory s)) - 1 /\
  0 <= historyIndex (saveHistory s) /\
  js_index (history (saveHistory s)) (historyIndex (saveHistory s))
    = Some (annotations (saveHistory s)).
Proof.
  unfold saveHistory; simpl.
  rewrite js_length_app_one.
  replace (js_length (js_slice0 (history s) (historyIndex s + 1)) + 1 - 1)
    with (js_length (js_slice0 (history s) (historyIndex s + 1))) by lia.
  repeat split.
  - unfold js_length; lia.
  - apply js_index_app_last.
Qed.

Lemma saveHistory_Inv (s : State) : Inv (saveHistory s).
Proof.
  destruct (saveHistory_last s) as (Hidx & Hpos & Hcur).
  unfold Inv. split; [lia | exact Hcur].
Qed.

Lemma js_index_in_range {A : Type} (l : list A) (i : Z) :
  0 <= i < js_length l -> exists a, js_index l i = Some a.
Proof.
  unfold js_index, js_length. intros Hi.
  destruct (Z.ltb_spec i 0) as [Hneg | _]; [lia |].
  destruct (nth_error l (Z.to_nat i)) as [a |] eqn:E; [now exists a |].
  apply nth_error_None in E. lia.
Qed.

Lemma undo_Inv (s : State) :
  Inv s -> exists s', undo s = Some s' /\ Inv s'.
Proof.
  intros [Hrange Hcur]. unfold undo.
  destruct (Z.ltb_spec 0 (historyIndex s)) as [Hpos | Hzero].
  - destruct (js_index_in_range (history s) (historyIndex s - 1)) as [snap E];
      [lia |].
    rewrite E. eexists; split; [reflexivity |].
    unfold Inv; simpl. split; [lia | exact E].
  - exists s. split; [reflexivity | now split].
Qed.

Lemma redo_Inv (s : State) :
  Inv s -> exists s', redo s = Some s' /\ Inv s'.
Proof.
  intros [Hrange Hcur]. unfold redo.
  destruct (Z.ltb_spec (historyIndex s) (js_length (history s) - 1)) as [Hlt | Hge].
  - destruct (js_index_in_range (history s) (historyIndex s + 1)) as [snap E];
      [lia |].
    rewrite E. eexists; split; [reflexivity |].
    unfold Inv; simpl. split; [lia | exact E].
  - exists s. split; [reflexivity | now split].
Qed.

Lemma step_Inv (o : Op) (s : State) :
  Inv s -> exists s', step o s = Some s' /\ Inv s'.
Proof.
  intros HI. destruct o as [a | | |]; simpl.
  - eexists; split; [reflexivity | apply saveHistory_Inv].
  - now apply undo_Inv.
  - now apply redo_Inv.
  - eexists; split; [reflexivity | apply saveHistory_Inv].
Qed.

Lemma run_Inv (ops : list Op) :
  forall s, Inv s -> exists s', run ops s = Some s' /\ Inv s'.
Proof.
  induction ops as [| o rest IH]; intros s HI; simpl.
  - now exists s.
  - destruct (step_Inv o s HI) as (s1 & E1 & HI1).
    rewrite E1. now apply IH.
Qed.

Lemma js_index_app1 {A : Type} (l l' : list A) (i : Z) :
  0 <= i < js_length l -> js_index (l ++ l') i = js_index l i.
Proof.
  unfold js_index, js_length. intros Hi.
  destruct (Z.ltb_spec i 0) as [Hneg | _]; [lia |].
  apply nth_error_app1. lia.
Qed.

(** After [saveHistory] nothing can be redone. *)
Lemma saveHistory_no_redo (s : State) :
  canRedo (saveHistory s) = false /\ redo (saveHistory s) = Some (saveHistory s).
Proof.
  destruct (saveHistory_last s) as (Hidx & _ & _).
  assert (H : (historyIndex (saveHistory s) <? js_length (history (saveHistory s)) - 1)
              = false) by (apply Z.ltb_ge; lia).
  unfold canRedo, redo. now rewrite H.
Qed.

Lemma init_Inv : Inv init.
Proof. unfold Inv, init, js_length, js_index; simpl. split; [lia | reflexivity]. Qed.

End HistoryFacts.

(** C1. Whatever sequence of addAnnotation / undo / redo / clear is applied to
    a fresh history (one empty snapshot, index 0), every operation returns,
    and in the state reached [0 <= historyIndex < history.length], [canUndo]
    holds exactly when [historyIndex > 0], [canRedo] exactly when
    [historyIndex < history.length - 1], and [annotations] is the snapshot
    [history[historyIndex]].  As the sequence is arbitrary this covers the
    state after each of its operations. *)
Theorem C1_history_invariant :
  forall ops : list History.Op,
  exists s : History.State,
    History.run ops History.init = Some s /\
    0 <= History.historyIndex s < js_length (History.history s) /\
    (History.canUndo s = true <-> History.historyIndex s > 0) /\
    (History.canRedo s = true <->
       History.historyIndex s < js_length (History.history s) - 1) /\
    js_index (History.history s) (History.historyIndex s)
      = Some (History.annotations s).
Proof.
  intros ops.
  destruct (run_Inv ops History.init init_Inv) as (s & Hrun & Hrange & Hcur).
  exists s. split; [exact Hrun |]. split; [exact Hrange |].
  unfold History.canUndo, History.canRedo.
  rewrite !Z.ltb_lt. repeat split; try lia; exact Hcur.
Qed.

(** C2. From snapshots [[[], [A]]] at index 1, [undo()] moves the index to 0
    and [addAnnotation(B)] then leaves exactly the snapshots [[[], [B]]] at
    index 1, the branch holding [A] being dropped; and right after any
    [addAnnotation], from any state, [canRedo] is false and [redo()] changes
    nothing. *)
Theorem C2_add_after_undo_discards_redo_branch :
  (forall (A B : Annotation.t) (current : list Annotation.t),
     let s0 := {| History.annotations := current;
                  History.history := [[]; [A]];
                  History.historyIndex := 1 |} in
     exists s1,
       History.undo s0 = Some s1 /\
       History.historyIndex s1 = 0 /\
       History.history (History.addAnnotation B s1) = [[]; [B]] /\
       History.historyIndex (History.addAnnotation B s1) = 1 /\
       History.annotations (History.addAnnotation B s1) = [B]) /\
  (forall (a : Annotation.t) (s : History.State),
     History.canRedo (History.addAnnotation a s) = false /\
     History.redo (History.addAnnotation a s) = Some (History.addAnnotation a s)).
Proof.
  split.
  - intros A B current s0.
    exists {| History.annotations := [];
              History.history := [[]; [A]];
              History.historyIndex := 0 |}.
    repeat split; reflexivity.
  - intros a s. unfold History.addAnnotation. apply saveHistory_no_redo.
Qed.

(** C9. [clear()] can be undone: in a state satisfying the history invariant,
    whatever the current list of annotations is (in particular [{A, B}]),
    [clear()] commits an empty snapshot and empties the list, and [undo()]
    right after it returns and restores exactly the list there was. *)
Theorem C9_clear_then_undo_restores :
  forall s : History.State,
    History.Inv s ->
    History.annotations (History.clear s) = [] /\
    exists s',
      History.undo (History.clear s) = Some s' /\
      History.annotations s' = History.annotations s /\
      History.historyIndex s' = History.historyIndex s.
Proof.
  intros s [Hrange Hcur]. split; [reflexivity |].
  unfold History.clear, History.saveHistory, History.undo; simpl.
  rewrite js_length_app_one, js_slice0_length by lia.
  replace (History.historyIndex s + 1 + 1 - 1) with (History.historyIndex s + 1) by lia.
  destruct (Z.ltb_spec 0 (History.historyIndex s + 1)) as [_ | Hbad]; [| lia].
  replace (History.historyIndex s + 1 - 1) with (History.historyIndex s) by lia.
  rewrite js_index_app1 by (rewrite js_slice0_length; lia).
  rewrite js_index_slice0 by lia.
  rewrite Hcur. eexists; repeat split.
Qed.

Lemma C9_clear_then_undo_restores_witness :
  History.Inv stateAB /\
  History.annotations stateAB = [annA; annB] /\
  History.annotations (History.clear stateAB) = [] /\
  exists s',
    History.undo (History.clear stateAB) = Some s' /\
    History.annotations s' = History.annotations stateAB /\
    History.historyIndex s' = History.historyIndex stateAB.
Proof.
  assert (HI : History.Inv stateAB).
  { split; [vm_compute; split; [discriminate | reflexivity] | reflexivity]. }
  split; [exact HI |].
  split; [reflexivity |].
  exact (C9_clear_then_undo_restores stateAB HI).
Defined.

(** ** Region selector *)

Section SelectorFacts.

Import RegionSelector.

Lemma last_default_irrelevant {A : Type} (l : list A) (a d d' : A) :
  last (a :: l) d = last (a :: l) d'.
Proof.
  revert a. induction l as [| b l IH]; intros a; [reflexivity |].
  change (last (b :: l) d = last (b :: l) d'). apply IH.
Qed.

Lemma last_cons_default {A : Type} (l : list A) (a d : A) :
  last (a :: l) d = last l a.
Proof.
  destruct l as [| b l]; [reflexivity |].
  change (last (b :: l) d = last (b :: l) a). apply last_default_irrelevant.
Qed.

(** Pointer moves during a drag keep the anchor and track the pointer. *)
Lemma moves_while_selecting (moves : list MouseEvent) :
  forall (e0 : MouseEvent) (s : State),
    isSelecting s = true ->
    endPoint s = Point.mk (clientX e0) (clientY e0) ->
    let s' := fold_left (fun st e => onMouseMove e st) moves s in
    isSelecting s' = true /\
    startPoint s' = startPoint s /\
    endPoint s' = Point.mk (clientX (last moves e0)) (clientY (last moves e0)).
Proof.
  induction moves as [| e rest IH]; intros e0 s Hsel Hend; cbn [fold_left].
  - cbv zeta. simpl. auto.
  - assert (Hstep : isSelecting (onMouseMove e s) = true /\
                    startPoint (onMouseMove e s) = startPoint s /\
                    endPoint (onMouseMove e s) = Point.mk (clientX e) (clientY e)).
    { unfold onMouseMove. rewrite Hsel. simpl. auto. }
    destruct Hstep as (H1 & H2 & H3).
    destruct (IH e (onMouseMove e s) H1 H3) as (G1 & G2 & G3).
    rewrite last_cons_default. cbv zeta.
    split; [exact G1 |]. split; [congruence | exact G3].
Qed.

Lemma drag_state (ax ay : Z) (moves : list MouseEvent) (s0 : State) :
  let down := mkMouseEvent ax ay false in
  let s := drag down moves s0 in
  isSelecting s = true /\
  startPoint s = Point.mk ax ay /\
  endPoint s = lastPos down moves.
Proof.
  intros down s. unfold s, drag, lastPos.
  destruct (moves_while_selecting moves down (onMouseDown down s0))
    as (H1 & H2 & H3); try reflexivity.
  repeat split; [exact H1 | rewrite H2; reflexivity | exact H3].
Qed.

End SelectorFacts.

(** C3. During a drag anchored at [(ax, ay)] (a pointer-down outside the
    toolbar followed by any pointer moves, from any state), with the pointer
    now at [cur], the live selection is
    [{x: min(ax, cur.x), y: min(ay, cur.y), width: |cur.x - ax|,
      height: |cur.y - ay|}]; its width and height are not negative and
    [(x, y)] is the top-left corner of the rectangle spanned by anchor and
    pointer.  A drag from (120,80) to (40,30) and the drag from (40,30) to
    (120,80) both give [{x: 40, y: 30, width: 80, height: 50}]. *)
Theorem C3_live_selection_normalised :
  (forall (ax ay : Z) (moves : list RegionSelector.MouseEvent)
          (s0 : RegionSelector.State),
     let down := RegionSelector.mkMouseEvent ax ay false in
     let cur := RegionSelector.lastPos down moves in
     let sel := RegionSelector.selection (RegionSelector.drag down moves s0) in
     sel = {| Selection.x := Z.min ax (Point.x cur);
              Selection.y := Z.min ay (Point.y cur);
              Selection.width := Z.abs (Point.x cur - ax);
              Selection.height := Z.abs (Point.y cur - ay) |} /\
     0 <= Selection.width sel /\
     0 <= Selection.height sel /\
     Selection.x sel <= ax /\ Selection.x sel <= Point.x cur /\
     Selection.y sel <= ay /\ Selection.y sel <= Point.y cur /\
     Selection.x sel + Selection.width sel = Z.max ax (Point.x cur) /\
     Selection.y sel + Selection.height sel = Z.max ay (Point.y cur)) /\
  (forall (s0 : RegionSelector.State) (b1 b2 : bool),
     RegionSelector.selection
       (RegionSelector.drag (RegionSelector.mkMouseEvent 120 80 false)
                            [RegionSelector.mkMouseEvent 40 30 b1] s0)
     = Selection.mk 40 30 80 50 /\
     RegionSelector.selection
       (RegionSelector.drag (RegionSelector.mkMouseEvent 40 30 false)
                            [RegionSelector.mkMouseEvent 120 80 b2] s0)
     = Selection.mk 40 30 80 50).
Proof.
  split.
  - intros ax ay moves s0 down cur sel.
    destruct (drag_state ax ay moves s0) as (_ & Hstart & Hend).
    assert (Hsel : sel = {| Selection.x := Z.min ax (Point.x cur);
                            Selection.y := Z.min ay (Point.y cur);
                            Selection.width := Z.abs (Point.x cur - ax);
                            Selection.height := Z.abs (Point.y cur - ay) |}).
    { unfold sel, cur, down, RegionSelector.selection.
      rewrite Hstart, Hend. reflexivity. }
    split; [exact Hsel |].
    rewrite Hsel; simpl. lia.
  - intros s0 b1 b2. split; reflexivity.
Qed.

(** C4. A pointer-up that ends a drag emits the selection exactly when its
    width is above 10 and its height is above 10, emits nothing otherwise,
    and leaves the selector not selecting either way.  A drag of width 10
    and height 10 emits nothing; one of width 11 and height 11 emits its
    selection. *)
Theorem C4_pointer_up_threshold :
  (forall (ax ay : Z) (moves : list RegionSelector.MouseEvent)
          (s0 : RegionSelector.State),
     let s := RegionSelector.drag (RegionSelector.mkMouseEvent ax ay false) moves s0 in
     let sel := RegionSelector.selection s in
     ((exists e, In e (snd (RegionSelector.onMouseUp s))) <->
        (Selection.width sel > 10 /\ Selection.height sel > 10)) /\
     (Selection.width sel > 10 /\ Selection.height sel > 10 ->
        snd (RegionSelector.onMouseUp s) = [RegionSelector.EmitSelect sel]) /\
     RegionSelector.isSelecting (fst (RegionSelector.onMouseUp s)) = false) /\
  (forall (ax ay : Z) (s0 : RegionSelector.State) (b : bool),
     let down := RegionSelector.mkMouseEvent ax ay false in
     snd (RegionSelector.onMouseUp
            (RegionSelector.drag down
               [RegionSelector.mkMouseEvent (ax + 10) (ay + 10) b] s0)) = [] /\
     snd (RegionSelector.onMouseUp
            (RegionSelector.drag down
               [RegionSelector.mkMouseEvent (ax + 11) (ay + 11) b] s0))
     = [RegionSelector.EmitSelect (Selection.mk ax ay 11 11)]).
Proof.
  split.
  - intros ax ay moves s0 s sel.
    destruct (drag_state ax ay moves s0) as (Hsel & _ & _). fold s in Hsel.
    unfold RegionSelector.onMouseUp; cbn [fst snd RegionSelector.isSelecting].
    rewrite Hsel; cbn [andb].
    unfold RegionSelector.hasSelection. fold sel.
    destruct (Z.ltb_spec 10 (Selection.width sel)) as [Hw | Hw];
      destruct (Z.ltb_spec 10 (Selection.height sel)) as [Hh | Hh]; cbn [andb].
    + split; [split; [intros _; lia | intros _; eexists; left; reflexivity] |].
      split; [intros _ |]; reflexivity.
    + split; [split; [intros [e []] | intros H; lia] |].
      split; [intros H; lia | reflexivity].
    + split; [split; [intros [e []] | intros H; lia] |].
      split; [intros H; lia | reflexivity].
    + split; [split; [intros [e []] | intros H; lia] |].
      split; [intros H; lia | reflexivity].
  - intros ax ay s0 b down.
    unfold RegionSelector.onMouseUp, RegionSelector.hasSelection,
      RegionSelector.selection, RegionSelector.drag, RegionSelector.onMouseMove,
      RegionSelector.onMouseDown; simpl.
    replace (ax + 10 - ax) with 10 by lia. replace (ay + 10 - ay) with 10 by lia.
    replace (ax + 11 - ax) with 11 by lia. replace (ay + 11 - ay) with 11 by lia.
    simpl. split; [reflexivity |].
    rewrite !Z.min_l by lia. reflexivity.
Qed.

(** ** Panel layout *)

(** C7. For every viewport and selection, with [H_t = 48], [gap = 10],
    [W_t = 580] and [margin = 8]: the tool panel is below the selection when
    [screenH - (sel.y + sel.height) >= H_t + gap]; else above it when
    [sel.y >= H_t + gap]; else at
    [max(0, min(sel.y + sel.height + gap, screenH - H_t))].  It is anchored
    [margin] from the right screen edge when [screenW - sel.x < W_t + margin]
    and has [left = max(margin, sel.x)] otherwise.  With [screenW = 1280]
    and [sel.x = 950], [330 < 588] and the panel is right-anchored. *)
Theorem C7_toolbar_position :
  (forall (screenW screenH : Z) (sel : Selection.t),
     let H_t := Layout.TOOLBAR_HEIGHT in
     let W_t := Layout.TOOLBAR_WIDTH in
     let gap := Layout.TOOLBAR_GAP in
     let margin := 8 in
     let bottom := Selection.y sel + Selection.height sel in
     let pos := Layout.toolbarPosition screenW screenH sel in
     H_t = 48 /\ W_t = 580 /\ gap = 10 /\
     (screenH - bottom >= H_t + gap -> Layout.top pos = Layout.px (bottom + gap)) /\
     (screenH - bottom < H_t + gap -> Selection.y sel >= H_t + gap ->
        Layout.top pos = Layout.px (Selection.y sel - H_t - gap)) /\
     (screenH - bottom < H_t + gap -> Selection.y sel < H_t + gap ->
        Layout.top pos = Layout.px (Z.max 0 (Z.min (bottom + gap) (screenH - H_t)))) /\
     (screenW - Selection.x sel < W_t + margin ->
        Layout.right pos = Layout.px margin /\ Layout.left pos = Layout.auto) /\
     (screenW - Selection.x sel >= W_t + margin ->
        Layout.left pos = Layout.px (Z.max margin (Selection.x sel)) /\
        Layout.right pos = Layout.auto)) /\
  (forall (screenH : Z) (sy sw sh : Z),
     let pos := Layout.toolbarPosition 1280 screenH (Selection.mk 950 sy sw sh) in
     1280 - 950 = 330 /\ Layout.TOOLBAR_WIDTH + 8 = 588 /\
     Layout.right pos = Layout.px 8 /\ Layout.left pos = Layout.auto).
Proof.
  split.
  - intros screenW screenH sel H_t W_t gap margin bottom pos.
    unfold pos, Layout.toolbarPosition, Layout.toolbarTop.
    subst H_t W_t gap margin bottom.
    unfold Layout.TOOLBAR_HEIGHT, Layout.TOOLBAR_WIDTH, Layout.TOOLBAR_GAP.
    destruct (Z.ltb_spec (screenW - Selection.x sel) (580 + 8)) as [Hx | Hx];
      destruct (Z.leb_spec (48 + 10)
                  (screenH - (Selection.y sel + Selection.height sel))) as [Hb | Hb];
      destruct (Z.leb_spec (48 + 10) (Selection.y sel)) as [Ht | Ht];
      destruct (Z.ltb_spec (Selection.x sel) 8) as [Hm | Hm];
      simpl; repeat split; intros; try lia; try reflexivity;
      try (f_equal; lia).
  - intros screenH sy sw sh pos. repeat split.
Qed.

(** C8, as claimed: with viewport height 600, [sel.y = 590] and
    [sel.height = 5] the panel top would be 552.  It is not: there are
    [590 >= 48 + 10] units above the selection, so the second branch of
    [toolbarPosition] applies and the clamp is never reached. *)
Lemma C8_claimed_top_refuted :
  Layout.top (Layout.toolbarPosition 1280 600 (Selection.mk 100 590 50 5))
  <> Layout.px 552.
Proof. vm_compute. discriminate. Qed.

(** C8, amended.  For viewport height 600 and the selection with
    [sel.y = 590] and [sel.height = 5] (any viewport width, [sel.x] and
    [sel.width]) the tool panel of height 48 goes above the selection:
    [top = 590 - 48 - 10 = 532], because only 5 units are left below it and
    590 are available above.  The clamp is reached where neither side has
    58 units, as for [sel.y = 50], [sel.height = 545], where
    [top = max(0, min(605, 600 - 48)) = 552]. *)
Theorem C8_top_with_room_above :
  forall (screenW sx sw : Z),
    Layout.top (Layout.toolbarPosition screenW 600 (Selection.mk sx 590 sw 5))
      = Layout.px (590 - Layout.TOOLBAR_HEIGHT - Layout.TOOLBAR_GAP) /\
    590 - Layout.TOOLBAR_HEIGHT - Layout.TOOLBAR_GAP = 532 /\
    Layout.top (Layout.toolbarPosition screenW 600 (Selection.mk sx 50 sw 545))
      = Layout.px (Z.max 0 (Z.min (50 + 545 + Layout.TOOLBAR_GAP)
                                  (600 - Layout.TOOLBAR_HEIGHT))) /\
    Z.max 0 (Z.min (50 + 545 + Layout.TOOLBAR_GAP) (600 - Layout.TOOLBAR_HEIGHT)) = 552.
Proof.
  intros screenW sx sw.
  unfold Layout.toolbarPosition.
  destruct (screenW - Selection.x (Selection.mk sx 590 sw 5)
            <? Layout.TOOLBAR_WIDTH + 8);
    destruct (screenW - Selection.x (Selection.mk sx 50 sw 545)
              <? Layout.TOOLBAR_WIDTH + 8);
    repeat split.
Qed.

(** ** Arrow rendering *)

Section ArrowFacts.

Local Open Scope R_scope.

Lemma atan2_pos_x (y x : R) : 0 < x -> atan2 y x = atan (y / x).
Proof.
  intros Hx. unfold atan2.
  destruct (Rlt_dec 0 x) as [_ | Hn]; [reflexivity | contradiction].
Qed.

(** [atan2] on the four half-axes and at the origin. *)
Lemma atan2_axes (t : R) :
  0 < t ->
  atan2 0 t = 0 /\ atan2 t 0 = PI / 2 /\
  atan2 0 (- t) = PI /\ atan2 (- t) 0 = - (PI / 2) /\ atan2 0 0 = 0.
Proof.
  intros Ht. unfold atan2.
  repeat match goal with
         | |- context [Rlt_dec ?a ?b] => destruct (Rlt_dec a b); try lra
         | |- context [Rle_dec ?a ?b] => destruct (Rle_dec a b); try lra
         end.
  replace (0 / t) with 0 by (field; lra).
  replace (0 / - t) with 0 by (field; lra).
  rewrite atan_0. repeat split; lra.
Qed.

Lemma sqrt3_bounds : 1.732 < sqrt 3 < 1.7321.
Proof.
  split.
  - rewrite <- (sqrt_square 1.732) by lra. apply sqrt_lt_1; lra.
  - rewrite <- (sqrt_square 1.7321) by lra. apply sqrt_lt_1; lra.
Qed.

(** Every wing lies at distance 15 from the tip. *)
Lemma specWing_distance (tip : R * R) (theta delta : R) :
  let w := specWing tip theta delta in
  (fst w - fst tip) ^ 2 + (snd w - snd tip) ^ 2 = 15 ^ 2.
Proof.
  unfold specWing; simpl.
  pose proof (sin2_cos2 (theta + delta)) as H. unfold Rsqr in H.
  nra.
Qed.

Lemma specArrow_horizontal :
  specArrow (0, 0) (100, 0)
  = [ BeginPath; MoveTo 0 0; LineTo 100 0; Stroke;
      BeginPath; MoveTo 100 0;
      LineTo (100 - 15 * (sqrt 3 / 2)) 7.5;
      LineTo (100 - 15 * (sqrt 3 / 2)) (- 7.5);
      ClosePath; Fill ].
Proof.
  unfold specArrow, specWing; simpl.
  replace (0 - 0) with 0 by lra. replace (100 - 0) with 100 by lra.
  destruct (atan2_axes 100) as (H0 & _); [lra |]. rewrite H0.
  rewrite !Rplus_0_l, cos_neg, sin_neg, cos_PI6, sin_PI6.
  repeat f_equal; lra.
Qed.

End ArrowFacts.

(** C5. For every arrow from [p0] to [p1], with
    [theta = atan2(p1.y - p0.y, p1.x - p0.x)], [drawArrow] strokes the shaft
    and then fills a closed triangle whose tip is [p1] and whose wings are
    [p1 - 15 (cos (theta - pi/6), sin (theta - pi/6))] and
    [p1 - 15 (cos (theta + pi/6), sin (theta + pi/6))], both at distance 15
    from the tip; [drawAnnotation] and the compositor's loop in [confirm]
    make these same calls for an arrow annotation.  For the horizontal arrow
    (0,0) -> (100,0) the wings are [(100 - 15 cos (pi/6), 7.5)] and
    [(100 - 15 cos (pi/6), -7.5)], with [100 - 15 cos (pi/6)] within 0.001
    of 87.01. *)
Theorem C5_arrow_head_geometry :
  (forall (p0 p1 : Point.t) (rnd : nat -> Q),
     calls (Renderer.drawArrow p0 p1) rnd = Some (specArrow (toR p0) (toR p1)) /\
     (forall (a : Annotation.t) (rest : list Point.t),
        Annotation.type a = arrow ->
        Annotation.points a = p0 :: p1 :: rest ->
        calls (Renderer.drawAnnotation a) rnd
          = Some (styleCalls a ++ specArrow (toR p0) (toR p1)) /\
        calls (Compositor.paintAnnotation a) rnd
          = Some (styleCalls a ++ specArrow (toR p0) (toR p1))) /\
     (forall delta : R,
        let theta := atan2 (IZR (Point.y p1) - IZR (Point.y p0))
                           (IZR (Point.x p1) - IZR (Point.x p0)) in
        let w := specWing (toR p1) theta delta in
        ((fst w - IZR (Point.x p1)) ^ 2 + (snd w - IZR (Point.y p1)) ^ 2
         = 15 ^ 2)%R)) /\
  (forall rnd : nat -> Q,
     calls (Renderer.drawArrow (Point.mk 0 0) (Point.mk 100 0)) rnd
     = Some [ BeginPath; MoveTo 0 0; LineTo 100 0; Stroke;
              BeginPath; MoveTo 100 0;
              LineTo (100 - 15 * cos (PI / 6)) 7.5;
              LineTo (100 - 15 * cos (PI / 6)) (- 7.5);
              ClosePath; Fill ]) /\
  (87.009 < 100 - 15 * cos (PI / 6) < 87.011)%R.
Proof.
  assert (Hdraw : forall p0 p1 rnd,
             calls (Renderer.drawArrow p0 p1) rnd = Some (specArrow (toR p0) (toR p1))).
  { intros p0 p1 rnd.
    unfold specArrow, specWing, toR, Renderer.drawArrow; simpl.
    rewrite !minus_IZR. reflexivity. }
  split; [| split].
  - intros p0 p1 rnd. split; [apply Hdraw |]. split.
    + intros a rest Hty Hpts.
      unfold Renderer.drawAnnotation, Compositor.paintAnnotation.
      rewrite Hty, Hpts.
      unfold styleCalls, specArrow, specWing, toR, Renderer.drawArrow; simpl.
      rewrite !minus_IZR. split; reflexivity.
    + intros delta theta w. apply (specWing_distance (toR p1) theta delta).
  - intros rnd. rewrite Hdraw.
    change (toR (Point.mk 0 0)) with (0%R, 0%R).
    change (toR (Point.mk 100 0)) with (100%R, 0%R).
    rewrite specArrow_horizontal, cos_PI6. reflexivity.
  - rewrite cos_PI6. pose proof sqrt3_bounds. lra.
Qed.

(** ** Painting: loops, randomness, determinism *)

Section PaintFacts.

(** The loop ends by its own test once the cut allows [bound - i] turns:
    more fuel changes nothing.  [drawMosaic] gives its loops that much. *)
Lemma forStep_fuel (body : Z -> Paint unit) (bound step : Z) :
  0 < step ->
  forall (f1 f2 : nat) (i : Z) (rnd : nat -> Q) (k : nat),
    (Z.to_nat (bound - i) <= f1)%nat ->
    (Z.to_nat (bound - i) <= f2)%nat ->
    forStep f1 i bound step body rnd k = forStep f2 i bound step body rnd k.
Proof.
  intros Hstep. induction f1 as [| f1 IH]; intros f2 i rnd k H1 H2.
  - destruct f2 as [| f2]; [reflexivity |]. simpl.
    destruct (Z.ltb_spec i bound) as [Hlt | _]; [lia | reflexivity].
  - simpl. destruct (Z.ltb_spec i bound) as [Hlt | Hge].
    + destruct f2 as [| f2]; [lia |]. simpl.
      destruct (Z.ltb_spec i bound) as [_ | Hbad]; [| lia].
      unfold bind. destruct (body i rnd k) as [[[u out] k1] |]; [| reflexivity].
      rewrite (IH f2 (i + step) rnd k1) by lia. reflexivity.
    + destruct f2 as [| f2]; [reflexivity |]. simpl.
      destruct (Z.ltb_spec i bound) as [Hbad | _]; [lia | reflexivity].
Qed.

(** The editor's painter and the compositor's loop body agree, except on a
    text annotation without a point, which only the latter trips over. *)
Lemma painters_agree (a : Annotation.t) :
  (Annotation.type a = text -> Annotation.points a <> []) ->
  forall rnd k, Renderer.drawAnnotation a rnd k = Compositor.paintAnnotation a rnd k.
Proof.
  intros Hpts rnd k.
  unfold Renderer.drawAnnotation, Compositor.paintAnnotation.
  destruct (Annotation.type a) eqn:Ety; try reflexivity.
  destruct (Annotation.points a) as [| p0 ps]; [now elim Hpts |].
  destruct (Annotation.text a) as [t |]; reflexivity.
Qed.

(** A gray value is [100 + floor (100 r)]: within [100, 200) for [r] in
    [0, 1). *)
Lemma grayOf_range (r : Q) : (0 <= r)%Q -> (r < 1)%Q -> 100 <= grayOf r < 200.
Proof.
  intros H0 H1. unfold grayOf.
  assert (Hlo : 0 <= Qfloor (r * 100)).
  { rewrite <- (Qfloor_Z 0). apply Qfloor_resp_le.
    change (inject_Z 0) with 0%Q. apply Qmult_le_0_compat; [exact H0 | discriminate]. }
  assert (Hhi : Qfloor (r * 100) < 100).
  { rewrite Zlt_Qlt. apply Qle_lt_trans with (r * 100)%Q; [apply Qfloor_le |].
    change (inject_Z 100) with (1 * 100)%Q.
    apply Qmult_lt_compat_r; [reflexivity | exact H1]. }
  lia.
Qed.

(** Painting an annotation that is not a mosaic never reads the oracle:
    it throws in both runs or makes the same calls in both. *)
Lemma paintAnnotation_oracle_free (a : Annotation.t) :
  Annotation.type a <> mosaic ->
  forall rnd1 rnd2 k1 k2,
    (Compositor.paintAnnotation a rnd1 k1 = None /\
     Compositor.paintAnnotation a rnd2 k2 = None) \/
    (exists out,
       Compositor.paintAnnotation a rnd1 k1 = Some (tt, out, k1) /\
       Compositor.paintAnnotation a rnd2 k2 = Some (tt, out, k2)).
Proof.
  intros Hty rnd1 rnd2 k1 k2. unfold Compositor.paintAnnotation.
  destruct (Annotation.type a); try congruence.
  - right. eexists; split; reflexivity.
  - destruct (Annotation.points a) as [| p0 [| p1 ps]];
      right; eexists; split; reflexivity.
  - destruct (Annotation.points a) as [| p0 [| p1 ps]];
      right; eexists; split; reflexivity.
  - destruct (Annotation.text a) as [t |]; [| right; eexists; split; reflexivity].
    destruct (truthy (Some t)); [| right; eexists; split; reflexivity].
    destruct (Annotation.points a) as [| p0 ps].
    + left. split; reflexivity.
    + right. eexists; split; reflexivity.
Qed.

Lemma forEach_oracle_free (anns : list Annotation.t) :
  (forall a, In a anns -> Annotation.type a <> mosaic) ->
  forall rnd1 rnd2 k1 k2,
    (forEach anns Compositor.paintAnnotation rnd1 k1 = None /\
     forEach anns Compositor.paintAnnotation rnd2 k2 = None) \/
    (exists out,
       forEach anns Compositor.paintAnnotation rnd1 k1 = Some (tt, out, k1) /\
       forEach anns Compositor.paintAnnotation rnd2 k2 = Some (tt, out, k2)).
Proof.
  induction anns as [| a rest IH]; intros Hall rnd1 rnd2 k1 k2.
  - right. exists []. split; reflexivity.
  - cbn [forEach]. unfold bind.
    destruct (paintAnnotation_oracle_free a (Hall a (or_introl eq_refl))
                rnd1 rnd2 k1 k2) as [[E1 E2] | (out & E1 & E2)];
      rewrite E1, E2; [left; split; reflexivity |].
    destruct (IH (fun b Hb => Hall b (or_intror Hb)) rnd1 rnd2 k1 k2)
      as [[F1 F2] | (out' & F1 & F2)]; rewrite F1, F2.
    + left; split; reflexivity.
    + right. exists (out ++ out'). split; reflexivity.
Qed.

Lemma paint_oracle_free (img : string) (anns : list Annotation.t) :
  (forall a, In a anns -> Annotation.type a <> mosaic) ->
  forall rnd1 rnd2,
    calls (Compositor.paint img anns) rnd1 = calls (Compositor.paint img anns) rnd2.
Proof.
  intros Hall rnd1 rnd2. unfold calls, Compositor.paint, bind, emit.
  destruct (forEach_oracle_free anns Hall rnd1 rnd2 O O)
    as [[F1 F2] | (out & F1 & F2)]; rewrite F1, F2; reflexivity.
Qed.

End PaintFacts.

(** C6. Compositing a base raster with a list of annotations none of which
    is a mosaic does not depend on [Math.random]: whatever the two runs
    draw, and whatever the browser's rasteriser, both runs produce the same
    raster (or both throw).  With a mosaic in the list this fails: every
    block takes a gray value [floor (100 r) + 100], in [100, 200) for the
    number [r] in [0, 1) drawn for that block, and two runs over the same
    base and the same list [[rect, arrow, text, mosaic]] that draw 0 and
    1/2 differ at pixel (0, 0), gray 100 against gray 150.  Each block has
    a draw of its own: over the box of (5,5) and (30,-10), six blocks, the
    draws 0, 1/10, ..., 5/10 give the grays 100, 110, ..., 150, column by
    column. *)
Theorem C6_composite_determinism :
  (forall (rasterise : Canvas.Ctx -> Cmd -> Canvas.Raster) (sel : Selection.t)
          (croppedImage : string) (annotations : list Annotation.t)
          (rnd1 rnd2 : nat -> Q),
     (forall a, In a annotations -> Annotation.type a <> mosaic) ->
     Canvas.composite rasterise sel croppedImage annotations rnd1
     = Canvas.composite rasterise sel croppedImage annotations rnd2) /\
  (forall r : Q, (0 <= r)%Q -> (r < 1)%Q -> 100 <= grayOf r < 200) /\
  (forall (rasterise : Canvas.Ctx -> Cmd -> Canvas.Raster) (croppedImage : string),
     let sel := Selection.mk 0 0 20 20 in
     let annotations := [annA; annB; annText; annMosaic] in
     exists out1 out2,
       Canvas.composite rasterise sel croppedImage annotations rndZero = Some out1 /\
       Canvas.composite rasterise sel croppedImage annotations rndHalf = Some out2 /\
       out1 0 0 = Canvas.RGBA 100 100 100 255 /\
       out2 0 0 = Canvas.RGBA 150 150 150 255 /\
       out1 <> out2) /\
  calls (Renderer.drawMosaic (Point.mk 5 5) (Point.mk 30 (-10))) rndTenths
  = Some [ SetFillStyle (Rgb 100 100 100); FillRect 5 (-10) 10 10;
           SetFillStyle (Rgb 110 110 110); FillRect 5 0 10 10;
           SetFillStyle (Rgb 120 120 120); FillRect 15 (-10) 10 10;
           SetFillStyle (Rgb 130 130 130); FillRect 15 0 10 10;
           SetFillStyle (Rgb 140 140 140); FillRect 25 (-10) 10 10;
           SetFillStyle (Rgb 150 150 150); FillRect 25 0 10 10 ].
Proof.
  split; [| split; [| split]]; [| | | reflexivity].
  - intros rasterise sel img anns rnd1 rnd2 Hall.
    unfold Canvas.composite.
    now rewrite (paint_oracle_free img anns Hall rnd1 rnd2).
  - exact grayOf_range.
  - intros rasterise img sel anns.
    eexists; eexists.
    split; [reflexivity |]. split; [reflexivity |].
    assert (P0 : forall p0 p1 : Canvas.Pixel, p0 <> p1 ->
                 forall out1 out2 : Canvas.Raster,
                   out1 0 0 = p0 -> out2 0 0 = p1 -> out1 <> out2).
    { intros p0 p1 Hne out1 out2 H1 H2 Heq. subst out2. congruence. }
    split; [reflexivity |]. split; [reflexivity |].
    eapply P0; [| reflexivity | reflexivity]. discriminate.
Qed.

(** ** Annotation editor *)

Section EditorFacts.

Import Editor.

Lemma run_cons (env : Env) (ev : Event) (rest : list (Env * Event)) (s : State) :
  run ((env, ev) :: rest) s
  = (fst (run rest (fst (handle env ev s))),
     snd (handle env ev s) ++ snd (run rest (fst (handle env ev s)))).
Proof.
  cbn [run]. destruct (handle env ev s) as [s1 out1]; cbn [fst snd].
  destruct (run rest s1) as [s2 out2]; reflexivity.
Qed.

Lemma init_editorInv : editorInv init.
Proof. split; [reflexivity | discriminate]. Qed.

(** Whatever the environments, the state keeps its shape and an emitted
    annotation is either a pair of points without text, or a text on one
    point. *)
Lemma handle_shape (env : Env) (ev : Event) (s : State) :
  editorInv s ->
  editorInv (fst (handle env ev s)) /\
  forall a, In a (snd (handle env ev s)) ->
    (Annotation.type a = currentTool env /\ isDrawing s = true /\
     (exists q, Annotation.points a = [startPoint s; q]) /\
     Annotation.text a = None) \/
    (Annotation.type a = text /\
     (exists p, Annotation.points a = [p]) /\
     exists t, Annotation.text a = Some t /\ t <> ""%string).
Proof.
  intros HI. pose proof HI as [Hidle Hdraw].
  destruct ev as [cx cy | cx cy | | | v | |]; cbn [handle fst snd].
  - split; [| intros a []].
    unfold onMouseDown. destruct (currentTool env); try exact HI;
      split; cbn; intros; try discriminate; auto.
  - split; [| intros a []].
    unfold onMouseMove.
    destruct (isDrawing s) eqn:Ed; cbn [negb orb];
      [destruct (ctxReady env); cbn [negb] |]; try exact HI.
    split; cbn; intros; [congruence | right; eexists; reflexivity].
  - unfold onMouseUp. destruct (isDrawing s) eqn:Ed; cbn [negb fst snd].
    + split; [split; cbn; intros; [reflexivity | discriminate] |].
      intros a Ha. left.
      destruct (Hdraw eq_refl) as [E | [q E]]; rewrite E in Ha; cbn in Ha.
      * destruct Ha.
      * destruct Ha as [<- | []]; cbn. eauto 6.
    + split; [exact HI | intros a []].
  - unfold onMouseUp. destruct (isDrawing s) eqn:Ed; cbn [negb fst snd].
    + split; [split; cbn; intros; [reflexivity | discriminate] |].
      intros a Ha. left.
      destruct (Hdraw eq_refl) as [E | [q E]]; rewrite E in Ha; cbn in Ha.
      * destruct Ha.
      * destruct Ha as [<- | []]; cbn. eauto 6.
    + split; [exact HI | intros a []].
  - split; [exact HI | intros a []].
  - unfold submitText. destruct (textPosition s) as [pos |];
      [| split; [exact HI | intros a []]].
    destruct (String.eqb_spec (textInput s) "") as [Eempty | Hne]; cbn [negb fst snd].
    + split; [exact HI | intros a []].
    + split; [exact HI |].
      intros a [<- | []]. right; cbn. eauto 6.
  - split; [exact HI | intros a []].
Qed.

(** One event handled with a drawing tool current if it ends a drawing:
    what it emits is well formed. *)
Lemma handle_released (env : Env) (ev : Event) (s : State) :
  editorInv s ->
  match ev with
  | MouseUp | MouseLeave => isDrawing s = true -> drawTool (currentTool env)
  | _ => True
  end ->
  forall a, In a (snd (handle env ev s)) ->
    wellFormed a /\ Annotation.type a <> select.
Proof.
  intros HI Hrel a Ha.
  destruct (handle_shape env ev s HI) as [_ Hout].
  assert (Hup : forall (Hd : isDrawing s = true -> drawTool (currentTool env)),
             In a (snd (onMouseUp env s)) ->
             wellFormed a /\ Annotation.type a <> select).
  { intros Hd Hin. destruct HI as [_ Hdraw].
    unfold onMouseUp in Hin. destruct (isDrawing s) eqn:Ed; cbn [negb snd] in Hin;
      [| destruct Hin].
    destruct (Hdraw eq_refl) as [E | [q E]]; rewrite E in Hin; cbn in Hin;
      [destruct Hin |].
    destruct Hin as [<- | []]. unfold wellFormed; cbn.
    destruct (Hd eq_refl) as [Et | [Et | Et]]; rewrite Et;
      (split; [reflexivity | discriminate]). }
  destruct ev as [cx cy | cx cy | | | v | |]; cbn [handle snd] in Ha;
    try (destruct Ha; fail).
  - now apply Hup.
  - now apply Hup.
  - unfold submitText in Ha. destruct (textPosition s) as [pos |]; [| destruct Ha].
    destruct (String.eqb_spec (textInput s) "") as [Eempty | Hne];
      cbn [negb snd] in Ha; [destruct Ha |].
    destruct Ha as [<- | []]. unfold wellFormed; cbn.
    split; [| discriminate]. split; [reflexivity | eauto].
Qed.

Lemma run_released (tr : list (Env * Event)) :
  forall s : State,
    editorInv s ->
    releasedWithDrawingTool tr s ->
    forall a, In a (snd (run tr s)) ->
      wellFormed a /\ Annotation.type a <> select.
Proof.
  induction tr as [| [env ev] rest IH]; intros s HI Hrel a Ha.
  - destruct Ha.
  - rewrite run_cons in Ha. cbn [snd] in Ha. apply in_app_or in Ha.
    destruct Hrel as [Hev Hrest].
    destruct (handle_shape env ev s HI) as [HI1 _].
    destruct Ha as [Ha | Ha].
    + apply (handle_released env ev s HI); [| exact Ha].
      destruct ev; try exact I; exact Hev.
    + now apply (IH (fst (handle env ev s))).
Qed.

End EditorFacts.

(** C10.  The editor does not keep the point-count invariant on this
    session: a rectangle is being dragged out from (10,10) to (50,40) when
    the parent switches the tool to text, and the mouse button is released.
    [onMouseDown] refuses to start a drawing with the text tool and
    [submitText] is the path that emits text annotations, but [onMouseUp]
    stamps the annotation with the tool current at the release: what is
    emitted is a text annotation with two points and no text, where the
    invariant wants one point and a text that is not empty. *)
Lemma C10_tool_switch_emits_malformed_text :
  exists a : Annotation.t,
    In a (snd (Editor.run sessionToolSwitched Editor.init)) /\
    Annotation.type a = text /\
    Annotation.points a = [Point.mk 10 10; Point.mk 50 40] /\
    Annotation.text a = None /\
    ~ Editor.wellFormed a.
Proof.
  eexists. split; [left; reflexivity |].
  repeat split. intros [Hlen _]. discriminate Hlen.
Qed.

(* ================================================================== *)
(** * Further properties of the sources *)

(** ** Annotation history: round trips, growth, sessions *)

Section HistoryMore.

Import History.

Lemma js_slice0_le {A : Type} (l : list A) (e : Z) :
  js_length (js_slice0 l e) <= js_length l.
Proof. unfold js_slice0, js_length. rewrite length_firstn. lia. Qed.

Lemma state_eta (s : State) :
  {| annotations := annotations s; history := history s;
     historyIndex := historyIndex s |} = s.
Proof. destruct s; reflexivity. Qed.

Lemma step_length (o : Op) (s s' : State) :
  step o s = Some s' ->
  js_length (history s') <= js_length (history s) + (if match o with OpAdd _ | OpClear => true | _ => false end then 1 else 0).
Proof.
  destruct o as [a | | |]; simpl.
  - intros [= <-]. unfold addAnnotation, saveHistory; simpl.
    rewrite js_length_app_one. pose proof (js_slice0_le (history s) (historyIndex s + 1)). lia.
  - unfold undo. destruct (0 <? historyIndex s); [| intros [= <-]; lia].
    destruct (js_index (history s) (historyIndex s - 1)); [| discriminate].
    intros [= <-]; simpl; lia.
  - unfold redo. destruct (historyIndex s <? js_length (history s) - 1);
      [| intros [= <-]; lia].
    destruct (js_index (history s) (historyIndex s + 1)); [| discriminate].
    intros [= <-]; simpl; lia.
  - intros [= <-]. unfold clear, saveHistory; simpl.
    rewrite js_length_app_one. pose proof (js_slice0_le (history s) (historyIndex s + 1)). lia.
Qed.

Lemma run_length (ops : list Op) :
  forall s s', run ops s = Some s' ->
    js_length (history s') <= js_length (history s) + Z.of_nat (countCommits ops).
Proof.
  induction ops as [| o rest IH]; intros s s' Hrun; simpl in Hrun.
  - injection Hrun as <-. simpl. lia.
  - destruct (step o s) as [s1 |] eqn:E1; [| discriminate].
    pose proof (step_length o s s1 E1) as H1.
    pose proof (IH s1 s' Hrun) as H2.
    destruct o; simpl countCommits; simpl in H1; lia.
Qed.

End HistoryMore.

(** X1. In a state satisfying the history invariant, [undo] and [redo] are
    inverse to each other: when [canUndo] holds, [undo] then [redo] gives
    back the very same state (list, snapshots and index), and [canRedo]
    holds in between; when [canRedo] holds, [redo] then [undo] does. *)
Theorem X1_undo_redo_round_trip :
  forall s : History.State,
    History.Inv s ->
    (History.canUndo s = true ->
       exists s', History.undo s = Some s' /\ History.canRedo s' = true /\
                  History.redo s' = Some s) /\
    (History.canRedo s = true ->
       exists s', History.redo s = Some s' /\ History.canUndo s' = true /\
                  History.undo s' = Some s).
Proof.
  intros s [Hrange Hcur]. split.
  - unfold History.canUndo. intros Hu. apply Z.ltb_lt in Hu.
    destruct (js_index_in_range (History.history s) (History.historyIndex s - 1))
      as [snap E]; [lia |].
    unfold History.undo. rewrite (proj2 (Z.ltb_lt _ _) Hu), E.
    eexists; split; [reflexivity |].
    unfold History.canRedo, History.redo; simpl.
    assert (Hlt : (History.historyIndex s - 1 <? js_length (History.history s) - 1) = true)
      by (apply Z.ltb_lt; lia).
    rewrite Hlt. split; [reflexivity |].
    replace (History.historyIndex s - 1 + 1) with (History.historyIndex s) by lia.
    rewrite Hcur. now rewrite state_eta.
  - unfold History.canRedo. intros Hr. pose proof Hr as Hlt. apply Z.ltb_lt in Hlt.
    destruct (js_index_in_range (History.history s) (History.historyIndex s + 1))
      as [snap E]; [lia |].
    unfold History.redo. rewrite Hr, E.
    eexists; split; [reflexivity |].
    unfold History.canUndo, History.undo; simpl.
    assert (Hpos : (0 <? History.historyIndex s + 1) = true) by (apply Z.ltb_lt; lia).
    rewrite Hpos. split; [reflexivity |].
    replace (History.historyIndex s + 1 - 1) with (History.historyIndex s) by lia.
    rewrite Hcur. now rewrite state_eta.
Qed.

(** X1 at the state holding [annA; annB]: undo is possible there. *)
Lemma X1_undo_redo_round_trip_witness :
  History.Inv stateAB /\
  History.canUndo stateAB = true /\
  exists s', History.undo stateAB = Some s' /\ History.canRedo s' = true /\
             History.redo s' = Some stateAB.
Proof.
  assert (HI : History.Inv stateAB).
  { split; [vm_compute; split; [discriminate | reflexivity] | reflexivity]. }
  split; [exact HI |]. split; [reflexivity |].
  exact (proj1 (X1_undo_redo_round_trip stateAB HI) eq_refl).
Defined.

(** X2. The history grows by at most one snapshot per committed edit: after
    any sequence of operations on a fresh history, the number of snapshots
    is at most one more than the number of [addAnnotation] and [clear] in
    the sequence, however many [undo] and [redo] it has. *)
Theorem X2_history_length_bound :
  forall ops : list History.Op,
  exists s : History.State,
    History.run ops History.init = Some s /\
    1 <= js_length (History.history s) <= 1 + Z.of_nat (countCommits ops).
Proof.
  intros ops.
  destruct (run_Inv ops History.init init_Inv) as (s & Hrun & Hrange & _).
  exists s. split; [exact Hrun |].
  pose proof (run_length ops History.init s Hrun) as H.
  change (js_length (History.history History.init)) with 1 in H. lia.
Qed.

Section LinearHistory.

Import History.

Lemma run_app (ops1 ops2 : list Op) :
  forall s, run (ops1 ++ ops2) s
            = match run ops1 s with Some s1 => run ops2 s1 | None => None end.
Proof.
  induction ops1 as [| o rest IH]; intros s; simpl; [reflexivity |].
  destruct (step o s) as [s1 |]; [apply IH | reflexivity].
Qed.

Lemma prefixes_length (l : list Annotation.t) :
  js_length (prefixes l) = Z.of_nat (List.length l) + 1.
Proof. unfold js_length, prefixes. rewrite length_map, length_seq. lia. Qed.

Lemma prefixes_index (l : list Annotation.t) (i : nat) :
  (i <= List.length l)%nat ->
  js_index (prefixes l) (Z.of_nat i) = Some (firstn i l).
Proof.
  intros Hi. unfold js_index, prefixes.
  destruct (Z.ltb_spec (Z.of_nat i) 0) as [Hneg | _]; [lia |].
  rewrite Nat2Z.id, nth_error_map, nth_error_seq.
  destruct (Nat.ltb_spec i (S (List.length l))) as [_ | Hbad]; [reflexivity | lia].
Qed.

Lemma prefixes_snoc (l : list Annotation.t) (a : Annotation.t) :
  prefixes (l ++ [a]) = prefixes l ++ [l ++ [a]].
Proof.
  unfold prefixes. rewrite length_app; simpl List.length.
  replace (List.length l + 1)%nat with (S (List.length l)) by lia.
  rewrite (seq_S (S (List.length l)) 0), map_app. cbn [map]. f_equal.
  - apply map_ext_in. intros n Hn. apply in_seq in Hn.
    rewrite firstn_app.
    replace (n - List.length l)%nat with O by lia.
    cbn [firstn]. now rewrite app_nil_r.
  - f_equal. apply firstn_all2. rewrite length_app; simpl; lia.
Qed.

Lemma add_linear (l : list Annotation.t) (a : Annotation.t) :
  addAnnotation a (linear l (List.length l))
  = linear (l ++ [a]) (S (List.length l)).
Proof.
  unfold addAnnotation, saveHistory, linear; cbn [annotations history historyIndex].
  assert (Hslice : js_slice0 (prefixes l) (Z.of_nat (List.length l) + 1) = prefixes l).
  { unfold js_slice0.
    destruct (Z.ltb_spec (Z.of_nat (List.length l) + 1) 0) as [Hneg | _]; [lia |].
    fold (js_length (prefixes l)). rewrite prefixes_length, Z.min_id.
    apply firstn_all2. unfold prefixes. rewrite length_map, length_seq. lia. }
  rewrite Hslice, firstn_all, js_length_app_one, prefixes_length, <- prefixes_snoc.
  f_equal.
  - symmetry. apply firstn_all2. rewrite length_app; simpl; lia.
  - lia.
Qed.

Lemma run_addAll (l : list Annotation.t) :
  run (addAll l) init = Some (linear l (List.length l)).
Proof.
  induction l as [| a l IH] using rev_ind; [reflexivity |].
  unfold addAll in *. rewrite map_app, run_app, IH. cbn [map run step].
  rewrite add_linear, length_app. simpl List.length.
  now replace (List.length l + 1)%nat with (S (List.length l)) by lia.
Qed.

Lemma undo_linear (l : list Annotation.t) (i : nat) :
  (S i <= List.length l)%nat -> undo (linear l (S i)) = Some (linear l i).
Proof.
  intros Hi. unfold undo, linear; cbn [annotations history historyIndex].
  destruct (Z.ltb_spec 0 (Z.of_nat (S i))) as [_ | Hbad]; [| lia].
  replace (Z.of_nat (S i) - 1) with (Z.of_nat i) by lia.
  rewrite prefixes_index by lia. reflexivity.
Qed.

Lemma undo_linear_0 (l : list Annotation.t) : undo (linear l 0) = Some (linear l 0).
Proof. reflexivity. Qed.

Lemma redo_linear (l : list Annotation.t) (i : nat) :
  (S i <= List.length l)%nat -> redo (linear l i) = Some (linear l (S i)).
Proof.
  intros Hi. unfold redo, linear; cbn [annotations history historyIndex].
  rewrite prefixes_length.
  destruct (Z.ltb_spec (Z.of_nat i) (Z.of_nat (List.length l) + 1 - 1)) as [_ | Hbad];
    [| lia].
  replace (Z.of_nat i + 1) with (Z.of_nat (S i)) by lia.
  rewrite prefixes_index by lia. reflexivity.
Qed.

Lemma run_undos (l : list Annotation.t) (k : nat) :
  forall i, (i <= List.length l)%nat ->
    run (repeatOp OpUndo k) (linear l i) = Some (linear l (i - k)).
Proof.
  unfold repeatOp. induction k as [| k IH]; intros i Hi; cbn [repeat run step].
  - now rewrite Nat.sub_0_r.
  - destruct i as [| i].
    + rewrite undo_linear_0. apply (IH O). lia.
    + rewrite undo_linear by lia. rewrite IH by lia. reflexivity.
Qed.

Lemma run_redos (l : list Annotation.t) (k : nat) :
  forall i, (i + k <= List.length l)%nat ->
    run (repeatOp OpRedo k) (linear l i) = Some (linear l (i + k)).
Proof.
  unfold repeatOp. induction k as [| k IH]; intros i Hi; cbn [repeat run step].
  - now rewrite Nat.add_0_r.
  - rewrite redo_linear by lia. rewrite IH by lia. f_equal. f_equal. lia.
Qed.

End LinearHistory.

(** X3. Linear undo and redo: after [addAnnotation] for each element of [l]
    on a fresh history, [k <= length l] calls of [undo] leave exactly the
    first [length l - k] annotations, and [k] calls of [redo] after them
    bring back all of [l].  Calls of [undo] beyond the first snapshot do
    nothing: after [length l + m] of them the list is empty and the index
    is 0. *)
Theorem X3_adds_undos_redos :
  forall (l : list Annotation.t) (k : nat),
    (k <= List.length l)%nat ->
    (exists s1,
       History.run (addAll l ++ repeatOp History.OpUndo k) History.init = Some s1 /\
       History.annotations s1 = firstn (List.length l - k) l /\
       exists s2,
         History.run (repeatOp History.OpRedo k) s1 = Some s2 /\
         History.annotations s2 = l /\
         History.canRedo s2 = false) /\
    (forall m : nat,
       exists s0,
         History.run (addAll l ++ repeatOp History.OpUndo (List.length l + m))
                     History.init = Some s0 /\
         History.annotations s0 = [] /\
         History.historyIndex s0 = 0 /\
         History.canUndo s0 = false).
Proof.
  intros l k Hk. split.
  - exists (linear l (List.length l - k)).
    rewrite run_app, run_addAll, run_undos by lia.
    split; [reflexivity |]. split; [reflexivity |].
    exists (linear l (List.length l)).
    rewrite run_redos by lia.
    replace (List.length l - k + k)%nat with (List.length l) by lia.
    split; [reflexivity |]. split; [apply firstn_all |].
    unfold History.canRedo, linear; cbn [History.history History.historyIndex].
    rewrite prefixes_length. apply Z.ltb_ge. lia.
  - intros m. exists (linear l 0).
    rewrite run_app, run_addAll, run_undos by lia.
    replace (List.length l - (List.length l + m))%nat with O by lia.
    repeat split.
Qed.

(** X3 on [annA; annB] with one undo. *)
Lemma X3_adds_undos_redos_witness :
  (1 <= List.length [annA; annB])%nat /\
  exists s1,
    History.run (addAll [annA; annB] ++ repeatOp History.OpUndo 1) History.init
      = Some s1 /\
    History.annotations s1 = [annA].
Proof.
  split; [simpl; lia |].
  destruct (proj1 (X3_adds_undos_redos [annA; annB] 1%nat (le_S _ _ (le_n 1))))
    as (s1 & Hrun & Hann & _).
  exists s1. split; [exact Hrun | exact Hann].
Defined.

(** X4. No operation alters a snapshot at or before the current one: in a
    state satisfying the invariant, whatever operation runs next, every
    snapshot at an index [i <= historyIndex] is still there, unchanged.
    ([undo] and [redo] keep all snapshots; [addAnnotation] and [clear] drop
    those after the current one only.) *)
Theorem X4_past_snapshots_kept :
  forall (s s' : History.State) (o : History.Op) (i : Z),
    History.Inv s ->
    0 <= i <= History.historyIndex s ->
    History.step o s = Some s' ->
    js_index (History.history s') i = js_index (History.history s) i /\
    ((o = History.OpUndo \/ o = History.OpRedo) ->
       History.history s' = History.history s).
Proof.
  intros s s' o i [Hrange Hcur] Hi Hstep.
  assert (Hcommit : forall cur,
             js_index (History.history
                         (History.saveHistory
                            {| History.annotations := cur;
                               History.history := History.history s;
                               History.historyIndex := History.historyIndex s |})) i
             = js_index (History.history s) i).
  { intros cur. unfold History.saveHistory; simpl.
    rewrite js_index_app1 by (rewrite js_slice0_length; lia).
    apply js_index_slice0. lia. }
  destruct o as [a | | |]; simpl in Hstep.
  - injection Hstep as <-. split; [apply Hcommit | intros [E | E]; discriminate E].
  - unfold History.undo in Hstep.
    destruct (0 <? History.historyIndex s);
      [destruct (js_index (History.history s) (History.historyIndex s - 1));
       [| discriminate] |];
      injection Hstep as <-; split; reflexivity.
  - unfold History.redo in Hstep.
    destruct (History.historyIndex s <? js_length (History.history s) - 1);
      [destruct (js_index (History.history s) (History.historyIndex s + 1));
       [| discriminate] |];
      injection Hstep as <-; split; reflexivity.
  - injection Hstep as <-. split; [apply Hcommit | intros [E | E]; discriminate E].
Qed.

(** X4 on the state holding [annA; annB]: after [clear()], snapshot 1 is
    still [[annA]]. *)
Lemma X4_past_snapshots_kept_witness :
  History.Inv stateAB /\
  0 <= 1 <= History.historyIndex stateAB /\
  History.step History.OpClear stateAB = Some (History.clear stateAB) /\
  js_index (History.history (History.clear stateAB)) 1 = Some [annA].
Proof.
  assert (HI : History.Inv stateAB).
  { split; [vm_compute; split; [discriminate | reflexivity] | reflexivity]. }
  assert (Hi : 0 <= 1 <= History.historyIndex stateAB)
    by (vm_compute; split; discriminate).
  split; [exact HI |]. split; [exact Hi |]. split; [reflexivity |].
  rewrite (proj1 (X4_past_snapshots_kept stateAB (History.clear stateAB)
                    History.OpClear 1 HI Hi eq_refl)).
  reflexivity.
Defined.

(** X5. [reset] (run when a capture is confirmed or cancelled) empties the
    annotation list and returns to the idle mode, but does not start a new
    history: it commits one more snapshot.  So after any editing session,
    [canUndo] holds right after [reset], and [undo] then brings back the
    annotations of the session that was closed. *)
Theorem X5_reset_keeps_history :
  forall (ops : list History.Op) (app : App.State),
    History.run ops History.init = Some (App.annotation app) ->
    let app' := App.reset app in
    App.mode app' = App.idle /\
    App.screenshotData app' = ""%string /\
    App.croppedImage app' = ""%string /\
    History.annotations (App.annotation app') = [] /\
    History.canUndo (App.annotation app') = true /\
    js_length (History.history (App.annotation app'))
      = History.historyIndex (App.annotation app) + 2 /\
    exists s2,
      History.undo (App.annotation app') = Some s2 /\
      History.annotations s2 = History.annotations (App.annotation app).
Proof.
  intros ops app Hrun app'.
  destruct (run_Inv ops History.init init_Inv) as (s & Hrun' & HI).
  rewrite Hrun in Hrun'. injection Hrun' as <-.
  pose proof HI as [Hrange Hcur].
  assert (Hlen : js_length (History.history (History.clear (App.annotation app)))
                 = History.historyIndex (App.annotation app) + 2).
  { unfold History.clear, History.saveHistory; simpl.
    rewrite js_length_app_one, js_slice0_length by lia. lia. }
  assert (Hidx : History.historyIndex (History.clear (App.annotation app))
                 = History.historyIndex (App.annotation app) + 1).
  { unfold History.clear, History.saveHistory; simpl.
    rewrite js_length_app_one, js_slice0_length by lia. lia. }
  assert (Hundo : exists s2,
             History.undo (History.clear (App.annotation app)) = Some s2 /\
             History.annotations s2 = History.annotations (App.annotation app)).
  { unfold History.undo. rewrite Hidx.
    destruct (Z.ltb_spec 0 (History.historyIndex (App.annotation app) + 1))
      as [_ | Hbad]; [| lia].
    replace (History.historyIndex (App.annotation app) + 1 - 1)
      with (History.historyIndex (App.annotation app)) by lia.
    unfold History.clear, History.saveHistory; simpl.
    rewrite js_index_app1 by (rewrite js_slice0_length; lia).
    rewrite js_index_slice0 by lia. rewrite Hcur.
    eexists; split; reflexivity. }
  unfold app', App.reset; simpl.
  repeat split; try exact Hlen; try exact Hundo.
  unfold History.canUndo. rewrite Hidx. apply Z.ltb_lt. lia.
Qed.

(** X5 after a session that added [annA] and [annB]. *)
Lemma X5_reset_keeps_history_witness :
  History.run (addAll [annA; annB]) History.init
    = Some (App.annotation (appWith stateAB)) /\
  History.canUndo (App.annotation (App.reset (appWith stateAB))) = true /\
  exists s2,
    History.undo (App.annotation (App.reset (appWith stateAB))) = Some s2 /\
    History.annotations s2 = [annA; annB].
Proof.
  assert (Hrun : History.run (addAll [annA; annB]) History.init
                 = Some (App.annotation (appWith stateAB))) by reflexivity.
  split; [exact Hrun |].
  destruct (X5_reset_keeps_history (addAll [annA; annB]) (appWith stateAB) Hrun)
    as (_ & _ & _ & _ & Hcan & _ & Hundo).
  split; [exact Hcan | exact Hundo].
Defined.

(** ** Region selector sessions *)

Section SelectorSessions.

Import RegionSelector SelectorSession.

Lemma selector_run_cons (ev : Event) (rest : list Event) (s : State) :
  run (ev :: rest) s
  = (fst (run rest (fst (handle ev s))),
     snd (handle ev s) ++ snd (run rest (fst (handle ev s)))).
Proof.
  cbn [run]. destruct (handle ev s) as [s1 out1]; cbn [fst snd].
  destruct (run rest s1) as [s2 out2]; reflexivity.
Qed.

(** One event: the points stay inside the viewport, and a selection that is
    emitted is large enough and inside it. *)
Lemma handle_inside (w h : Z) (ev : Event) (s : State) :
  inside w h ev ->
  pointInside w h (startPoint s) -> pointInside w h (endPoint s) ->
  pointInside w h (startPoint (fst (handle ev s))) /\
  pointInside w h (endPoint (fst (handle ev s))) /\
  forall sel, In (EmitSelect sel) (snd (handle ev s)) ->
    10 < Selection.width sel /\ 10 < Selection.height sel /\
    0 <= Selection.x sel /\ 0 <= Selection.y sel /\
    Selection.x sel + Selection.width sel <= w /\
    Selection.y sel + Selection.height sel <= h.
Proof.
  unfold pointInside. intros Hev Hs He.
  destruct ev as [e | e | | key | |]; cbn [handle fst snd inside] in *.
  - unfold onMouseDown. destruct (inCaptureToolbar e); cbn;
      (split; [| split]); try assumption; intros sel [].
  - unfold onMouseMove. destruct (isSelecting s); cbn;
      (split; [| split]); try assumption; intros sel [].
  - unfold onMouseUp; cbn [fst snd startPoint endPoint].
    split; [assumption |]. split; [assumption |].
    intros sel Hin.
    destruct (isSelecting s); cbn [andb] in Hin; [| destruct Hin].
    unfold hasSelection in Hin.
    destruct (Z.ltb_spec 10 (Selection.width (selection s))) as [Hw | Hw];
      cbn [andb] in Hin; [| destruct Hin].
    destruct (Z.ltb_spec 10 (Selection.height (selection s))) as [Hh | Hh];
      [| destruct Hin].
    destruct Hin as [[= <-] | []].
    split; [exact Hw |]. split; [exact Hh |].
    unfold selection; cbn. lia.
  - unfold onKeyDown; cbn. split; [assumption |]. split; [assumption |].
    intros sel Hin. destruct (String.eqb key "Escape"); cbn in Hin;
      [destruct Hin as [E | []]; discriminate E | destruct Hin].
  - cbn. split; [assumption |]. split; [assumption |].
    intros sel [E | []]; discriminate E.
  - split; [assumption |]. split; [assumption |].
    intros sel [E | []]; discriminate E.
Qed.

Lemma run_inside (w h : Z) (tr : list Event) :
  forall s,
    Forall (inside w h) tr ->
    pointInside w h (startPoint s) -> pointInside w h (endPoint s) ->
    forall sel, In (EmitSelect sel) (snd (run tr s)) ->
      10 < Selection.width sel /\ 10 < Selection.height sel /\
      0 <= Selection.x sel /\ 0 <= Selection.y sel /\
      Selection.x sel + Selection.width sel <= w /\
      Selection.y sel + Selection.height sel <= h.
Proof.
  induction tr as [| ev rest IH]; intros s Hall Hs He sel Hin.
  - destruct Hin.
  - rewrite selector_run_cons in Hin. cbn [snd] in Hin. apply in_app_or in Hin.
    inversion Hall as [| ? ? Hev Hrest]; subst.
    destruct (handle_inside w h ev s Hev Hs He) as (Hs1 & He1 & Hout).
    destruct Hin as [Hin | Hin]; [now apply Hout |].
    now apply (IH (fst (handle ev s))).
Qed.

(** While every mouse-down is on the toolbar, the selector stays idle and
    emits no selection. *)
Lemma run_toolbar_only (tr : list Event) :
  forall s,
    isSelecting s = false ->
    Forall downOnToolbar tr ->
    isSelecting (fst (run tr s)) = false /\
    forall sel, ~ In (EmitSelect sel) (snd (run tr s)).
Proof.
  induction tr as [| ev rest IH]; intros s Hidle Hall.
  - split; [exact Hidle | intros sel []].
  - rewrite selector_run_cons; cbn [fst snd].
    inversion Hall as [| ? ? Hev Hrest]; subst.
    assert (Hstep : isSelecting (fst (handle ev s)) = false /\
                    forall sel, ~ In (EmitSelect sel) (snd (handle ev s))).
    { destruct ev as [e | e | | key | |]; cbn [handle fst snd downOnToolbar] in *.
      - unfold onMouseDown. rewrite Hev. split; [exact Hidle | intros sel []].
      - unfold onMouseMove. rewrite Hidle. split; [exact Hidle | intros sel []].
      - unfold onMouseUp. rewrite Hidle. cbn. split; [reflexivity | intros sel []].
      - unfold onKeyDown; cbn. split; [exact Hidle |].
        intros sel Hin. destruct (String.eqb key "Escape"); cbn in Hin;
          [destruct Hin as [E | []]; discriminate E | destruct Hin].
      - cbn. split; [exact Hidle | intros sel [E | []]; discriminate E].
      - split; [exact Hidle | intros sel [E | []]; discriminate E]. }
    destruct Hstep as [Hidle1 Hout1].
    destruct (IH (fst (handle ev s)) Hidle1 Hrest) as [Hidle2 Hout2].
    split; [exact Hidle2 |].
    intros sel Hin. apply in_app_or in Hin.
    destruct Hin as [Hin | Hin]; [exact (Hout1 sel Hin) | exact (Hout2 sel Hin)].
Qed.

End SelectorSessions.

(** X6. Whatever the sequence of pointer, key and button events of a
    selection session, if every pointer position is within the [w] by [h]
    viewport then every selection the selector emits is more than 10 wide
    and more than 10 high and lies within the viewport:
    [0 <= x], [0 <= y], [x + width <= w], [y + height <= h]. *)
Theorem X6_emitted_selection_inside_viewport :
  forall (w h : Z) (tr : list SelectorSession.Event) (sel : Selection.t),
    0 <= w -> 0 <= h ->
    Forall (SelectorSession.inside w h) tr ->
    In (RegionSelector.EmitSelect sel)
       (snd (SelectorSession.run tr RegionSelector.init)) ->
    10 < Selection.width sel /\ 10 < Selection.height sel /\
    0 <= Selection.x sel /\ 0 <= Selection.y sel /\
    Selection.x sel + Selection.width sel <= w /\
    Selection.y sel + Selection.height sel <= h.
Proof.
  intros w h tr sel Hw Hh Hall Hin.
  apply (run_inside w h tr RegionSelector.init Hall); try exact Hin;
    unfold SelectorSession.pointInside; cbn; lia.
Qed.

(** X6 on the drag from (120,80) to (40,30) in a 1920 by 1080 viewport. *)
Lemma X6_emitted_selection_inside_viewport_witness :
  0 <= 1920 /\ 0 <= 1080 /\
  Forall (SelectorSession.inside 1920 1080) sessionDrag /\
  In (RegionSelector.EmitSelect (Selection.mk 40 30 80 50))
     (snd (SelectorSession.run sessionDrag RegionSelector.init)) /\
  10 < 80 /\ 10 < 50 /\ 0 <= 40 /\ 0 <= 30 /\ 40 + 80 <= 1920 /\ 30 + 50 <= 1080.
Proof.
  assert (Hw : 0 <= 1920) by lia. assert (Hh : 0 <= 1080) by lia.
  assert (Hall : Forall (SelectorSession.inside 1920 1080) sessionDrag).
  { repeat constructor; cbn; lia. }
  assert (Hin : In (RegionSelector.EmitSelect (Selection.mk 40 30 80 50))
                   (snd (SelectorSession.run sessionDrag RegionSelector.init)))
    by (left; reflexivity).
  split; [exact Hw |]. split; [exact Hh |]. split; [exact Hall |].
  split; [exact Hin |].
  exact (X6_emitted_selection_inside_viewport 1920 1080 sessionDrag
           (Selection.mk 40 30 80 50) Hw Hh Hall Hin).
Defined.

(** X7. Presses on the capture toolbar never select: starting from a state
    that is not selecting (the initial one, or any state after a mouse-up),
    a session in which every mouse-down lands on the capture toolbar emits
    no selection, whatever the moves and releases, and ends not selecting. *)
Theorem X7_toolbar_presses_never_select :
  forall (tr : list SelectorSession.Event) (s : RegionSelector.State)
         (sel : Selection.t),
    RegionSelector.isSelecting s = false ->
    Forall SelectorSession.downOnToolbar tr ->
    ~ In (RegionSelector.EmitSelect sel) (snd (SelectorSession.run tr s)) /\
    RegionSelector.isSelecting (fst (SelectorSession.run tr s)) = false.
Proof.
  intros tr s sel Hidle Hall.
  destruct (run_toolbar_only tr s Hidle Hall) as [H1 H2].
  split; [apply H2 | exact H1].
Qed.

(** X7 on a press on the toolbar followed by a move of 300 by 600 pixels. *)
Lemma X7_toolbar_presses_never_select_witness :
  RegionSelector.isSelecting RegionSelector.init = false /\
  Forall SelectorSession.downOnToolbar sessionToolbarClick /\
  snd (SelectorSession.run sessionToolbarClick RegionSelector.init) = [] /\
  ~ In (RegionSelector.EmitSelect (Selection.mk 600 100 300 600))
       (snd (SelectorSession.run sessionToolbarClick RegionSelector.init)).
Proof.
  assert (Hall : Forall SelectorSession.downOnToolbar sessionToolbarClick).
  { repeat constructor. }
  split; [reflexivity |]. split; [exact Hall |]. split; [reflexivity |].
  exact (proj1 (X7_toolbar_presses_never_select sessionToolbarClick
                  RegionSelector.init (Selection.mk 600 100 300 600) eq_refl Hall)).
Defined.

(** ** Panel layout: the panels stay on screen *)

Section LayoutMore.

Lemma toolbarPosition_top (screenW screenH : Z) (sel : Selection.t) :
  Layout.top (Layout.toolbarPosition screenW screenH sel)
  = Layout.px (Layout.toolbarTop screenH sel).
Proof.
  unfold Layout.toolbarPosition.
  destruct (screenW - Selection.x sel <? Layout.TOOLBAR_WIDTH + 8); reflexivity.
Qed.

Lemma toolbarTop_cases (screenH : Z) (sel : Selection.t) :
  let y := Selection.y sel in
  let bottom := Selection.y sel + Selection.height sel in
  let t := Layout.toolbarTop screenH sel in
  (58 <= screenH - bottom /\ t = bottom + 10) \/
  (screenH - bottom < 58 /\ 58 <= y /\ t = y - 58) \/
  (screenH - bottom < 58 /\ y < 58 /\ t = Z.max 0 (Z.min (bottom + 10) (screenH - 48))).
Proof.
  cbv zeta. unfold Layout.toolbarTop, Layout.TOOLBAR_HEIGHT, Layout.TOOLBAR_GAP.
  destruct (Z.leb_spec (48 + 10) (screenH - (Selection.y sel + Selection.height sel)));
    [left; lia |].
  destruct (Z.leb_spec (48 + 10) (Selection.y sel)); [right; left; lia | right; right; lia].
Qed.

End LayoutMore.

(** X8. For a selection lying in a viewport at least 588 wide and 48 high,
    the tool panel (580 by 48) is placed entirely inside the viewport:
    [0 <= top], [top + 48 <= screenH], and its left edge [l], whether it is
    anchored on the left or on the right, satisfies [0 <= l] and
    [l + 580 <= screenW].  Moreover, when 58 units are free below or above
    the selection, the panel does not overlap the selection vertically: it
    starts at least 10 below it or ends at least 10 above it. *)
Theorem X8_toolbar_inside_viewport :
  forall (screenW screenH : Z) (sel : Selection.t),
    OcrLayout.selectionInside screenW screenH sel ->
    588 <= screenW -> 48 <= screenH ->
    let pos := Layout.toolbarPosition screenW screenH sel in
    exists t l,
      Layout.top pos = Layout.px t /\
      OcrLayout.leftEdge screenW Layout.TOOLBAR_WIDTH pos = Some l /\
      0 <= t /\ t + Layout.TOOLBAR_HEIGHT <= screenH /\
      0 <= l /\ l + Layout.TOOLBAR_WIDTH <= screenW /\
      (58 <= screenH - (Selection.y sel + Selection.height sel) \/
       58 <= Selection.y sel ->
       Selection.y sel + Selection.height sel + 10 <= t \/
       t + Layout.TOOLBAR_HEIGHT + 10 <= Selection.y sel).
Proof.
  intros screenW screenH sel (Hx & Hy & Hw & Hh & Hxw & Hyh) HW HH pos.
  exists (Layout.toolbarTop screenH sel).
  pose proof (toolbarTop_cases screenH sel) as Hcases. cbv zeta in Hcases.
  unfold pos. rewrite toolbarPosition_top.
  unfold Layout.toolbarPosition, OcrLayout.leftEdge,
    Layout.TOOLBAR_WIDTH, Layout.TOOLBAR_HEIGHT in *.
  destruct (Z.ltb_spec (screenW - Selection.x sel) (580 + 8)) as [Hr | Hl];
    cbn [Layout.left Layout.right].
  - eexists. split; [reflexivity |]. split; [reflexivity |]. lia.
  - destruct (Z.ltb_spec (Selection.x sel) 8);
      (eexists; split; [reflexivity |]; split; [reflexivity |]; lia).
Qed.

(** X8 for the selection {40,30,80,50} in a 1280 by 720 viewport. *)
Lemma X8_toolbar_inside_viewport_witness :
  OcrLayout.selectionInside 1280 720 (Selection.mk 40 30 80 50) /\
  588 <= 1280 /\ 48 <= 720 /\
  Layout.toolbarPosition 1280 720 (Selection.mk 40 30 80 50)
  = {| Layout.left := Layout.px 40; Layout.right := Layout.auto;
       Layout.top := Layout.px 90 |} /\
  exists t l,
    Layout.top (Layout.toolbarPosition 1280 720 (Selection.mk 40 30 80 50))
      = Layout.px t /\
    OcrLayout.leftEdge 1280 Layout.TOOLBAR_WIDTH
      (Layout.toolbarPosition 1280 720 (Selection.mk 40 30 80 50)) = Some l /\
    0 <= t /\ t + Layout.TOOLBAR_HEIGHT <= 720 /\
    0 <= l /\ l + Layout.TOOLBAR_WIDTH <= 1280.
Proof.
  assert (Hsel : OcrLayout.selectionInside 1280 720 (Selection.mk 40 30 80 50))
    by (unfold OcrLayout.selectionInside; cbn; lia).
  assert (HW : 588 <= 1280) by lia. assert (HH : 48 <= 720) by lia.
  split; [exact Hsel |]. split; [exact HW |]. split; [exact HH |].
  split; [reflexivity |].
  destruct (X8_toolbar_inside_viewport 1280 720 (Selection.mk 40 30 80 50) Hsel HW HH)
    as (t & l & H1 & H2 & H3 & H4 & H5 & H6 & _).
  exists t, l. repeat split; assumption.
Defined.

(** X9. For a selection lying in a viewport at least 408 wide and 200 high,
    the result panel (400 by 200) is placed entirely inside the viewport.
    Unless it is pinned to the bottom edge ([top = screenH - 200]), it
    starts at least 10 below the selection, and clear of the tool panel:
    58 or more below the top of a tool panel that is below the selection,
    while a tool panel that is not below ends at least 10 above the
    selection. *)
Theorem X9_result_panel_inside_viewport :
  forall (screenW screenH : Z) (sel : Selection.t),
    OcrLayout.selectionInside screenW screenH sel ->
    408 <= screenW -> 200 <= screenH ->
    let pos := OcrLayout.ocrPosition screenW screenH sel in
    let t := OcrLayout.ocrTop screenW screenH sel in
    let toolbarTop := Layout.toolbarTop screenH sel in
    exists l,
      Layout.top pos = Layout.px t /\
      OcrLayout.leftEdge screenW OcrLayout.OCR_WIDTH pos = Some l /\
      0 <= t /\ t + OcrLayout.OCR_HEIGHT <= screenH /\
      0 <= l /\ l + OcrLayout.OCR_WIDTH <= screenW /\
      (t = screenH - OcrLayout.OCR_HEIGHT \/
       (Selection.y sel + Selection.height sel + 10 <= t /\
        (toolbarTop + Layout.TOOLBAR_HEIGHT + 10 <= t \/
         toolbarTop + Layout.TOOLBAR_HEIGHT + 10 <= Selection.y sel))).
Proof.
  intros screenW screenH sel (Hx & Hy & Hw & Hh & Hxw & Hyh) HW HH pos t toolbarTop.
  pose proof (toolbarTop_cases screenH sel) as Hcases. cbv zeta in Hcases.
  fold toolbarTop in Hcases.
  assert (Ht : (t = screenH - 200 \/
                (t = toolbarTop + 58 /\ Selection.y sel < toolbarTop) \/
                (t = Selection.y sel + Selection.height sel + 10 /\
                 toolbarTop <= Selection.y sel)) /\
               0 <= t /\ t + 200 <= screenH).
  { unfold t, OcrLayout.ocrTop. rewrite toolbarPosition_top.
    cbn [OcrLayout.parseFloat OcrLayout.isToolbarBelow]. fold toolbarTop.
    unfold OcrLayout.OCR_HEIGHT, OcrLayout.OCR_GAP, Layout.TOOLBAR_HEIGHT,
      Layout.TOOLBAR_GAP.
    destruct (Z.ltb_spec (Selection.y sel) toolbarTop) as [Hb | Hb];
      match goal with
      | |- context [?a <? ?b] => destruct (Z.ltb_spec a b)
      end; lia. }
  destruct Ht as (Ht & Ht0 & Ht1).
  unfold pos, OcrLayout.ocrPosition, OcrLayout.leftEdge, OcrLayout.OCR_WIDTH,
    OcrLayout.OCR_HEIGHT, Layout.TOOLBAR_HEIGHT in *.
  fold t.
  destruct (Z.ltb_spec (screenW - Selection.x sel) (400 + 8)) as [Hr | Hl];
    cbn [Layout.left Layout.right Layout.top].
  - eexists. split; [reflexivity |]. split; [reflexivity |]. lia.
  - destruct (Z.ltb_spec (Selection.x sel) 8);
      (eexists; split; [reflexivity |]; split; [reflexivity |]; lia).
Qed.

(** X9 for the selection {40,30,80,50} in a 1280 by 720 viewport: the tool
    panel is at 90, the result panel at 148. *)
Lemma X9_result_panel_inside_viewport_witness :
  OcrLayout.selectionInside 1280 720 (Selection.mk 40 30 80 50) /\
  408 <= 1280 /\ 200 <= 720 /\
  OcrLayout.ocrPosition 1280 720 (Selection.mk 40 30 80 50)
  = {| Layout.left := Layout.px 40; Layout.right := Layout.auto;
       Layout.top := Layout.px 148 |} /\
  exists l,
    OcrLayout.leftEdge 1280 OcrLayout.OCR_WIDTH
      (OcrLayout.ocrPosition 1280 720 (Selection.mk 40 30 80 50)) = Some l /\
    0 <= l /\ l + OcrLayout.OCR_WIDTH <= 1280.
Proof.
  assert (Hsel : OcrLayout.selectionInside 1280 720 (Selection.mk 40 30 80 50))
    by (unfold OcrLayout.selectionInside; cbn; lia).
  assert (HW : 408 <= 1280) by lia. assert (HH : 200 <= 720) by lia.
  split; [exact Hsel |]. split; [exact HW |]. split; [exact HH |].
  split; [reflexivity |].
  destruct (X9_result_panel_inside_viewport 1280 720 (Selection.mk 40 30 80 50)
              Hsel HW HH) as (l & _ & H2 & _ & _ & H5 & H6 & _).
  exists l. repeat split; assumption.
Defined.

(** ** Mosaic: blocks, draws and pixels *)

Section MosaicFacts.

Lemma forStep_forEach (body : Z -> Paint unit) (bound step : Z) (fuel : nat) :
  forall (i : Z) (rnd : nat -> Q) (k : nat),
    forStep fuel i bound step body rnd k
    = forEach (steps fuel i bound step) body rnd k.
Proof.
  induction fuel as [| fuel IH]; intros i rnd k; cbn [forStep steps]; [reflexivity |].
  destruct (i <? bound); [| reflexivity].
  cbn [forEach]. unfold bind. destruct (body i rnd k) as [[[u out] k1] |]; [| reflexivity].
  now rewrite IH.
Qed.

(** The loop variable takes the multiples of the step below the bound. *)
Lemma steps_In (bound step : Z) (fuel : nat) :
  0 < step ->
  forall i z,
    (Z.to_nat (bound - i) <= fuel)%nat ->
    (In z (steps fuel i bound step) <->
     i <= z < bound /\ (z - i) mod step = 0).
Proof.
  intros Hstep. induction fuel as [| fuel IH]; intros i z Hfuel; cbn [steps].
  - split; [intros [] | intros [H _]; lia].
  - destruct (Z.ltb_spec i bound) as [Hlt | Hge]; [| split; [intros [] | intros [H _]; lia]].
    cbn [In]. rewrite IH by lia. split.
    + intros [<- | [Hr Hm]].
      * split; [lia |]. now rewrite Z.sub_diag.
      * split; [lia |].
        replace (z - i) with (z - (i + step) + 1 * step) by lia.
        now rewrite Z.mod_add by lia.
    + intros [Hr Hm].
      destruct (Z.eq_dec i z) as [E | Hne]; [now left | right].
      assert (Hq : z - i = step * ((z - i) / step)).
      { pose proof (Z.div_mod (z - i) step ltac:(lia)). lia. }
      assert (Hpos : 0 < (z - i) / step).
      { apply Z.div_str_pos. split; [lia |].
        destruct (Z.le_gt_cases step (z - i)) as [H | H]; [exact H |].
        rewrite Z.mod_small in Hm by lia. lia. }
      split; [nia |].
      replace (z - (i + step)) with (z - i + (-1) * step) by lia.
      now rewrite Z.mod_add by lia.
Qed.

Lemma steps_length (bound : Z) (fuel : nat) :
  forall i,
    (Z.to_nat (bound - i) <= fuel)%nat ->
    List.length (steps fuel i bound 10) = Z.to_nat (ceil10 (bound - i)).
Proof.
  unfold ceil10. induction fuel as [| fuel IH]; intros i Hfuel; cbn [steps].
  - assert (H : (bound - i + 9) / 10 <= 0).
    { apply Z.lt_succ_r. apply Z.div_lt_upper_bound; lia. }
    simpl. lia.
  - destruct (Z.ltb_spec i bound) as [Hlt | Hge].
    + cbn [List.length]. rewrite IH by lia.
      replace (bound - i + 9) with (bound - (i + 10) + 9 + 1 * 10) by lia.
      rewrite Z.div_add by lia.
      assert (0 <= (bound - (i + 10) + 9) / 10) by (apply Z.div_pos; lia).
      lia.
    + assert (H : (bound - i + 9) / 10 <= 0).
      { apply Z.lt_succ_r. apply Z.div_lt_upper_bound; lia. }
      simpl. lia.
Qed.

Lemma colBlocks_length rnd k x y i rows :
  List.length (colBlocks rnd k x y i rows) = List.length rows.
Proof. revert k. induction rows as [| j rows IH]; intros k; simpl; [| rewrite IH]; reflexivity. Qed.

Lemma gridBlocks_length rnd x y cols rows :
  forall k, List.length (gridBlocks rnd k x y cols rows)
            = (List.length cols * List.length rows)%nat.
Proof.
  induction cols as [| i cols IH]; intros k; simpl; [reflexivity |].
  now rewrite length_app, colBlocks_length, IH.
Qed.

(** The [n]-th block painted from draw [k] on takes draw [k + n]. *)
Lemma colBlocks_nth rnd x y i rows :
  forall k n b, nth_error (colBlocks rnd k x y i rows) n = Some b ->
                gray b = grayOf (rnd (k + n)%nat).
Proof.
  induction rows as [| j rows IH]; intros k n b H; destruct n as [| n]; simpl in H;
    try discriminate.
  - injection H as <-. simpl. now rewrite Nat.add_0_r.
  - rewrite (IH (S k) n b H). f_equal. f_equal. lia.
Qed.

Lemma gridBlocks_nth rnd x y cols rows :
  forall k n b, nth_error (gridBlocks rnd k x y cols rows) n = Some b ->
                gray b = grayOf (rnd (k + n)%nat).
Proof.
  induction cols as [| i cols IH]; intros k n b H; simpl in H.
  - destruct n; discriminate.
  - destruct (Nat.lt_ge_cases n (List.length rows)) as [Hlt | Hge].
    + rewrite nth_error_app1 in H by (now rewrite colBlocks_length).
      now apply (colBlocks_nth rnd x y i rows).
    + rewrite nth_error_app2 in H by (now rewrite colBlocks_length).
      rewrite colBlocks_length in H.
      rewrite (IH _ _ _ H). f_equal. f_equal. lia.
Qed.

Lemma colBlocks_In rnd x y i rows :
  forall k b, In b (colBlocks rnd k x y i rows) ->
              bx b = x + i /\ exists j, In j rows /\ by_ b = y + j.
Proof.
  induction rows as [| j rows IH]; intros k b H; simpl in H; [destruct H |].
  destruct H as [<- | H].
  - simpl. split; [reflexivity |]. exists j. split; [now left | reflexivity].
  - destruct (IH _ _ H) as (Hx & j' & Hj & Hy).
    split; [exact Hx |]. exists j'. split; [now right | exact Hy].
Qed.

Lemma gridBlocks_In rnd x y cols rows :
  forall k b, In b (gridBlocks rnd k x y cols rows) ->
              exists i j, In i cols /\ In j rows /\ bx b = x + i /\ by_ b = y + j.
Proof.
  induction cols as [| i cols IH]; intros k b H; simpl in H; [destruct H |].
  apply in_app_or in H. destruct H as [H | H].
  - destruct (colBlocks_In _ _ _ _ _ _ _ H) as (Hx & j & Hj & Hy).
    exists i, j. repeat split; try assumption. now left.
  - destruct (IH _ _ H) as (i' & j & Hi & Hj & Hx & Hy).
    exists i', j. repeat split; try assumption. now right.
Qed.

Lemma colBlocks_has rnd x y i rows :
  forall k j, In j rows ->
              exists b, In b (colBlocks rnd k x y i rows) /\ bx b = x + i /\ by_ b = y + j.
Proof.
  induction rows as [| j0 rows IH]; intros k j H; [destruct H |].
  destruct H as [<- | H].
  - eexists. split; [left; reflexivity |]. split; reflexivity.
  - destruct (IH (S k) j H) as (b & Hb & Hx & Hy).
    exists b. split; [right; exact Hb |]. split; assumption.
Qed.

Lemma gridBlocks_has rnd x y cols rows :
  forall k i j, In i cols -> In j rows ->
                exists b, In b (gridBlocks rnd k x y cols rows) /\
                          bx b = x + i /\ by_ b = y + j.
Proof.
  induction cols as [| i0 cols IH]; intros k i j Hi Hj; [destruct Hi |].
  destruct Hi as [<- | Hi]; simpl.
  - destruct (colBlocks_has rnd x y i0 rows k j Hj) as (b & Hb & Hx & Hy).
    exists b. split; [apply in_or_app; left; exact Hb |]. split; assumption.
  - destruct (IH (k + List.length rows)%nat i j Hi Hj) as (b & Hb & Hx & Hy).
    exists b. split; [apply in_or_app; right; exact Hb |]. split; assumption.
Qed.

(** What the loops of [drawMosaic] amount to. *)
Lemma col_paint rnd x y i rows :
  forall k,
    forEach rows (fun j => Renderer.mosaicBlock x y 10 i j) rnd k
    = Some (tt, blockCmds (colBlocks rnd k x y i rows), (k + List.length rows)%nat).
Proof.
  induction rows as [| j rows IH]; intros k; cbn [forEach colBlocks].
  - unfold ret. cbn. now rewrite Nat.add_0_r.
  - unfold bind at 1. unfold Renderer.mosaicBlock at 1.
    unfold bind, random, emit. cbn [app]. rewrite IH. cbn.
    f_equal. f_equal. lia.
Qed.

Lemma grid_paint rnd x y cols rows :
  forall k,
    forEach cols (fun i => forEach rows (fun j => Renderer.mosaicBlock x y 10 i j)) rnd k
    = Some (tt, blockCmds (gridBlocks rnd k x y cols rows),
            (k + List.length cols * List.length rows)%nat).
Proof.
  induction cols as [| i cols IH]; intros k; cbn [forEach gridBlocks].
  - unfold ret. cbn. now rewrite Nat.add_0_r.
  - unfold bind. rewrite col_paint, IH.
    unfold blockCmds. rewrite flat_map_app. cbn [List.length].
    f_equal. f_equal. lia.
Qed.

Lemma forEach_ext {A : Type} (l : list A) (f g : A -> Paint unit) :
  (forall a rnd k, f a rnd k = g a rnd k) ->
  forall rnd k, forEach l f rnd k = forEach l g rnd k.
Proof.
  intros Hfg. induction l as [| a l IH]; intros rnd k; cbn [forEach]; [reflexivity |].
  unfold bind. rewrite Hfg. destruct (g a rnd k) as [[[u out] k1] |]; [| reflexivity].
  now rewrite IH.
Qed.

Lemma drawMosaic_blocks (from to : Point.t) (rnd : nat -> Q) :
  Renderer.drawMosaic from to rnd O
  = Some (tt, blockCmds (mosaicBlocks rnd from to),
          List.length (mosaicBlocks rnd from to)).
Proof.
  unfold Renderer.drawMosaic, mosaicBlocks. cbv zeta.
  rewrite forStep_forEach.
  rewrite (forEach_ext _ _
             (fun i => forEach (steps (Z.to_nat (Z.abs (Point.y to - Point.y from))) 0
                                      (Z.abs (Point.y to - Point.y from)) 10)
                               (fun j => Renderer.mosaicBlock
                                           (Z.min (Point.x from) (Point.x to))
                                           (Z.min (Point.y from) (Point.y to)) 10 i j)))
    by (intros; apply forStep_forEach).
  rewrite grid_paint, gridBlocks_length. reflexivity.
Qed.

End MosaicFacts.

Section MosaicPixels.

Variable rasterise : Canvas.Ctx -> Cmd -> Canvas.Raster.

Lemma execAll_app (ctx : Canvas.Ctx) (cs1 cs2 : list Cmd) :
  Canvas.execAll rasterise ctx (cs1 ++ cs2)
  = Canvas.execAll rasterise (Canvas.execAll rasterise ctx cs1) cs2.
Proof. unfold Canvas.execAll. apply fold_left_app. Qed.

Lemma inRect_true (x y w h px py : Z) :
  Canvas.inRect x y w h px py = true <-> x <= px < x + w /\ y <= py < y + h.
Proof.
  unfold Canvas.inRect. rewrite !andb_true_iff, !Z.leb_le, !Z.ltb_lt. lia.
Qed.

(** The pixels after painting a list of blocks: the colour of a block that
    covers the pixel, or the colour there was. *)
Lemma exec_blocks (bs : list Block) :
  forall (ctx : Canvas.Ctx) (px py : Z),
    let ctx' := Canvas.execAll rasterise ctx (blockCmds bs) in
    Canvas.width ctx' = Canvas.width ctx /\
    Canvas.height ctx' = Canvas.height ctx /\
    ((exists b, In b bs /\ covers b px py /\ onCanvas ctx px py /\
                Canvas.pixels ctx' px py
                = Canvas.RGBA (Canvas.clamp255 (gray b)) (Canvas.clamp255 (gray b))
                              (Canvas.clamp255 (gray b)) 255) \/
     ((forall b, In b bs -> ~ (covers b px py /\ onCanvas ctx px py)) /\
      Canvas.pixels ctx' px py = Canvas.pixels ctx px py)).
Proof.
  induction bs as [| b bs IH]; intros ctx px py ctx'.
  - split; [reflexivity |]. split; [reflexivity |]. right.
    split; [intros b [] | reflexivity].
  - unfold ctx'. change (blockCmds (b :: bs))
      with ([SetFillStyle (Rgb (gray b) (gray b) (gray b));
             FillRect (bx b) (by_ b) 10 10] ++ blockCmds bs).
    rewrite execAll_app.
    set (ctx1 := Canvas.execAll rasterise ctx
                   [SetFillStyle (Rgb (gray b) (gray b) (gray b));
                    FillRect (bx b) (by_ b) 10 10]).
    assert (Hw1 : Canvas.width ctx1 = Canvas.width ctx) by reflexivity.
    assert (Hh1 : Canvas.height ctx1 = Canvas.height ctx) by reflexivity.
    assert (Hp1 : Canvas.pixels ctx1 px py
                  = if Canvas.inRect 0 0 (Canvas.width ctx) (Canvas.height ctx) px py
                       && Canvas.inRect (bx b) (by_ b) 10 10 px py
                    then Canvas.RGBA (Canvas.clamp255 (gray b)) (Canvas.clamp255 (gray b))
                                     (Canvas.clamp255 (gray b)) 255
                    else Canvas.pixels ctx px py) by reflexivity.
    destruct (IH ctx1 px py) as (Hw & Hh & Hpix).
    split; [now rewrite Hw |]. split; [now rewrite Hh |].
    unfold onCanvas in *. rewrite Hw1, Hh1 in Hpix.
    destruct Hpix as [(b' & Hin & Hcov & Hon & Hpx) | [Hnone Hpx]].
    + left. exists b'. split; [now right |]. auto.
    + rewrite Hpx, Hp1.
      destruct (Canvas.inRect 0 0 (Canvas.width ctx) (Canvas.height ctx) px py
                && Canvas.inRect (bx b) (by_ b) 10 10 px py) eqn:E.
      * left. exists b. apply andb_true_iff in E. destruct E as [E1 E2].
        apply inRect_true in E1. apply inRect_true in E2.
        split; [now left |]. split; [exact E2 |]. split; [lia | reflexivity].
      * right. split; [| reflexivity].
        intros b0 [<- | Hin]; [| now apply Hnone].
        intros [Hcov Hon]. apply andb_false_iff in E.
        destruct E as [E | E]; apply not_true_iff_false in E; apply E;
          apply inRect_true; [lia | exact Hcov].
Qed.

End MosaicPixels.

Section MosaicGeometry.

Lemma In_nth_gray rnd x y cols rows (b : Block) :
  In b (gridBlocks rnd O x y cols rows) -> exists n, gray b = grayOf (rnd n).
Proof.
  intros Hin. apply In_nth_error in Hin. destruct Hin as [n Hn].
  exists n. now apply (gridBlocks_nth rnd x y cols rows O n b).
Qed.

(** The multiple of 10 at or below [d] is a value of the loop variable
    when [d] is within the tiled length. *)
Lemma tile_step (w d : Z) :
  0 <= w -> 0 <= d < 10 * ceil10 w ->
  In (10 * (d / 10)) (steps (Z.to_nat w) 0 w 10) /\
  10 * (d / 10) <= d < 10 * (d / 10) + 10.
Proof.
  unfold ceil10. intros Hw Hd.
  pose proof (Z.div_mod d 10 ltac:(lia)) as Hdm.
  pose proof (Z.mod_pos_bound d 10 ltac:(lia)) as Hdb.
  pose proof (Z.div_mod (w + 9) 10 ltac:(lia)) as Hwm.
  pose proof (Z.mod_pos_bound (w + 9) 10 ltac:(lia)) as Hwb.
  split; [| lia].
  apply steps_In; [lia | lia |].
  split; [lia |].
  rewrite Z.sub_0_r, Z.mul_comm. apply Z.mod_mul. lia.
Qed.

(** A value of the loop variable stays within the tiled length. *)
Lemma step_in_tile (w i : Z) :
  0 <= w -> In i (steps (Z.to_nat w) 0 w 10) ->
  0 <= i /\ i + 10 <= 10 * ceil10 w.
Proof.
  unfold ceil10. intros Hw Hin.
  apply steps_In in Hin; [| lia | lia]. destruct Hin as [Hr Hm].
  rewrite Z.sub_0_r in Hm.
  pose proof (Z.div_mod i 10 ltac:(lia)) as Him.
  pose proof (Z.div_mod (w + 9) 10 ltac:(lia)) as Hwm.
  pose proof (Z.mod_pos_bound (w + 9) 10 ltac:(lia)) as Hwb.
  split; [lia |].
  assert (i / 10 < (w + 9) / 10); [| lia].
  apply Z.div_lt_upper_bound; [lia |]. 
  assert ((w + 9) / 10 * 10 >= w) by lia. lia.
Qed.

End MosaicGeometry.

Section MosaicMain.

Lemma box_abs_nonneg (from to : Point.t) : 0 <= boxW from to /\ 0 <= boxH from to.
Proof. unfold boxW, boxH. lia. Qed.

(** Every pixel of the tiled box is covered by a block, and every block
    covers pixels of the tiled box only. *)
Lemma mosaicBlocks_cover (rnd : nat -> Q) (from to : Point.t) (px py : Z) :
  (inTiledBox from to px py ->
   exists b, In b (mosaicBlocks rnd from to) /\ covers b px py) /\
  (forall b, In b (mosaicBlocks rnd from to) -> covers b px py ->
             inTiledBox from to px py).
Proof.
  destruct (box_abs_nonneg from to) as [Hw Hh].
  unfold inTiledBox, mosaicBlocks, covers. cbv zeta.
  fold (boxW from to) (boxH from to) (boxX from to) (boxY from to).
  split.
  - intros [Hx Hy].
    destruct (tile_step (boxW from to) (px - boxX from to) Hw ltac:(lia)) as [Hi Hir].
    destruct (tile_step (boxH from to) (py - boxY from to) Hh ltac:(lia)) as [Hj Hjr].
    destruct (gridBlocks_has rnd (boxX from to) (boxY from to) _ _ O _ _ Hi Hj)
      as (b & Hb & Hbx & Hby).
    exists b. split; [exact Hb |]. rewrite Hbx, Hby. lia.
  - intros b Hb [Hcx Hcy].
    destruct (gridBlocks_In _ _ _ _ _ _ _ Hb) as (i & j & Hi & Hj & Hbx & Hby).
    apply (step_in_tile _ _ Hw) in Hi. apply (step_in_tile _ _ Hh) in Hj.
    rewrite Hbx in Hcx. rewrite Hby in Hcy. lia.
Qed.

End MosaicMain.

(** X10. A mosaic over a box [w] wide and [h] high paints exactly
    [ceil (w/10) * ceil (h/10)] blocks of 10 by 10, two calls per block, and
    draws [Math.random] exactly once per block, the [n]-th block taking the
    [n]-th draw; so a box of zero width or zero height paints nothing and
    draws nothing. *)
Theorem X10_mosaic_blocks_and_draws :
  forall (from to : Point.t) (rnd : nat -> Q),
    let bs := mosaicBlocks rnd from to in
    Renderer.drawMosaic from to rnd O = Some (tt, blockCmds bs, List.length bs) /\
    List.length (blockCmds bs) = (2 * List.length bs)%nat /\
    Z.of_nat (List.length bs) = ceil10 (boxW from to) * ceil10 (boxH from to) /\
    (forall n b, nth_error bs n = Some b -> gray b = grayOf (rnd n)) /\
    (boxW from to = 0 \/ boxH from to = 0 ->
     Renderer.drawMosaic from to rnd O = Some (tt, [], O)).
Proof.
  intros from to rnd bs.
  destruct (box_abs_nonneg from to) as [Hw Hh].
  assert (Hlen : Z.of_nat (List.length bs) = ceil10 (boxW from to) * ceil10 (boxH from to)).
  { unfold bs, mosaicBlocks. cbv zeta. rewrite gridBlocks_length.
    rewrite !steps_length by lia. rewrite !Z.sub_0_r.
    fold (boxW from to) (boxH from to).
    assert (0 <= ceil10 (boxW from to)) by (apply Z.div_pos; lia).
    assert (0 <= ceil10 (boxH from to)) by (apply Z.div_pos; lia).
    rewrite Nat2Z.inj_mul, !Z2Nat.id by assumption. reflexivity. }
  split; [apply drawMosaic_blocks |].
  split; [| split; [exact Hlen | split]].
  - unfold blockCmds. clear Hlen. induction bs as [| b l IH]; [reflexivity |].
    cbn [flat_map app List.length]. rewrite IH. lia.
  - intros n b Hn. apply (gridBlocks_nth rnd _ _ _ _ O n b Hn).
  - intros Hzero. rewrite drawMosaic_blocks. fold bs.
    assert (Hnil : bs = []).
    { apply length_zero_iff_nil.
      assert (ceil10 0 = 0) by reflexivity.
      destruct Hzero as [E | E]; rewrite E in Hlen; lia. }
    now rewrite Hnil.
Qed.

(** X11. A mosaic hides what is under its box: when every draw of
    [Math.random] is in [0, 1), after the calls of [drawMosaic] every
    pixel of the canvas inside the bounding box of the two points is an
    opaque gray [(g, g, g)] with [100 <= g < 200], whatever the canvas held
    before. *)
Theorem X11_mosaic_hides_box :
  forall (rasterise : Canvas.Ctx -> Cmd -> Canvas.Raster) (ctx : Canvas.Ctx)
         (from to : Point.t) (rnd : nat -> Q) (px py : Z),
    (forall n, (0 <= rnd n)%Q /\ (rnd n < 1)%Q) ->
    onCanvas ctx px py ->
    Z.min (Point.x from) (Point.x to) <= px < Z.max (Point.x from) (Point.x to) ->
    Z.min (Point.y from) (Point.y to) <= py < Z.max (Point.y from) (Point.y to) ->
    exists cs g,
      calls (Renderer.drawMosaic from to) rnd = Some cs /\
      100 <= g < 200 /\
      Canvas.pixels (Canvas.execAll rasterise ctx cs) px py = Canvas.RGBA g g g 255.
Proof.
  intros rasterise ctx from to rnd px py Hrnd Hon Hx Hy.
  exists (blockCmds (mosaicBlocks rnd from to)).
  assert (Hcalls : calls (Renderer.drawMosaic from to) rnd
                   = Some (blockCmds (mosaicBlocks rnd from to))).
  { unfold calls. now rewrite drawMosaic_blocks. }
  assert (Htile : inTiledBox from to px py).
  { unfold inTiledBox, boxX, boxY, boxW, boxH, ceil10.
    pose proof (Z.div_mod (Z.abs (Point.x to - Point.x from) + 9) 10 ltac:(lia)).
    pose proof (Z.mod_pos_bound (Z.abs (Point.x to - Point.x from) + 9) 10 ltac:(lia)).
    pose proof (Z.div_mod (Z.abs (Point.y to - Point.y from) + 9) 10 ltac:(lia)).
    pose proof (Z.mod_pos_bound (Z.abs (Point.y to - Point.y from) + 9) 10 ltac:(lia)).
    lia. }
  destruct (proj1 (mosaicBlocks_cover rnd from to px py) Htile) as (b0 & Hb0 & Hc0).
  destruct (exec_blocks rasterise (mosaicBlocks rnd from to) ctx px py)
    as (_ & _ & [(b & Hb & _ & _ & Hpx) | [Hnone _]]).
  - destruct (In_nth_gray rnd _ _ _ _ b Hb) as [n Hg].
    destruct (Hrnd n) as [H0 H1].
    pose proof (grayOf_range (rnd n) H0 H1) as Hrange.
    exists (gray b). split; [exact Hcalls |]. split; [lia |].
    rewrite Hpx. unfold Canvas.clamp255.
    replace (Z.max 0 (Z.min 255 (gray b))) with (gray b) by lia. reflexivity.
  - exfalso. apply (Hnone b0 Hb0). split; assumption.
Qed.

(** X11 on a canvas of 200 by 100, for the box of (5,5) and (30,-10), at
    pixel (29, 0), with every draw equal to 1/2. *)
Lemma X11_mosaic_hides_box_witness :
  (forall n, (0 <= rndHalf n)%Q /\ (rndHalf n < 1)%Q) /\
  onCanvas (Canvas.create 200 100) 29 0 /\
  exists cs g,
    calls (Renderer.drawMosaic (Point.mk 5 5) (Point.mk 30 (-10))) rndHalf = Some cs /\
    100 <= g < 200 /\
    Canvas.pixels (Canvas.execAll (fun c _ => Canvas.pixels c) (Canvas.create 200 100) cs)
                  29 0
    = Canvas.RGBA g g g 255.
Proof.
  assert (Hrnd : forall n, (0 <= rndHalf n)%Q /\ (rndHalf n < 1)%Q).
  { intros n. unfold rndHalf. split; [discriminate | reflexivity]. }
  assert (Hon : onCanvas (Canvas.create 200 100) 29 0).
  { unfold onCanvas; cbn; lia. }
  split; [exact Hrnd |]. split; [exact Hon |].
  apply (X11_mosaic_hides_box (fun c _ => Canvas.pixels c) (Canvas.create 200 100)
           (Point.mk 5 5) (Point.mk 30 (-10)) rndHalf 29 0 Hrnd Hon); cbn; lia.
Defined.

(** X12. The exact footprint of a mosaic: the calls of [drawMosaic] change
    a pixel of the canvas if and only if it lies in the box widened and
    heightened to whole blocks of 10, that is
    [x <= px < x + 10 ceil (w/10)] and [y <= py < y + 10 ceil (h/10)]; every
    other pixel keeps its colour.  So a box whose width is not a multiple
    of 10 is overpainted on its right by up to 9 pixels: the pixel column
    at [x + w], just outside the box, is painted. *)
Theorem X12_mosaic_footprint :
  forall (rasterise : Canvas.Ctx -> Cmd -> Canvas.Raster) (ctx : Canvas.Ctx)
         (from to : Point.t) (rnd : nat -> Q) (px py : Z),
    let ctx' := Canvas.execAll rasterise ctx (blockCmds (mosaicBlocks rnd from to)) in
    calls (Renderer.drawMosaic from to) rnd = Some (blockCmds (mosaicBlocks rnd from to)) /\
    (~ (onCanvas ctx px py /\ inTiledBox from to px py) ->
     Canvas.pixels ctx' px py = Canvas.pixels ctx px py) /\
    (onCanvas ctx px py /\ inTiledBox from to px py ->
     exists n,
       Canvas.pixels ctx' px py
       = Canvas.RGBA (Canvas.clamp255 (grayOf (rnd n))) (Canvas.clamp255 (grayOf (rnd n)))
                     (Canvas.clamp255 (grayOf (rnd n))) 255) /\
    (boxW from to mod 10 <> 0 -> 0 < boxH from to ->
     inTiledBox from to (boxX from to + boxW from to) (boxY from to)).
Proof.
  intros rasterise ctx from to rnd px py ctx'.
  destruct (box_abs_nonneg from to) as [Hw Hh].
  split; [unfold calls; now rewrite drawMosaic_blocks |].
  destruct (exec_blocks rasterise (mosaicBlocks rnd from to) ctx px py)
    as (_ & _ & Hpix). fold ctx' in Hpix.
  destruct (mosaicBlocks_cover rnd from to px py) as [Hcov1 Hcov2].
  split; [| split].
  - intros Hout. destruct Hpix as [(b & Hb & Hc & Hon & _) | [_ Hpx]]; [| exact Hpx].
    exfalso. apply Hout. split; [exact Hon | now apply (Hcov2 b)].
  - intros [Hon Htile]. destruct Hpix as [(b & Hb & _ & _ & Hpx) | [Hnone _]].
    + destruct (In_nth_gray rnd _ _ _ _ b Hb) as [n Hg].
      exists n. now rewrite Hpx, Hg.
    + exfalso. destruct (Hcov1 Htile) as (b & Hb & Hc).
      apply (Hnone b Hb). split; assumption.
  - intros Hmod Hpos. unfold inTiledBox, ceil10.
    pose proof (Z.div_mod (boxW from to) 10 ltac:(lia)) as H1.
    pose proof (Z.mod_pos_bound (boxW from to) 10 ltac:(lia)) as H2.
    pose proof (Z.div_mod (boxW from to + 9) 10 ltac:(lia)) as H3.
    pose proof (Z.mod_pos_bound (boxW from to + 9) 10 ltac:(lia)) as H4.
    pose proof (Z.div_mod (boxH from to + 9) 10 ltac:(lia)) as H5.
    pose proof (Z.mod_pos_bound (boxH from to + 9) 10 ltac:(lia)) as H6.
    assert (boxW from to / 10 < (boxW from to + 9) / 10).
    { apply Z.div_lt_upper_bound; lia. }
    lia.
Qed.

(** ** Preview and export *)

(** X13. The editor's [drawAnnotation] (live preview) and the loop body of
    [confirm] (export) make the same calls and the same draws for every
    annotation but one kind: a text annotation that has a text and no
    point, on which the preview sets the three styles and paints nothing,
    while the export throws.  Hence on a list without such an annotation
    the preview of the list and its export paint the same. *)
Theorem X13_preview_and_export_agree :
  (forall (a : Annotation.t) (rnd : nat -> Q) (k : nat),
     (Renderer.drawAnnotation a rnd k = Compositor.paintAnnotation a rnd k
      <-> ~ textWithoutPoint a) /\
     (textWithoutPoint a ->
      Renderer.drawAnnotation a rnd k = Some (tt, styleCalls a, k) /\
      Compositor.paintAnnotation a rnd k = None)) /\
  (forall (annotations : list Annotation.t),
     (forall a, In a annotations -> ~ textWithoutPoint a) ->
     forall (rnd : nat -> Q) (k : nat),
       forEach annotations Renderer.drawAnnotation rnd k
       = forEach annotations Compositor.paintAnnotation rnd k).
Proof.
  assert (Hbad : forall a rnd k, textWithoutPoint a ->
             Renderer.drawAnnotation a rnd k = Some (tt, styleCalls a, k) /\
             Compositor.paintAnnotation a rnd k = None).
  { intros a rnd k (Hty & Htr & Hpts).
    unfold Renderer.drawAnnotation, Compositor.paintAnnotation.
    rewrite Hty, Hpts.
    destruct (Annotation.text a) as [t |]; [| discriminate Htr].
    rewrite Htr. split; reflexivity. }
  assert (Hgood : forall a rnd k, ~ textWithoutPoint a ->
             Renderer.drawAnnotation a rnd k = Compositor.paintAnnotation a rnd k).
  { intros a rnd k Hn.
    unfold Renderer.drawAnnotation, Compositor.paintAnnotation.
    destruct (Annotation.type a) eqn:Ety; try reflexivity.
    destruct (Annotation.text a) as [t |] eqn:Etx;
      [| destruct (Annotation.points a); reflexivity].
    destruct (truthy (Some t)) eqn:Etr;
      [| destruct (Annotation.points a); reflexivity].
    destruct (Annotation.points a) as [| p0 ps] eqn:Epts; [| reflexivity].
    exfalso. apply Hn. unfold textWithoutPoint. rewrite Etx. auto. }
  split.
  - intros a rnd k. split; [split |].
    + intros Heq Hb. destruct (Hbad a rnd k Hb) as [H1 H2].
      rewrite H1, H2 in Heq. discriminate Heq.
    + apply Hgood.
    + apply Hbad.
  - intros anns. induction anns as [| a rest IH]; intros Hall rnd k;
      cbn [forEach]; [reflexivity |].
    unfold bind. rewrite (Hgood a rnd k (Hall a (or_introl eq_refl))).
    destruct (Compositor.paintAnnotation a rnd k) as [[[u out] k1] |]; [| reflexivity].
    now rewrite (IH (fun b Hb => Hall b (or_intror Hb)) rnd k1).
Qed.

(** ** Arrow heads *)

Section ArrowDirection.

Local Open Scope R_scope.

Lemma drawArrow_calls (p0 p1 : Point.t) (rnd : nat -> Q) :
  calls (Renderer.drawArrow p0 p1) rnd = Some (specArrow (toR p0) (toR p1)).
Proof.
  unfold specArrow, specWing, toR, Renderer.drawArrow; simpl.
  rewrite !minus_IZR. reflexivity.
Qed.

Lemma norm_pos (x y : R) : x <> 0 \/ y <> 0 -> 0 < sqrt (x * x + y * y).
Proof. intros H. apply sqrt_lt_R0. destruct H; nra. Qed.

Lemma norm_scaled (x t : R) :
  0 < x -> sqrt (x * x + (t * x) * (t * x)) = x * sqrt (1 + t²).
Proof.
  intros Hx. replace (x * x + t * x * (t * x)) with (x² * (1 + t²)) by (unfold Rsqr; ring).
  rewrite sqrt_mult_alt by apply Rle_0_sqr.
  now rewrite sqrt_Rsqr by lra.
Qed.

Lemma sqrt_1_plus_sqr_pos (t : R) : 0 < sqrt (1 + t²).
Proof. apply sqrt_lt_R0. pose proof (Rle_0_sqr t). lra. Qed.

(** [atan2 y x] is the direction of the vector [(x, y)]. *)
Lemma atan2_direction (x y : R) :
  x <> 0 \/ y <> 0 ->
  cos (atan2 y x) * sqrt (x * x + y * y) = x /\
  sin (atan2 y x) * sqrt (x * x + y * y) = y.
Proof.
  intros Hnz. unfold atan2.
  destruct (Rlt_dec 0 x) as [Hpos | Hnpos].
  - set (t := y / x). assert (Htx : t * x = y) by (unfold t; field; lra).
    clearbody t.
    assert (Hnorm : sqrt (x * x + y * y) = x * sqrt (1 + t²)).
    { rewrite <- Htx. now apply norm_scaled. }
    rewrite Hnorm. pose proof (sqrt_1_plus_sqr_pos t) as Hs.
    assert (Hc : cos (atan t) * sqrt (1 + t²) = 1)
      by (rewrite cos_atan; field; lra).
    assert (Hsn : sin (atan t) * sqrt (1 + t²) = t)
      by (rewrite sin_atan; field; lra).
    split; nra.
  - destruct (Rlt_dec x 0) as [Hneg | Hnneg].
    + set (t := y / x). assert (Htx : t * x = y) by (unfold t; field; lra).
      clearbody t.
      assert (Hnorm : sqrt (x * x + y * y) = (- x) * sqrt (1 + t²)).
      { rewrite <- Htx. replace (x * x) with ((- x) * (- x)) by ring.
        replace (t * x * (t * x)) with ((- t) * (- x) * ((- t) * (- x))) by ring.
        rewrite norm_scaled by lra. now rewrite <- Rsqr_neg. }
      rewrite Hnorm. pose proof (sqrt_1_plus_sqr_pos t) as Hs.
      assert (Hc : cos (atan t) * sqrt (1 + t²) = 1)
        by (rewrite cos_atan; field; lra).
      assert (Hsn : sin (atan t) * sqrt (1 + t²) = t)
        by (rewrite sin_atan; field; lra).
      destruct (Rle_dec 0 y) as [Hy0 | Hy0].
      * rewrite neg_cos, neg_sin. split; nra.
      * rewrite cos_minus, sin_minus, cos_PI, sin_PI. split; nra.
    + assert (Hx0 : x = 0) by lra. subst x.
      assert (Hy0 : y <> 0) by (destruct Hnz; [lra | assumption]).
      replace (0 * 0 + y * y) with (y²) by (unfold Rsqr; ring).
      destruct (Rlt_dec 0 y) as [Hyp | Hynp].
      * rewrite sqrt_Rsqr by lra. rewrite cos_PI2, sin_PI2. split; ring.
      * destruct (Rlt_dec y 0) as [Hyn | Hynn]; [| lra].
        rewrite Rsqr_neg, sqrt_Rsqr by lra.
        rewrite cos_neg, sin_neg, cos_PI2, sin_PI2. split; ring.
Qed.

End ArrowDirection.

(** X14. The head of an arrow points along the arrow.  For two distinct
    points [p0], [p1] at distance [d], the two wings [w1], [w2] that
    [drawArrow] draws are mirror images in the line of the shaft: their
    midpoint lies on the shaft, [15 cos (pi/6)] back from the tip towards
    [p0], the segment joining them is perpendicular to the shaft, and they
    are 15 apart. *)
Theorem X14_arrow_head_along_shaft :
  forall (p0 p1 : Point.t) (rnd : nat -> Q),
    p0 <> p1 ->
    let dx := (IZR (Point.x p1) - IZR (Point.x p0))%R in
    let dy := (IZR (Point.y p1) - IZR (Point.y p0))%R in
    let d := sqrt (dx * dx + dy * dy) in
    exists w1 w2 : R * R,
      calls (Renderer.drawArrow p0 p1) rnd
        = Some (arrowCalls (toR p0) (toR p1) w1 w2) /\
      (0 < d)%R /\
      (((fst w1 + fst w2) / 2 - IZR (Point.x p1)) * d = - (15 * cos (PI / 6)) * dx)%R /\
      (((snd w1 + snd w2) / 2 - IZR (Point.y p1)) * d = - (15 * cos (PI / 6)) * dy)%R /\
      ((fst w1 - fst w2) * dx + (snd w1 - snd w2) * dy = 0)%R /\
      ((fst w1 - fst w2) ^ 2 + (snd w1 - snd w2) ^ 2 = 15 ^ 2)%R.
Proof.
  intros p0 p1 rnd Hne dx dy d.
  assert (Hnz : dx <> 0%R \/ dy <> 0%R).
  { destruct p0 as [x0 y0], p1 as [x1 y1]. unfold dx, dy; cbn.
    destruct (Z.eq_dec x0 x1) as [Ex | Ex].
    - right. intros H. apply Hne. f_equal; [exact Ex |].
      apply eq_IZR. lra.
    - left. intros H. apply Ex. apply eq_IZR. lra. }
  pose proof (norm_pos dx dy Hnz) as Hd. fold d in Hd.
  destruct (atan2_direction dx dy Hnz) as [Hc Hs]. fold d in Hc, Hs.
  set (theta := atan2 dy dx) in *.
  exists (specWing (toR p1) theta (- (PI / 6))), (specWing (toR p1) theta (PI / 6)).
  split; [apply drawArrow_calls |]. split; [exact Hd |].
  unfold specWing, toR; cbn [fst snd].
  rewrite !cos_plus, !sin_plus, cos_neg, sin_neg, sin_PI6.
  pose proof (sin2_cos2 theta) as Hpyth. unfold Rsqr in Hpyth.
  clearbody theta d. clearbody dx dy.
  rewrite <- Hc, <- Hs.
  split; [field |]. split; [field |]. split; [ring |].
  replace (15 ^ 2)%R with (15 ^ 2 * (sin theta * sin theta + cos theta * cos theta))%R
    by (rewrite Hpyth; ring).
  field.
Qed.

(** X14 on the arrow from (0,0) to (30,40), of length 50. *)
Lemma X14_arrow_head_along_shaft_witness :
  Point.mk 0 0 <> Point.mk 30 40 /\
  exists w1 w2 : R * R,
    calls (Renderer.drawArrow (Point.mk 0 0) (Point.mk 30 40)) rndZero
      = Some (arrowCalls (0%R, 0%R) (30%R, 40%R) w1 w2) /\
    ((fst w1 - fst w2) ^ 2 + (snd w1 - snd w2) ^ 2 = 15 ^ 2)%R.
Proof.
  assert (Hne : Point.mk 0 0 <> Point.mk 30 40) by discriminate.
  split; [exact Hne |].
  destruct (X14_arrow_head_along_shaft (Point.mk 0 0) (Point.mk 30 40) rndZero Hne)
    as (w1 & w2 & Hcalls & _ & _ & _ & _ & Hdist).
  exists w1, w2. split; [exact Hcalls | exact Hdist].
Defined.

(** X15. An arrow of length zero (both points equal, as after a drag that
    returns to its start) still gets a head of full size: the angle is
    [atan2(0, 0) = 0], so the head points to the right, with wings at
    [(x - 15 cos (pi/6), y + 7.5)] and [(x - 15 cos (pi/6), y - 7.5)]. *)
Theorem X15_zero_length_arrow_head :
  forall (p : Point.t) (rnd : nat -> Q),
    calls (Renderer.drawArrow p p) rnd
    = Some (arrowCalls (toR p) (toR p)
              ((IZR (Point.x p) - 15 * cos (PI / 6))%R, (IZR (Point.y p) + 7.5)%R)
              ((IZR (Point.x p) - 15 * cos (PI / 6))%R, (IZR (Point.y p) - 7.5)%R)).
Proof.
  intros p rnd. rewrite drawArrow_calls.
  unfold specArrow, arrowCalls, specWing, toR; cbn [fst snd].
  replace (IZR (Point.y p) - IZR (Point.y p))%R with 0%R by ring.
  replace (IZR (Point.x p) - IZR (Point.x p))%R with 0%R by ring.
  destruct (atan2_axes 1) as (_ & _ & _ & _ & H0); [lra |]. rewrite H0.
  rewrite !Rplus_0_l, cos_neg, sin_neg, sin_PI6.
  replace (IZR (Point.y p) - 15 * - (1 / 2))%R with (IZR (Point.y p) + 7.5)%R by lra.
  replace (IZR (Point.y p) - 15 * (1 / 2))%R with (IZR (Point.y p) - 7.5)%R by lra.
  reflexivity.
Qed.

(** ** Shortcut strings *)

Section ShortcutFacts.

Import Shortcut.

Lemma trimStart_head (s : JsString) (c : N) (r : JsString) :
  trimStart s = c :: r -> isWhiteSpace c = false.
Proof.
  induction s as [| a s IH]; cbn [trimStart]; [discriminate |].
  destruct (isWhiteSpace a) eqn:E; [exact IH |].
  intros [= <- _]. exact E.
Qed.

Lemma trimStart_fix (c : N) (r : JsString) :
  isWhiteSpace c = false -> trimStart (c :: r) = c :: r.
Proof. intros E. cbn [trimStart]. now rewrite E. Qed.

Lemma trimStart_idem (s : JsString) : trimStart (trimStart s) = trimStart s.
Proof.
  destruct (trimStart s) as [| c r] eqn:E; [reflexivity |].
  apply trimStart_fix. exact (trimStart_head s c r E).
Qed.

Lemma trimStart_suffix (s : JsString) : exists pre, s = pre ++ trimStart s.
Proof.
  induction s as [| a s [pre IH]]; [now exists [] |].
  cbn [trimStart]. destruct (isWhiteSpace a).
  - exists (a :: pre). cbn. now rewrite <- IH.
  - now exists [].
Qed.

Lemma trimEnd_prefix (s : JsString) : exists tl, s = trimEnd s ++ tl.
Proof.
  unfold trimEnd. destruct (trimStart_suffix (rev s)) as [pre E].
  exists (rev pre). rewrite <- rev_app_distr, <- E. now rewrite rev_involutive.
Qed.

Lemma trimEnd_idem (s : JsString) : trimEnd (trimEnd s) = trimEnd s.
Proof. unfold trimEnd. now rewrite rev_involutive, trimStart_idem. Qed.

Lemma trim_idem (s : JsString) : trim (trim s) = trim s.
Proof.
  unfold trim.
  assert (Hfix : trimStart (trimEnd (trimStart s)) = trimEnd (trimStart s)).
  { destruct (trimEnd (trimStart s)) as [| c r] eqn:E; [reflexivity |].
    apply trimStart_fix.
    destruct (trimEnd_prefix (trimStart s)) as [tl Htl]. rewrite E in Htl.
    exact (trimStart_head s c (r ++ tl) Htl). }
  rewrite Hfix. apply trimEnd_idem.
Qed.

Lemma In_trimStart (c : N) (s : JsString) : In c (trimStart s) -> In c s.
Proof.
  destruct (trimStart_suffix s) as [pre E]. intros H. rewrite E.
  apply in_or_app. now right.
Qed.

Lemma In_trim (c : N) (s : JsString) : In c (trim s) -> In c s.
Proof.
  unfold trim, trimEnd. intros H. apply In_trimStart.
  apply in_rev in H. apply In_trimStart in H. now apply in_rev in H.
Qed.

Lemma split_not_nil (sep : N) (s : JsString) : split sep s <> [].
Proof.
  induction s as [| c r IH]; cbn [split]; [discriminate |].
  destruct (c =? sep)%N; [discriminate |].
  destruct (split sep r); discriminate.
Qed.

Lemma split_no_sep (sep : N) (s : JsString) :
  forall t, In t (split sep s) -> ~ In sep t.
Proof.
  induction s as [| c r IH]; cbn [split]; intros t Ht.
  - destruct Ht as [<- | []]. intros [].
  - destruct (N.eqb_spec c sep) as [E | Hne].
    + destruct Ht as [<- | Ht]; [intros [] | now apply IH].
    + destruct (split sep r) as [| t0 ts] eqn:Es.
      * destruct Ht as [<- | []]. intros [E | []]. now apply Hne.
      * destruct Ht as [<- | Ht].
        -- intros [E | Hin]; [now apply Hne |].
           apply (IH t0); [now left | exact Hin].
        -- apply IH. now right.
Qed.

Lemma split_token (sep : N) (t : JsString) :
  ~ In sep t -> split sep t = [t].
Proof.
  induction t as [| c r IH]; intros Hn; cbn [split]; [reflexivity |].
  destruct (N.eqb_spec c sep) as [E | Hne]; [exfalso; apply Hn; now left |].
  rewrite IH by (intros H; apply Hn; now right). reflexivity.
Qed.

Lemma split_app_sep (sep : N) (t s : JsString) :
  ~ In sep t -> split sep (t ++ sep :: s) = t :: split sep s.
Proof.
  induction t as [| c r IH]; intros Hn; cbn [split app].
  - now rewrite N.eqb_refl.
  - destruct (N.eqb_spec c sep) as [E | Hne]; [exfalso; apply Hn; now left |].
    rewrite IH by (intros H; apply Hn; now right). reflexivity.
Qed.

(** Joining tokens without separator and splitting again gives the tokens. *)
Lemma split_join (sep : N) (ts : list JsString) :
  ts <> [] -> (forall t, In t ts -> ~ In sep t) ->
  split sep (join sep ts) = ts.
Proof.
  induction ts as [| t rest IH]; intros Hne Hall; [congruence |].
  destruct rest as [| t' rest'].
  - cbn [join]. apply split_token. apply Hall. now left.
  - change (join sep (t :: t' :: rest')) with (t ++ sep :: join sep (t' :: rest')).
    rewrite split_app_sep by (apply Hall; now left).
    rewrite IH; [reflexivity | discriminate |].
    intros u Hu. apply Hall. now right.
Qed.

Lemma tokens_clean (s : JsString) :
  Forall clean (filter nonEmpty (map trim (split plus s))).
Proof.
  apply Forall_forall. intros t Ht.
  apply filter_In in Ht. destruct Ht as [Hin Hne].
  apply in_map_iff in Hin. destruct Hin as (u & <- & Hu).
  split; [destruct (trim u); [discriminate Hne | discriminate] |].
  split; [| apply trim_idem].
  intros Hp. apply In_trim in Hp. exact (split_no_sep plus s u Hu Hp).
Qed.

(** Clean tokens joined by ['+'] are left as they are. *)
Lemma normalized_join (ts : list JsString) :
  Forall clean ts -> normalized (join plus ts) = join plus ts.
Proof.
  intros Hall. unfold normalized.
  destruct ts as [| t rest]; [reflexivity |].
  rewrite split_join; [| discriminate |].
  - assert (Hmap : map trim (t :: rest) = t :: rest).
    { rewrite <- (map_id (t :: rest)) at 2. apply map_ext_in.
      intros u Hu. rewrite Forall_forall in Hall. apply (Hall u Hu). }
    rewrite Hmap.
    assert (Hfil : filter nonEmpty (t :: rest) = t :: rest).
    { apply forallb_filter_id. apply forallb_forall. intros u Hu.
      rewrite Forall_forall in Hall. destruct (Hall u Hu) as [Hne _].
      destruct u; [congruence | reflexivity]. }
    now rewrite Hfil.
  - intros u Hu. rewrite Forall_forall in Hall. apply (Hall u Hu).
Qed.

Lemma modifiers_clean : Forall clean modifiers.
Proof.
  repeat constructor; try discriminate; try reflexivity;
    intros H; cbn in H; repeat (destruct H as [H | H]; [discriminate H |]);
    exact H.
Qed.

Lemma modifierTokens_clean (e : KeyboardEvent) : Forall clean (modifierTokens e).
Proof.
  pose proof modifiers_clean as H.
  inversion H as [| ? ? Hc H1]; subst. inversion H1 as [| ? ? Hs H2]; subst.
  inversion H2 as [| ? ? Ha H3]; subst. inversion H3 as [| ? ? Hm _]; subst.
  unfold modifierTokens.
  destruct (ctrlKey e), (shiftKey e), (altKey e), (metaKey e); cbn [app];
    repeat (first [apply Forall_nil | apply Forall_cons; [assumption |]]).
Qed.

End ShortcutFacts.

Section ChordFacts.

Import Shortcut.

Lemma chord_split (up : JsString -> JsString) (e : KeyboardEvent) :
  exists kp, chord up e = modifierTokens e ++ kp /\
             (kp = [] \/ kp = [up (key e)]).
Proof.
  unfold chord, modifierTokens.
  set (c := negb (jsEqb (key e) (lit "Control")) && negb (jsEqb (key e) (lit "Shift"))
            && negb (jsEqb (key e) (lit "Alt")) && negb (jsEqb (key e) (lit "Meta"))).
  exists (if c then [up (key e)] else []).
  split; [now rewrite <- !app_assoc | destruct c; auto].
Qed.

Lemma modifierTokens_head (e : KeyboardEvent) :
  modifierTokens e = [] \/
  exists m rest, modifierTokens e = m :: rest /\ In m modifiers.
Proof.
  unfold modifierTokens, modifiers.
  destruct (ctrlKey e), (shiftKey e), (altKey e), (metaKey e); cbn [app];
    first [left; reflexivity | right; eexists; eexists; split; [reflexivity |]; cbn [In]; auto].
Qed.

End ChordFacts.

(** X16. The string that [applyGlobalShortcut] registers is normal:
    normalising is idempotent, and the result is the join by ['+'] of the
    trimmed non-empty parts of the shortcut, each of which has no ['+'] and
    no white space at its ends; splitting the result on ['+'] gives these
    parts back, unless there is none and the result is the empty string. *)
Theorem X16_registered_shortcut_normal :
  forall s : Shortcut.JsString,
    let parts := filter Shortcut.nonEmpty
                   (map Shortcut.trim (Shortcut.split Shortcut.plus s)) in
    Shortcut.normalized (Shortcut.normalized s) = Shortcut.normalized s /\
    Forall Shortcut.clean parts /\
    (parts <> [] ->
     Shortcut.split Shortcut.plus (Shortcut.normalized s) = parts) /\
    (parts = [] -> Shortcut.normalized s = []).
Proof.
  intros s parts.
  pose proof (tokens_clean s) as Hclean. fold parts in Hclean.
  split; [| split; [exact Hclean | split]].
  - unfold Shortcut.normalized at 2 3. fold parts. now apply normalized_join.
  - intros Hne. unfold Shortcut.normalized. fold parts.
    apply split_join; [exact Hne |].
    intros t Ht. rewrite Forall_forall in Hclean. apply (Hclean t Ht).
  - intros Hnil. unfold Shortcut.normalized. fold parts. now rewrite Hnil.
Qed.

(** X17. While recording, a key-down either leaves the settings panel as it
    is or ends the recording; it ends it exactly when the event yields two
    tokens or more, and the shortcut is then their join by ['+'], starting
    with one of Ctrl, Shift, Alt, Super.  A key pressed without any
    modifier never changes anything; two modifiers alone are accepted:
    pressing Shift while Ctrl is down records [Ctrl+Shift]. *)
Theorem X17_recorded_shortcut_shape :
  forall (toUpperCase : Shortcut.JsString -> Shortcut.JsString)
         (e : Shortcut.KeyboardEvent) (s : Shortcut.State),
    Shortcut.recording s = true ->
    let s' := Shortcut.onKeyDown toUpperCase e s in
    (Shortcut.recording s' = false \/ s' = s) /\
    (Shortcut.recording s' = false <->
     (2 <= List.length (Shortcut.chord toUpperCase e))%nat) /\
    (Shortcut.recording s' = false ->
     Shortcut.shortcut s' = Shortcut.join Shortcut.plus (Shortcut.chord toUpperCase e) /\
     exists m rest,
       Shortcut.chord toUpperCase e = m :: rest /\
       In m Shortcut.modifiers /\ rest <> []) /\
    (modifierTokens e = [] -> s' = s) /\
    (Shortcut.ctrlKey e = true -> Shortcut.shiftKey e = true ->
     Shortcut.altKey e = false -> Shortcut.metaKey e = false ->
     Shortcut.key e = Shortcut.lit "Shift" ->
     Shortcut.shortcut s' = Shortcut.lit "Ctrl+Shift").
Proof.
  intros up e s Hrec s'.
  assert (Hs' : s' = if (1 <? List.length (Shortcut.chord up e))%nat
                     then {| Shortcut.shortcut :=
                               Shortcut.join Shortcut.plus (Shortcut.chord up e);
                             Shortcut.recording := false;
                             Shortcut.keys := Shortcut.keys s |}
                     else s).
  { unfold s', Shortcut.onKeyDown. now rewrite Hrec. }
  destruct (chord_split up e) as (kp & Hchord & Hkp).
  destruct (Nat.ltb_spec 1 (List.length (Shortcut.chord up e))) as [Hlen | Hlen].
  - split; [left; now rewrite Hs' |].
    split; [split; [intros _; lia | intros _; now rewrite Hs'] |].
    split; [| split].
    + intros _. split; [now rewrite Hs' |].
      destruct (modifierTokens_head e) as [Hnil | (m & rest & Hm & Hin)].
      * rewrite Hchord, Hnil in Hlen. destruct Hkp as [-> | ->]; cbn in Hlen; lia.
      * exists m, (rest ++ kp). rewrite Hchord, Hm.
        split; [reflexivity |]. split; [exact Hin |].
        intros Hnil. rewrite Hchord, Hm in Hlen. cbn [app List.length] in Hlen.
        rewrite Hnil in Hlen. cbn in Hlen. lia.
    + intros Hnil. rewrite Hchord, Hnil in Hlen.
      destruct Hkp as [-> | ->]; cbn in Hlen; lia.
    + intros Hc Hsh Ha Hm Hk. rewrite Hs'. cbn [Shortcut.shortcut].
      unfold Shortcut.chord. rewrite Hc, Hsh, Ha, Hm, Hk. reflexivity.
  - split; [right; exact Hs' |].
    split; [split; [intros Hf; rewrite Hs', Hrec in Hf; discriminate Hf | intros H; lia] |].
    split; [intros Hf; rewrite Hs', Hrec in Hf; discriminate Hf |].
    split; [intros _; exact Hs' |].
    intros Hc Hsh Ha Hm Hk. exfalso.
    unfold Shortcut.chord in Hlen. rewrite Hc, Hsh, Ha, Hm, Hk in Hlen.
    cbn in Hlen. lia.
Qed.

(** X17 on Ctrl+Alt+a pressed in a recording panel. *)
Lemma X17_recorded_shortcut_shape_witness :
  Shortcut.recording settingsRecording = true /\
  Shortcut.recording (Shortcut.onKeyDown asciiUpper ctrlAltA settingsRecording) = false /\
  Shortcut.shortcut (Shortcut.onKeyDown asciiUpper ctrlAltA settingsRecording)
  = Shortcut.lit "Ctrl+Alt+A".
Proof.
  assert (Hrec : Shortcut.recording settingsRecording = true) by reflexivity.
  split; [exact Hrec |].
  destruct (X17_recorded_shortcut_shape asciiUpper ctrlAltA settingsRecording Hrec)
    as (_ & [_ Hend] & _).
  split; [apply Hend; cbn; lia | reflexivity].
Defined.

(** X18. What the panel records is what gets registered, provided the
    upper-cased key is not empty, has no ['+'] and no white space at its
    ends: then normalising the recorded shortcut leaves it unchanged. *)
Theorem X18_recorded_shortcut_registered_as_shown :
  forall (toUpperCase : Shortcut.JsString -> Shortcut.JsString)
         (e : Shortcut.KeyboardEvent) (s : Shortcut.State),
    Shortcut.recording s = true ->
    Shortcut.recording (Shortcut.onKeyDown toUpperCase e s) = false ->
    Shortcut.clean (toUpperCase (Shortcut.key e)) ->
    Shortcut.normalized (Shortcut.shortcut (Shortcut.onKeyDown toUpperCase e s))
    = Shortcut.shortcut (Shortcut.onKeyDown toUpperCase e s).
Proof.
  intros up e s Hrec Hend Hclean.
  assert (Hs : Shortcut.shortcut (Shortcut.onKeyDown up e s)
               = Shortcut.join Shortcut.plus (Shortcut.chord up e)).
  { unfold Shortcut.onKeyDown in *. rewrite Hrec in *. cbn [negb] in *.
    destruct (1 <? List.length (Shortcut.chord up e))%nat; [reflexivity |].
    rewrite Hrec in Hend. discriminate Hend. }
  rewrite Hs. apply normalized_join.
  destruct (chord_split up e) as (kp & Hch & Hkp). rewrite Hch.
  apply Forall_app. split; [apply modifierTokens_clean |].
  destruct Hkp as [E | E]; rewrite E;
    [apply Forall_nil | apply Forall_cons; [exact Hclean | apply Forall_nil]].
Qed.

(** X18 on Ctrl+Alt+a. *)
Lemma X18_recorded_shortcut_registered_as_shown_witness :
  Shortcut.recording settingsRecording = true /\
  Shortcut.recording (Shortcut.onKeyDown asciiUpper ctrlAltA settingsRecording) = false /\
  Shortcut.clean (asciiUpper (Shortcut.key ctrlAltA)) /\
  Shortcut.normalized (Shortcut.lit "Ctrl+Alt+A") = Shortcut.lit "Ctrl+Alt+A".
Proof.
  assert (Hrec : Shortcut.recording settingsRecording = true) by reflexivity.
  assert (Hend : Shortcut.recording
                   (Shortcut.onKeyDown asciiUpper ctrlAltA settingsRecording) = false)
    by reflexivity.
  assert (Hclean : Shortcut.clean (asciiUpper (Shortcut.key ctrlAltA))).
  { split; [discriminate |]. split; [| reflexivity].
    cbn. intros [H | []]. discriminate H. }
  split; [exact Hrec |]. split; [exact Hend |]. split; [exact Hclean |].
  exact (X18_recorded_shortcut_registered_as_shown asciiUpper ctrlAltA
           settingsRecording Hrec Hend Hclean).
Defined.

(** X19. The keys [+] and space cannot be part of a registered shortcut:
    pressed with at least one modifier they end the recording, and the
    panel shows the modifiers followed by the key (as in [Ctrl++]), but
    the string registered is that of the modifiers alone. *)
Theorem X19_plus_and_space_keys_dropped :
  forall (toUpperCase : Shortcut.JsString -> Shortcut.JsString)
         (e : Shortcut.KeyboardEvent) (s : Shortcut.State),
    Shortcut.recording s = true ->
    modifierTokens e <> [] ->
    Shortcut.key e = Shortcut.lit "+" \/ Shortcut.key e = Shortcut.lit " " ->
    toUpperCase (Shortcut.key e) = Shortcut.key e ->
    let s' := Shortcut.onKeyDown toUpperCase e s in
    Shortcut.recording s' = false /\
    Shortcut.shortcut s'
    = Shortcut.join Shortcut.plus (modifierTokens e ++ [Shortcut.key e]) /\
    Shortcut.normalized (Shortcut.shortcut s')
    = Shortcut.join Shortcut.plus (modifierTokens e) /\
    Shortcut.normalized (Shortcut.shortcut s') <> Shortcut.shortcut s'.
Proof.
  intros up e s Hrec Hmods Hkey Hup s'.
  unfold s', Shortcut.onKeyDown, Shortcut.chord, modifierTokens in *.
  rewrite Hrec, Hup. cbn [negb].
  destruct e as [c sh a m k]; cbn [Shortcut.ctrlKey Shortcut.shiftKey Shortcut.altKey
                                   Shortcut.metaKey Shortcut.key] in *.
  destruct Hkey as [-> | ->];
    destruct c, sh, a, m; try (exfalso; apply Hmods; reflexivity);
    (split; [reflexivity |]; split; [reflexivity |]; split; [reflexivity |];
     discriminate).
Qed.

(** X19 on Ctrl and [+]: shown [Ctrl++], registered [Ctrl]. *)
Lemma X19_plus_and_space_keys_dropped_witness :
  Shortcut.recording settingsRecording = true /\
  modifierTokens ctrlPlus <> [] /\
  asciiUpper (Shortcut.key ctrlPlus) = Shortcut.key ctrlPlus /\
  Shortcut.shortcut (Shortcut.onKeyDown asciiUpper ctrlPlus settingsRecording)
  = Shortcut.lit "Ctrl++" /\
  Shortcut.normalized
    (Shortcut.shortcut (Shortcut.onKeyDown asciiUpper ctrlPlus settingsRecording))
  = Shortcut.join Shortcut.plus (modifierTokens ctrlPlus).
Proof.
  assert (Hrec : Shortcut.recording settingsRecording = true) by reflexivity.
  assert (Hmods : modifierTokens ctrlPlus <> []) by discriminate.
  assert (Hup : asciiUpper (Shortcut.key ctrlPlus) = Shortcut.key ctrlPlus)
    by reflexivity.
  split; [exact Hrec |]. split; [exact Hmods |]. split; [exact Hup |].
  split; [reflexivity |].
  exact (proj1 (proj2 (proj2
           (X19_plus_and_space_keys_dropped asciiUpper ctrlPlus settingsRecording
              Hrec Hmods (or_introl eq_refl) Hup)))).
Defined.

(** ** Editor and export together *)

Section EditorExport.

Lemma drawMosaic_total (from to : Point.t) (rnd : nat -> Q) (k : nat) :
  exists out k', Renderer.drawMosaic from to rnd k = Some (tt, out, k').
Proof.
  unfold Renderer.drawMosaic. cbv zeta.
  rewrite forStep_forEach.
  rewrite (forEach_ext _ _
             (fun i => forEach (steps (Z.to_nat (Z.abs (Point.y to - Point.y from))) 0
                                      (Z.abs (Point.y to - Point.y from)) 10)
                               (fun j => Renderer.mosaicBlock
                                           (Z.min (Point.x from) (Point.x to))
                                           (Z.min (Point.y from) (Point.y to)) 10 i j)))
    by (intros; apply forStep_forEach).
  rewrite grid_paint. eauto.
Qed.

Lemma paintAnnotation_total (a : Annotation.t) (rnd : nat -> Q) (k : nat) :
  ~ textWithoutPoint a ->
  exists out k', Compositor.paintAnnotation a rnd k = Some (tt, out, k').
Proof.
  intros Hn. unfold Compositor.paintAnnotation.
  destruct (Annotation.type a) eqn:Ety.
  - eexists; eexists; reflexivity.
  - destruct (Annotation.points a) as [| p0 [| p1 ps]]; eexists; eexists; reflexivity.
  - destruct (Annotation.points a) as [| p0 [| p1 ps]]; eexists; eexists; reflexivity.
  - destruct (Annotation.text a) as [t |] eqn:Etx; [| eexists; eexists; reflexivity].
    destruct (truthy (Some t)) eqn:Etr; [| eexists; eexists; reflexivity].
    destruct (Annotation.points a) as [| p0 ps] eqn:Epts;
      [| eexists; eexists; reflexivity].
    exfalso. apply Hn. unfold textWithoutPoint. rewrite Etx. auto.
  - destruct (Annotation.points a) as [| p0 [| p1 ps]];
      try (eexists; eexists; reflexivity).
    destruct (drawMosaic_total p0 p1 rnd k) as (out & k' & E).
    exists ([SetStrokeStyle (Style.color (Annotation.style a));
             SetFillStyle (CssColor (Style.color (Annotation.style a)));
             SetLineWidth (Style.lineWidth (Annotation.style a))] ++ out), k'.
    change (forStep (Z.to_nat (Z.abs (Point.x p1 - Point.x p0))) 0
              (Z.abs (Point.x p1 - Point.x p0)) 10 _)
      with (Renderer.drawMosaic p0 p1).
    unfold bind, emit. rewrite E. reflexivity.
Qed.

Lemma painters_agree_unless (a : Annotation.t) (rnd : nat -> Q) (k : nat) :
  ~ textWithoutPoint a ->
  Renderer.drawAnnotation a rnd k = Compositor.paintAnnotation a rnd k.
Proof.
  intros Hn. unfold Renderer.drawAnnotation, Compositor.paintAnnotation.
  destruct (Annotation.type a) eqn:Ety; try reflexivity.
  destruct (Annotation.text a) as [t |] eqn:Etx;
    [| destruct (Annotation.points a); reflexivity].
  destruct (truthy (Some t)) eqn:Etr;
    [| destruct (Annotation.points a); reflexivity].
  destruct (Annotation.points a) as [| p0 ps] eqn:Epts; [| reflexivity].
  exfalso. apply Hn. unfold textWithoutPoint. rewrite Etx. auto.
Qed.

Lemma paint_list_total (anns : list Annotation.t) :
  (forall a, In a anns -> ~ textWithoutPoint a) ->
  forall rnd k,
  exists out k',
    forEach anns Compositor.paintAnnotation rnd k = Some (tt, out, k') /\
    forEach anns Renderer.drawAnnotation rnd k = Some (tt, out, k').
Proof.
  induction anns as [| a rest IH]; intros Hall rnd k; cbn [forEach].
  - eexists; eexists; split; reflexivity.
  - assert (Hna : ~ textWithoutPoint a) by (apply Hall; now left).
    destruct (paintAnnotation_total a rnd k Hna) as (out1 & k1 & E1).
    destruct (IH (fun b Hb => Hall b (or_intror Hb)) rnd k1) as (out2 & k2 & E2 & E2').
    exists (out1 ++ out2), k2. unfold bind.
    rewrite (painters_agree_unless a rnd k Hna), E1, E2, E2'. split; reflexivity.
Qed.

(** Whatever the session, an emitted annotation has a point. *)
Lemma emitted_has_point (tr : list (Editor.Env * Editor.Event)) :
  forall s, editorInv s ->
    forall a, In a (snd (Editor.run tr s)) -> Annotation.points a <> [].
Proof.
  induction tr as [| [env ev] rest IH]; intros s HI a Ha.
  - destruct Ha.
  - rewrite run_cons in Ha. cbn [snd] in Ha. apply in_app_or in Ha.
    destruct (handle_shape env ev s HI) as [HI1 Hout].
    destruct Ha as [Ha | Ha]; [| now apply (IH _ HI1)].
    destruct (Hout a Ha) as [(_ & _ & [q Hp] & _) | (_ & [p Hp] & _)];
      rewrite Hp; discriminate.
Qed.

End EditorExport.

(** X20. Export never fails on what the editor produced, and shows what the
    preview shows: for any editor session, and any list made of annotations
    the session emitted (the list left by any additions, undos and redos),
    the painting part of [confirm] does not throw, and after its
    [drawImage] it makes exactly the calls that [redraw] makes after its
    [clearRect], with the same draws of [Math.random]. *)
Theorem X20_export_of_editor_annotations :
  forall (tr : list (Editor.Env * Editor.Event)) (annotations : list Annotation.t)
         (croppedImage : string) (canvasW canvasH : Z) (rnd : nat -> Q),
    (forall a, In a annotations -> In a (snd (Editor.run tr Editor.init))) ->
    exists body : list Cmd,
      calls (Compositor.paint croppedImage annotations) rnd
        = Some (DrawImage croppedImage 0 0 :: body) /\
      calls (Renderer.redraw canvasW canvasH annotations) rnd
        = Some (ClearRect 0 0 canvasW canvasH :: body).
Proof.
  intros tr anns img w h rnd Hsub.
  assert (Hgood : forall a, In a anns -> ~ textWithoutPoint a).
  { intros a Ha (_ & _ & Hpts).
    exact (emitted_has_point tr Editor.init init_editorInv a (Hsub a Ha) Hpts). }
  destruct (paint_list_total anns Hgood rnd O) as (body & k' & E & E').
  exists body. unfold calls, Compositor.paint, Renderer.redraw, bind, emit.
  rewrite E, E'. split; reflexivity.
Qed.

(** X20 on the session that draws a rectangle and places a text. *)
Lemma X20_export_of_editor_annotations_witness :
  (forall a, In a (snd (Editor.run sessionRectThenText Editor.init)) ->
             In a (snd (Editor.run sessionRectThenText Editor.init))) /\
  exists body : list Cmd,
    calls (Compositor.paint "iVBORw0KGgo="
             (snd (Editor.run sessionRectThenText Editor.init))) rndZero
      = Some (DrawImage "iVBORw0KGgo=" 0 0 :: body) /\
    List.length body = 9%nat.
Proof.
  assert (Hsub : forall a, In a (snd (Editor.run sessionRectThenText Editor.init)) ->
                           In a (snd (Editor.run sessionRectThenText Editor.init)))
    by (intros a Ha; exact Ha).
  split; [exact Hsub |].
  destruct (X20_export_of_editor_annotations sessionRectThenText
              (snd (Editor.run sessionRectThenText Editor.init))
              "iVBORw0KGgo=" 200 100 rndZero Hsub) as (body & Hp & _).
  exists body. split; [exact Hp |].
  assert (Hc : calls (Compositor.paint "iVBORw0KGgo="
                        (snd (Editor.run sessionRectThenText Editor.init))) rndZero
               = Some (DrawImage "iVBORw0KGgo=" 0 0 ::
                       [SetStrokeStyle "#ff0000"; SetFillStyle (CssColor "#ff0000");
                        SetLineWidth 3; StrokeRect 10 10 40 30;
                        SetStrokeStyle "#ff0000"; SetFillStyle (CssColor "#ff0000");
                        SetLineWidth 3; SetFont 16; FillText "hi" 5 5]))
    by reflexivity.
  rewrite Hc in Hp. injection Hp as <-. reflexivity.
Defined.

(** ** Text entry in the editor *)

(** X21. Escape closes the text input without forgetting what was typed.
    After text [v] (not empty) has been typed and Escape pressed, the input
    is closed ([textPosition] is null) and Enter emits nothing, but
    [textInput] still holds [v]: the next click with the text tool reopens
    the input, and Enter then emits one text annotation carrying [v] at the
    position of that click, with font size 16; this clears both the text
    and the position, so a further Enter emits nothing.  With an empty
    input, Enter changes and emits nothing. *)
Theorem X21_escape_keeps_typed_text :
  forall (env0 env1 env2 env3 env4 : Editor.Env) (s : Editor.State)
         (v : string) (cx cy : Z),
    Editor.currentTool env2 = text ->
    v <> ""%string ->
    let s1 := fst (Editor.handle env0 (Editor.Input v) s) in
    let s2 := fst (Editor.handle env1 Editor.KeyupEsc s1) in
    let s3 := fst (Editor.handle env2 (Editor.MouseDown cx cy) s2) in
    let s4 := fst (Editor.handle env3 Editor.KeyupEnter s3) in
    Editor.textInput s2 = v /\
    Editor.textPosition s2 = None /\
    Editor.handle env3 Editor.KeyupEnter s2 = (s2, []) /\
    snd (Editor.handle env3 Editor.KeyupEnter s3)
    = [ {| Annotation.id := Editor.now env3;
           Annotation.type := text;
           Annotation.points := [Editor.getPos env2 cx cy];
           Annotation.style :=
             Style.mk (Editor.currentColor env3) (Editor.lineWidth env3) (Some 16);
           Annotation.text := Some v |} ] /\
    Editor.textInput s4 = ""%string /\
    Editor.textPosition s4 = None /\
    Editor.handle env4 Editor.KeyupEnter s4 = (s4, []) /\
    (forall s0 : Editor.State,
       Editor.textInput s0 = ""%string ->
       Editor.handle env4 Editor.KeyupEnter s0 = (s0, [])).
Proof.
  intros env0 env1 env2 env3 env4 s v cx cy Htool Hv s1 s2 s3 s4.
  assert (Hne : String.eqb v "" = false) by (now apply String.eqb_neq).
  assert (E3 : s3 = {| Editor.isDrawing := Editor.isDrawing s;
                       Editor.startPoint := Editor.startPoint s;
                       Editor.currentPoints := Editor.currentPoints s;
                       Editor.textInput := v;
                       Editor.textPosition := Some (Editor.getPos env2 cx cy) |}).
  { unfold s3, s2, s1. cbn [Editor.handle fst]. unfold Editor.onMouseDown.
    rewrite Htool. reflexivity. }
  assert (E4 : Editor.handle env3 Editor.KeyupEnter s3
               = ({| Editor.isDrawing := Editor.isDrawing s;
                     Editor.startPoint := Editor.startPoint s;
                     Editor.currentPoints := Editor.currentPoints s;
                     Editor.textInput := "";
                     Editor.textPosition := None |},
                  [ {| Annotation.id := Editor.now env3;
                       Annotation.type := text;
                       Annotation.points := [Editor.getPos env2 cx cy];
                       Annotation.style :=
                         Style.mk (Editor.currentColor env3) (Editor.lineWidth env3)
                                  (Some 16);
                       Annotation.text := Some v |} ])).
  { rewrite E3. cbn [Editor.handle]. unfold Editor.submitText.
    cbn [Editor.textPosition Editor.textInput]. rewrite Hne. reflexivity. }
  split; [reflexivity |]. split; [reflexivity |]. split; [reflexivity |].
  split; [now rewrite E4 |].
  unfold s4. rewrite E4. cbn [fst].
  split; [reflexivity |]. split; [reflexivity |]. split; [reflexivity |].
  intros s0 Hempty. cbn [Editor.handle]. unfold Editor.submitText.
  rewrite Hempty. destruct (Editor.textPosition s0); reflexivity.
Qed.

(** X21 with the text "note" typed before Escape, then a click at (60, 20). *)
Lemma X21_escape_keeps_typed_text_witness :
  Editor.currentTool (envOf text) = text /\
  "note"%string <> ""%string /\
  snd (Editor.run [ (envOf text, Editor.MouseDown 5 5);
                    (envOf text, Editor.Input "note");
                    (envOf text, Editor.KeyupEsc);
                    (envOf text, Editor.MouseDown 60 20);
                    (envOf text, Editor.KeyupEnter) ] Editor.init)
  = [ {| Annotation.id := Editor.now (envOf text);
         Annotation.type := text;
         Annotation.points := [Point.mk 60 20];
         Annotation.style := Style.mk "#ff0000" 3 (Some 16);
         Annotation.text := Some "note"%string |} ].
Proof.
  assert (Htool : Editor.currentTool (envOf text) = text) by reflexivity.
  assert (Hv : "note"%string <> ""%string) by discriminate.
  split; [exact Htool |]. split; [exact Hv |].
  destruct (X21_escape_keeps_typed_text (envOf text) (envOf text) (envOf text)
              (envOf text) (envOf text)
              (fst (Editor.handle (envOf text) (Editor.MouseDown 5 5) Editor.init))
              "note" 60 20 Htool Hv) as (_ & _ & _ & Hemit & _).
  cbn [Editor.run]. cbn [Editor.handle fst snd] in Hemit |- *.
  exact Hemit.
Defined.

(** ** Annotation editor: when the point counts hold *)

(** X22. The editor emits well-formed annotations as long as every mouse-up
    or mouse-leave that ends a drawing finds a drawing tool (arrow, rect or
    mosaic) current, whatever else the parent does to the props in between,
    a change from one drawing tool to another during the drag included:
    every annotation emitted in such a session is of type rect, arrow or
    mosaic with exactly two points, or of type text with exactly one point
    and a text that is not empty, and none is of type select.  Besides, from
    any state that is not drawing, a mouse-down followed at once by a
    mouse-up emits nothing, and a mouse-down, a mouse-move and a mouse-up
    under one drawing tool emit one annotation of that tool whose points
    are the anchor and then the drag endpoint. *)
Theorem X22_well_formed_when_released_with_drawing_tool :
  forall tr : list (Editor.Env * Editor.Event),
    Editor.releasedWithDrawingTool tr Editor.init ->
    (forall a, In a (snd (Editor.run tr Editor.init)) ->
       Editor.wellFormed a /\ Annotation.type a <> select) /\
    (forall (env1 env2 : Editor.Env) (cx cy : Z) (s : Editor.State),
       Editor.isDrawing s = false ->
       snd (Editor.onMouseUp env2 (Editor.onMouseDown env1 cx cy s)) = []) /\
    (forall (env : Editor.Env) (x0 y0 x1 y1 : Z) (s : Editor.State),
       drawTool (Editor.currentTool env) ->
       Editor.ctxReady env = true ->
       snd (Editor.onMouseUp env
              (Editor.onMouseMove env x1 y1 (Editor.onMouseDown env x0 y0 s)))
       = [ {| Annotation.id := Editor.now env;
              Annotation.type := Editor.currentTool env;
              Annotation.points := [Editor.getPos env x0 y0; Editor.getPos env x1 y1];
              Annotation.style :=
                Style.mk (Editor.currentColor env) (Editor.lineWidth env) None;
              Annotation.text := None |} ]).
Proof.
  intros tr Hrel. split; [| split].
  - apply (run_released tr Editor.init init_editorInv Hrel).
  - intros env1 env2 cx cy s Hidle.
    unfold Editor.onMouseUp, Editor.onMouseDown.
    destruct (Editor.currentTool env1); cbn; rewrite ?Hidle; reflexivity.
  - intros env x0 y0 x1 y1 s Htool Hctx.
    unfold Editor.onMouseUp, Editor.onMouseMove, Editor.onMouseDown.
    destruct Htool as [E | [E | E]]; rewrite E; cbn; rewrite Hctx; reflexivity.
Qed.

(** X22 on the drag started with the rect tool and released with the arrow
    tool: one arrow annotation with two points. *)
Lemma X22_well_formed_when_released_with_drawing_tool_witness :
  Editor.releasedWithDrawingTool sessionRectToArrow Editor.init /\
  List.length (snd (Editor.run sessionRectToArrow Editor.init)) = 1%nat /\
  (forall a, In a (snd (Editor.run sessionRectToArrow Editor.init)) ->
     Editor.wellFormed a /\ Annotation.type a <> select).
Proof.
  assert (Hrel : Editor.releasedWithDrawingTool sessionRectToArrow Editor.init).
  { cbn. repeat split. intros _. left. reflexivity. }
  split; [exact Hrel |]. split; [reflexivity |].
  exact (proj1 (X22_well_formed_when_released_with_drawing_tool sessionRectToArrow Hrel)).
Defined.
